(** * QR-Overlay: the extraction, overlay and merge pipeline of [app.py]

    A shallow embedding of the three core functions of [app.py]
    ([read_csv_column_by_name], [build_overlay_vector] and
    [place_qrs_on_pdf_stream]) together with the properties their
    specification states about them.

    Conventions of the embedding:
    - a Python [str] is a list of Unicode code points;
    - a Python [bytes] is a list of [byte];
    - a Python [float] is a binary64 primitive float;
    - a raised exception is a value of [exn], threaded through a small
      state-and-error monad;
    - what the third-party libraries compute ([csv], [segno], [svglib],
      the parsing of [PyPDF2]), and whether reportlab's renderer raises,
      is a parameter of the sections that use them; a reportlab canvas
      and a PyPDF2 page are kept as the record of what was drawn or
      merged on them. *)

From Stdlib Require Import Strings.String Strings.Ascii Strings.Byte.
From Stdlib Require Import List Bool Arith NArith ZArith QArith Qpower.
From Stdlib Require Import Lia Lqa.
From Stdlib Require Import Floats.PrimFloat Floats.SpecFloat.
From Stdlib Require Import Floats.FloatOps Floats.FloatAxioms.
Import ListNotations.

Set Implicit Arguments.

(** ** Python strings *)

Module PyStr.

Local Open Scope N_scope.

(** A [str] is a sequence of code points. *)
Definition str := list N.

Definition of_string (s : string) : str :=
  map N_of_ascii (list_ascii_of_string s).

Definition bytes := list byte.

Definition bytes_of_string (s : string) : bytes :=
  map byte_of_ascii (list_ascii_of_string s).

(** [str.isspace] on one code point: the ASCII table of CPython
    (TAB..CR, FS..US, SPACE) and the Unicode white-space code points. *)
Definition isspace (c : N) : bool :=
  ((9 <=? c) && (c <=? 13)) || ((28 <=? c) && (c <=? 32))
  || (c =? 0x85) || (c =? 0xA0) || (c =? 0x1680)
  || ((0x2000 <=? c) && (c <=? 0x200A))
  || (c =? 0x2028) || (c =? 0x2029) || (c =? 0x202F)
  || (c =? 0x205F) || (c =? 0x3000).

Fixpoint lstrip (s : str) : str :=
  match s with
  | [] => []
  | c :: r => if isspace c then lstrip r else s
  end.

Definition rstrip (s : str) : str := rev (lstrip (rev s)).

(** [s.strip()] *)
Definition strip (s : str) : str := rstrip (lstrip s).

(** Truth value of a string: non-empty. *)
Definition truthy (s : str) : bool :=
  match s with [] => false | _ :: _ => true end.

Fixpoint eqb (a b : str) : bool :=
  match a, b with
  | [], [] => true
  | x :: a', y :: b' => (x =? y) && eqb a' b'
  | _, _ => false
  end.

(** [x in l] *)
Definition contains (x : str) (l : list str) : bool := existsb (eqb x) l.

(** [l.index(x)]: position of the first element equal to [x]. *)
Fixpoint index (x : str) (l : list str) : option nat :=
  match l with
  | [] => None
  | y :: l' => if eqb x y then Some 0%nat
               else option_map S (index x l')
  end.

(** [s or ""] *)
Definition or_empty (s : str) : str := if truthy s then s else [].

End PyStr.

Import PyStr.

(** ** Strict UTF-8 decoding, [bytes.decode("utf-8")] *)

Module Utf8.

Local Open Scope N_scope.

Definition cont (b : byte) : bool :=
  let n := Byte.to_N b in (0x80 <=? n) && (n <=? 0xBF).

Definition within (lo hi : N) (b : byte) : bool :=
  let n := Byte.to_N b in (lo <=? n) && (n <=? hi).

Definition low6 (b : byte) : N := N.land (Byte.to_N b) 0x3F.

(** The well-formed byte sequences of the Unicode standard (table 3-7):
    shortest form only, no surrogates, nothing above U+10FFFF. [None]
    stands for the [UnicodeDecodeError] of the strict error handler. *)
Fixpoint decode (bs : bytes) : option str :=
  match bs with
  | [] => Some []
  | b0 :: r0 =>
    let n0 := Byte.to_N b0 in
    if n0 <? 0x80 then option_map (cons n0) (decode r0)
    else if within 0xC2 0xDF b0 then
      match r0 with
      | b1 :: r1 =>
        if cont b1
        then option_map
               (cons (N.shiftl (N.land n0 0x1F) 6 + low6 b1))
               (decode r1)
        else None
      | _ => None
      end
    else if within 0xE0 0xEF b0 then
      match r0 with
      | b1 :: b2 :: r2 =>
        let second_ok :=
          if n0 =? 0xE0 then within 0xA0 0xBF b1
          else if n0 =? 0xED then within 0x80 0x9F b1
          else cont b1 in
        if second_ok && cont b2
        then option_map
               (cons (N.shiftl (N.land n0 0x0F) 12
                      + N.shiftl (low6 b1) 6 + low6 b2))
               (decode r2)
        else None
      | _ => None
      end
    else if within 0xF0 0xF4 b0 then
      match r0 with
      | b1 :: b2 :: b3 :: r3 =>
        let second_ok :=
          if n0 =? 0xF0 then within 0x90 0xBF b1
          else if n0 =? 0xF4 then within 0x80 0x8F b1
          else cont b1 in
        if second_ok && cont b2 && cont b3
        then option_map
               (cons (N.shiftl (N.land n0 0x07) 18
                      + N.shiftl (low6 b1) 12
                      + N.shiftl (low6 b2) 6 + low6 b3))
               (decode r3)
        else None
      | _ => None
      end
    else None
  end.

(** The UTF-8 encoding form, [str.encode("utf-8")]: the yardstick for
    what [decode] accepts. A surrogate or a value above U+10FFFF has no
    encoding. *)
Definition byte_of (n : N) : byte :=
  match Byte.of_N n with Some b => b | None => x00 end.

Definition encode_point (c : N) : option bytes :=
  if c <? 0x80 then Some [byte_of c]
  else if c <? 0x800 then
    Some [byte_of (0xC0 + N.shiftr c 6); byte_of (0x80 + N.land c 0x3F)]
  else if c <? 0x10000 then
    if (0xD800 <=? c) && (c <=? 0xDFFF) then None
    else Some [byte_of (0xE0 + N.shiftr c 12);
               byte_of (0x80 + N.land (N.shiftr c 6) 0x3F);
               byte_of (0x80 + N.land c 0x3F)]
  else if c <=? 0x10FFFF then
    Some [byte_of (0xF0 + N.shiftr c 18);
          byte_of (0x80 + N.land (N.shiftr c 12) 0x3F);
          byte_of (0x80 + N.land (N.shiftr c 6) 0x3F);
          byte_of (0x80 + N.land c 0x3F)]
  else None.

Fixpoint encode (s : str) : option bytes :=
  match s with
  | [] => Some []
  | c :: r =>
    match encode_point c, encode r with
    | Some a, Some b => Some (a ++ b)
    | _, _ => None
    end
  end.

(** Well-formed UTF-8: the encoding of some string. *)
Definition well_formed (bs : bytes) : Prop :=
  exists s : str, encode s = Some bs.

End Utf8.

(** ** Exceptions and the state-and-error monad *)

(** The text of a [ValueError]: a literal, or one of the two formatted
    messages, kept as the values that are formatted into it. *)
Inductive message : Type :=
| Msg (text : string)
| ColumnNotFoundMsg (column_name : str) (available : list str)
| NotInListMsg (x : str).

Inductive exn : Type :=
| UnicodeDecodeError
| CsvError
| ValueError (m : message)
| SegnoError
| ZeroDivisionError
| OverflowError
| IndexError
| PdfReadError.

Inductive result (A : Type) : Type :=
| Ok (a : A)
| Raise (e : exn).

Arguments Ok {A} a.
Arguments Raise {A} e.

(** A computation over a store [S] that returns an [A] or raises. *)
Definition M (S A : Type) : Type := S -> S * result A.

Definition ret {S A} (a : A) : M S A := fun s => (s, Ok a).

Definition raise {S A} (e : exn) : M S A := fun s => (s, Raise e).

Definition bind {S A B} (c : M S A) (k : A -> M S B) : M S B :=
  fun s =>
    match c s with
    | (s', Ok a) => k a s'
    | (s', Raise e) => (s', Raise e)
    end.

Definition get {S} : M S S := fun s => (s, Ok s).

Definition put {S} (s : S) : M S unit := fun _ => (s, Ok tt).

(** An optional value whose absence raises [e]. *)
Definition or_raise {S A} (e : exn) (o : option A) : M S A :=
  match o with
  | Some a => ret a
  | None => raise e
  end.

Definition of_result {S A} (r : result A) : M S A := fun s => (s, r).

Declare Scope py_scope.
Delimit Scope py_scope with py.

Notation "x <- c ;; k" := (bind c (fun x => k))
  (at level 100, c at next level, right associativity) : py_scope.
Notation "c ;;; k" := (bind c (fun _ => k))
  (at level 100, right associativity) : py_scope.

Open Scope py_scope.

(** ** Tabular extractor: [read_csv_column_by_name] *)

(** The uploaded file: its bytes and the position of the next read. *)
Record FileStorage : Type := { content : bytes; pos : nat }.

(** [file_storage.read()]: everything from the current position on. *)
Definition fs_read : M FileStorage bytes :=
  fun fs =>
    ({| content := content fs;
        pos := Nat.max (pos fs) (length (content fs)) |},
     Ok (skipn (pos fs) (content fs))).

(** [file_storage.seek(n)] *)
Definition fs_seek (n : nat) : M FileStorage unit :=
  fun fs => ({| content := content fs; pos := n |}, Ok tt).

Definition comma : N := 44%N.

Definition csv_is_empty : exn := ValueError (Msg "CSV is empty").

Section Extractor.

(** [csv.Sniffer().sniff(sample).delimiter]; [None] when it raises
    [csv.Error]. *)
Variable sniff : str -> option N.

(** [list(csv.reader(io.StringIO(data), delimiter=d))]; [None] when the
    reader raises [csv.Error]. *)
Variable csv_reader : str -> N -> option (list (list str)).

(** The delimiter detection of lines 29-35. *)
Definition detect_delimiter (data : str) : N :=
  let sample := firstn 4096 data in
  match sniff sample with
  | Some d => d
  | None => comma
  end.

(** The loop of lines 53-61; [out] is the list being appended to. The
    counter of [enumerate] is not used by the body and is left out. *)
Fixpoint column_loop (column_index : nat) (rows : list (list str))
         (out : list str) : list str :=
  match rows with
  | [] => out
  | row :: rest =>
    let out' :=
      match row with
      | [] => out ++ [[]]
      | _ :: _ =>
        if (length row <=? column_index)%nat then out ++ [[]]
        else
          let val := strip (or_empty (nth column_index row [])) in
          out ++ [val]
      end in
    column_loop column_index rest out'
  end.

Definition read_csv_column_by_name (column_name : str)
  : M FileStorage (list str) :=
  raw <- fs_read ;;
  data <- or_raise UnicodeDecodeError (Utf8.decode raw) ;;
  fs_seek 0 ;;;
  let delimiter := detect_delimiter data in
  all_rows <- or_raise CsvError (csv_reader data delimiter) ;;
  match all_rows with
  | [] => raise csv_is_empty
  | header :: data_rows =>
    let cleaned_headers := map strip header in
    if negb (contains (strip column_name) cleaned_headers)
    then raise (ValueError (ColumnNotFoundMsg column_name cleaned_headers))
    else
      column_index <-
        or_raise (ValueError (NotInListMsg (strip column_name)))
                 (index (strip column_name) cleaned_headers) ;;
      ret (column_loop column_index data_rows [])
  end.

End Extractor.

(** A reader for the unquoted fragment of the csv dialect (records end
    at a line feed, fields at the delimiter, a blank line is a row of no
    cells) and a sniffer that always gives up; the worked examples run
    the extractor with them. *)
Module Demo.

Fixpoint split_on (d : N) (s : str) (cur : str) : list str :=
  match s with
  | [] => [rev cur]
  | c :: r => if (c =? d)%N then rev cur :: split_on d r []
              else split_on d r (c :: cur)
  end.

Definition row_of (d : N) (line : str) : list str :=
  match line with
  | [] => []
  | _ :: _ => split_on d line []
  end.

Definition lines (data : str) : list str :=
  match data with
  | [] => []
  | _ :: _ =>
    let ls := split_on 10%N data [] in
    match rev ls with
    | [] :: front => rev front
    | _ => ls
    end
  end.

Definition csv_reader (data : str) (d : N) : option (list (list str)) :=
  Some (map (row_of d) (lines data)).

Definition sniff (_ : str) : option N := None.

Definition upload (text : string) : FileStorage :=
  {| content := bytes_of_string text; pos := 0 |}.

Definition extract (text : string) (column : string) :=
  snd (read_csv_column_by_name sniff csv_reader (of_string column)
                               (upload text)).

End Demo.

(** ** Numbers *)

(** The arithmetic the overlay builder uses. The program runs on binary64
    floats ([float64]); the same text read over the rationals ([exact])
    gives the figures of an arithmetic without rounding. *)
Class Arith (num : Type) : Type := {
  n_add : num -> num -> num;
  n_sub : num -> num -> num;
  n_mul : num -> num -> num;
  n_div : num -> num -> num;
  n_lt : num -> num -> bool;
  n_is_zero : num -> bool;
  n_two : num
}.

#[global] Instance float64 : Arith float := {
  n_add := PrimFloat.add;
  n_sub := PrimFloat.sub;
  n_mul := PrimFloat.mul;
  n_div := PrimFloat.div;
  n_lt := PrimFloat.ltb;
  n_is_zero := fun x => PrimFloat.eqb x 0%float;
  n_two := 2%float
}.

#[global] Instance exact : Arith Q := {
  n_add := Qplus;
  n_sub := Qminus;
  n_mul := Qmult;
  n_div := Qdiv;
  n_lt := fun a b => negb (Qle_bool b a);
  n_is_zero := fun x => Qeq_bool x 0%Q;
  n_two := 2%Q
}.

Declare Scope num_scope.
Delimit Scope num_scope with num.
Notation "a + b" := (n_add a b) : num_scope.
Notation "a - b" := (n_sub a b) : num_scope.
Notation "a * b" := (n_mul a b) : num_scope.
Notation "a / b" := (n_div a b) : num_scope.

Section PyNum.

Context {num : Type} {A : Arith num}.

(** [a / b] on floats: a zero divisor raises. *)
Definition py_div (a b : num) : result num :=
  if n_is_zero b then Raise ZeroDivisionError else Ok (a / b)%num.

(** [min(a, b)]: the first argument unless the second is smaller. *)
Definition py_min (a b : num) : num := if n_lt b a then b else a.

End PyNum.

(** ** Overlay compositor: [build_overlay_vector] *)

(** A reportlab drawing: its declared size, the scalings applied to it
    in call order, and the shapes it holds. *)
Record Drawing (num Shape : Type) : Type := {
  width : num;
  height : num;
  transform : list (num * num);
  contents : Shape
}.

(** One [renderPDF.draw(drawing, c, x, y)]. *)
Record Placed (num Shape : Type) : Type := {
  what : Drawing num Shape;
  at_x : num;
  at_y : num
}.

(** A canvas: the size of its pages and what has been drawn on the page
    in progress. A page of a written document is kept the same way. *)
Record Canvas (num Shape : Type) : Type := {
  pagesize : num * num;
  drawn : list (Placed num Shape)
}.

(** [c.save()], for a canvas on which [showPage] was never called:
    reportlab shows the page in progress on saving only "if there is
    current data", so the document written has that one page when
    something was drawn, and no page otherwise. *)
Definition save {num Shape : Type} (c : Canvas num Shape)
  : list (Canvas num Shape) :=
  match drawn c with
  | [] => []
  | _ :: _ => [c]
  end.

Section Compositor.

Context {num : Type} {A : Arith num}.

(** A segno symbol; its SVG rendering is what [svg2rlg] reads. *)
Variable QRCode : Type.
Variable Shape : Type.

(** [segno.make(qr_data, error='l')]; [None] when it raises. *)
Variable segno_make : str -> option QRCode.

(** [qr.save(svg_buffer, kind='svg', scale=1, border=0, ...)] followed
    by [svg2rlg(svg_buffer)]; [None] is its [None]. *)
Variable svg2rlg : QRCode -> option (Drawing num Shape).

(** Whether [renderPDF.draw(drawing, c, x, y)] raises on a fresh canvas,
    and what: reportlab raises for a drawing whose scaling cannot be
    inverted and for numbers it cannot write; [None] when the call
    returns. *)
Variable renderPDF_raises : Drawing num Shape -> num -> num -> option exn.

Definition set_width (d : Drawing num Shape) (w : num) :=
  {| width := w; height := height d;
     transform := transform d; contents := contents d |}.

Definition set_height (d : Drawing num Shape) (h : num) :=
  {| width := width d; height := h;
     transform := transform d; contents := contents d |}.

(** [drawing.scale(sx, sy)] *)
Definition scale (d : Drawing num Shape) (sx sy : num) :=
  {| width := width d; height := height d;
     transform := transform d ++ [(sx, sy)]; contents := contents d |}.

(** [renderPDF.draw(drawing, c, x, y)]: the drawing is put on the page
    in progress, unless the call raises. *)
Definition renderPDF_draw (d : Drawing num Shape) (x y : num)
  : M (Canvas num Shape) unit :=
  fun c =>
    match renderPDF_raises d x y with
    | Some e => (c, Raise e)
    | None =>
      ({| pagesize := pagesize c;
          drawn := drawn c ++ [{| what := d; at_x := x; at_y := y |}] |},
       Ok tt)
    end.

(** Lines 89-121, run on the canvas [c] of line 87. *)
Definition draw_symbol (qr_data : str) (qr_size x_pos y_pos : num)
  : M (Canvas num Shape) unit :=
  qr <- or_raise SegnoError (segno_make qr_data) ;;
  match svg2rlg qr with
  | Some drawing =>
    let natural_width := width drawing in
    let natural_height := height drawing in
    by_width <- of_result (py_div qr_size natural_width) ;;
    by_height <- of_result (py_div qr_size natural_height) ;;
    let scale_factor := py_min by_width by_height in
    let rendered_width := (natural_width * scale_factor)%num in
    let rendered_height := (natural_height * scale_factor)%num in
    let offset_x := ((qr_size - rendered_width) / n_two)%num in
    let offset_y := ((qr_size - rendered_height) / n_two)%num in
    let drawing := set_width drawing rendered_width in
    let drawing := set_height drawing rendered_height in
    let drawing := scale drawing scale_factor scale_factor in
    renderPDF_draw drawing (x_pos + offset_x)%num (y_pos + offset_y)%num
  | None => ret tt
  end.

(** [build_overlay_vector]: a fresh canvas of the page's size, the
    symbol drawn on it, and the buffer the canvas is saved to, kept as
    the pages of the document in it. *)
Definition build_overlay_vector (page_width page_height : num)
           (qr_data : str) (qr_size x_pos y_pos : num)
  : result (list (Canvas num Shape)) :=
  let c := {| pagesize := (page_width, page_height); drawn := [] |} in
  match draw_symbol qr_data qr_size x_pos y_pos c with
  | (c', Ok _) => Ok (save c')
  | (_, Raise e) => Raise e
  end.

End Compositor.

(** ** Document merger: [place_qrs_on_pdf_stream] *)

(** A page: its media box, the content it came with, and the overlay
    pages merged onto it, oldest first. *)
Record Page (num Shape Body : Type) : Type := {
  mediabox : num * num;
  body : Body;
  overlays : list (Canvas num Shape)
}.

(** The two PyPDF2 objects of a run: the pages held by the reader, which
    [merge_page] changes in place, and the pages added to the writer. *)
Record Pdf (num Shape Body : Type) : Type := {
  reader_pages : list (Page num Shape Body);
  writer_pages : list (Page num Shape Body)
}.

Definition rows_pages_mismatch : exn :=
  ValueError (Msg "CSV rows and PDF pages count must match.").

Fixpoint set_nth {X : Type} (i : nat) (x : X) (l : list X) : list X :=
  match l, i with
  | [], _ => []
  | _ :: l', O => x :: l'
  | y :: l', S i' => y :: set_nth i' x l'
  end.

Section Merger.

Context {num : Type} {A : Arith num}.

Variable QRCode : Type.
Variable Shape : Type.
Variable Body : Type.
Variable Stream : Type.

Variable segno_make : str -> option QRCode.
Variable svg2rlg : QRCode -> option (Drawing num Shape).
Variable renderPDF_raises : Drawing num Shape -> num -> num -> option exn.

(** [PyPDF2.PdfReader(pdf_stream).pages]; [None] when the stream is
    not a readable document. *)
Variable PdfReader : Stream -> option (list (Page num Shape Body)).

Local Notation "'page'" := (Page num Shape Body).
Local Notation "'pdf'" := (Pdf num Shape Body).

Definition no_pdf : pdf := {| reader_pages := []; writer_pages := [] |}.

(** [page.merge_page(overlay_page)]: the overlay goes on top. *)
Definition merge_page (p : page) (overlay_page : Canvas num Shape) : page :=
  {| mediabox := mediabox p; body := body p;
     overlays := overlays p ++ [overlay_page] |}.

(** The in-place effect of [merge_page] on page [i] of the reader. *)
Definition store_page (i : nat) (p : page) : M pdf unit :=
  fun st =>
    ({| reader_pages := set_nth i p (reader_pages st);
        writer_pages := writer_pages st |}, Ok tt).

(** [writer.add_page(page)] *)
Definition add_page (p : page) : M pdf unit :=
  fun st =>
    ({| reader_pages := reader_pages st;
        writer_pages := writer_pages st ++ [p] |}, Ok tt).

(** [row_data and row_data.strip()] as a condition. *)
Definition has_payload (row_data : str) : bool :=
  truthy row_data && truthy (strip row_data).

(** The loop of lines 135-149 over [zip(csv_rows, reader.pages)]; [i]
    is the position of [page] in the reader. *)
Fixpoint merge_loop (qr_size_pts x_pos y_pos : num)
         (todo : list (str * page)) (i : nat) : M pdf unit :=
  match todo with
  | [] => ret tt
  | (row_data, p) :: rest =>
    p' <- (if has_payload row_data then
             let media_box := mediabox p in
             let width := fst media_box in
             let height := snd media_box in
             overlay_stream <-
               of_result (build_overlay_vector segno_make svg2rlg
                   renderPDF_raises
                            width height row_data
                            qr_size_pts x_pos y_pos) ;;
             let overlay_pdf := overlay_stream in
             overlay_page <- or_raise IndexError (nth_error overlay_pdf 0) ;;
             let merged := merge_page p overlay_page in
             store_page i merged ;;; ret merged
           else ret p) ;;
    add_page p' ;;;
    merge_loop qr_size_pts x_pos y_pos rest (S i)
  end.

Definition place_qrs_on_pdf_stream (pdf_stream : Stream)
           (csv_rows : list str) (qr_size_pts x_pos y_pos : num)
  : M pdf (list page) :=
  pages <- or_raise PdfReadError (PdfReader pdf_stream) ;;
  put {| reader_pages := pages; writer_pages := [] |} ;;;
  if negb (length csv_rows =? length pages)%nat
  then raise rows_pages_mismatch
  else
    merge_loop qr_size_pts x_pos y_pos (combine csv_rows pages) 0 ;;;
    st <- get ;;
    ret (writer_pages st).

(** One call: the final PyPDF2 objects and what the call returns. *)
Definition merge (pdf_stream : Stream) (csv_rows : list str)
           (qr_size_pts x_pos y_pos : num) : pdf * result (list page) :=
  place_qrs_on_pdf_stream pdf_stream csv_rows qr_size_pts x_pos y_pos
                          no_pdf.

End Merger.

(** A symbol table cut down to the payloads of the worked examples, at
    level L: up to ten digits make a Micro QR symbol M2 of 13 modules a
    side; other payloads are taken in byte mode, where the symbols M3
    and M4 hold up to 9 and 15 bytes, the versions 1 to 3 up to 17, 32
    and 53 bytes and version 40 up to 2953 bytes, and nothing holds
    more. With it a converter that reads the side of the symbol off the
    SVG, a renderer that raises where reportlab's own code does, and
    already parsed documents; the worked examples of the compositor and
    of the merger run with them, on binary64 floats. *)
Module DemoPdf.

(** A symbol is kept as the number of modules along its side. *)
Definition QRCode : Type := float.
Definition Shape : Type := float.
Definition Body : Type := nat.

Definition all_digits (s : str) : bool :=
  forallb (fun c => (48 <=? c) && (c <=? 57))%N s.

Definition segno_make (qr_data : str) : option QRCode :=
  let n := length qr_data in
  if all_digits qr_data && (n <=? 10)%nat then Some 13%float
  else if (n <=? 9)%nat then Some 15%float
  else if (n <=? 15)%nat then Some 17%float
  else if (n <=? 17)%nat then Some 21%float
  else if (n <=? 32)%nat then Some 25%float
  else if (n <=? 53)%nat then Some 29%float
  else if (n <=? 2953)%nat then Some 177%float
  else None.

(** The SVG is written at one pixel a module and without border; the
    converter takes a pixel for three quarters of a point. *)
Definition svg2rlg (qr : QRCode) : option (Drawing float Shape) :=
  Some {| width := (qr * 0.75)%float; height := (qr * 0.75)%float;
          transform := []; contents := qr |}.

(** The renderer writes the scalings and the position as decimal
    numbers, which fails for a number that is not finite, and on leaving
    the drawing it inverts the scaling, which fails when the scaling has
    determinant zero. *)
Definition renderPDF_raises (d : Drawing float Shape) (x y : float)
  : option exn :=
  let numbers := x :: y :: flat_map (fun s => [fst s; snd s]) (transform d) in
  if existsb PrimFloat.is_nan numbers
  then Some (ValueError (Msg "cannot convert float NaN to integer"))
  else if existsb PrimFloat.is_infinity numbers
  then Some OverflowError
  else if existsb (fun s => PrimFloat.eqb (fst s * snd s) 0)%float
                  (transform d)
  then Some ZeroDivisionError
  else None.

(** A converter that never finds a drawing. *)
Definition svg2rlg_none (_ : QRCode) : option (Drawing float Shape) := None.

Definition PdfReader (s : list (Page float Shape Body))
  : option (list (Page float Shape Body)) := Some s.

(** A US-letter page holding the content [n]. *)
Definition letter (n : nat) : Page float Shape Body :=
  {| mediabox := (612%float, 792%float); body := n; overlays := [] |}.

Definition merge (pages : list (Page float Shape Body))
           (csv_rows : list str) (qr_size_pts x_pos y_pos : float) :=
  merge segno_make svg2rlg renderPDF_raises PdfReader pages csv_rows
        qr_size_pts x_pos y_pos.

(** Forty lower-case letters: a version 3 symbol, 29 modules a side. *)
Definition forty : str := repeat 97%N 40.

(** Three thousand lower-case letters: more than any symbol holds. *)
Definition too_long : str := repeat 97%N 3000.

End DemoPdf.

(** ** Notions the properties are stated with *)

(** The row alignment policy in the specification's words: a row of no
    cells, or one with no cell at the target index [k], gives the empty
    string; any other row gives its cell at [k], trimmed. *)
Definition aligned_value (k : nat) (row : list str) : str :=
  if ((length row =? 0) || (length row <=? k))%nat then []
  else strip (nth k row []).

(** The file after [read()] and after [seek(0)]. *)
Definition at_end (fs : FileStorage) : FileStorage :=
  {| content := content fs;
     pos := Nat.max (pos fs) (length (content fs)) |}.

Definition rewound (fs : FileStorage) : FileStorage :=
  {| content := content fs; pos := 0 |}.

(** The bytes a [read()] of [fs] returns. *)
Definition unread (fs : FileStorage) : bytes := skipn (pos fs) (content fs).

(** A symbol drawn on an overlay stays inside a box of side [box]. *)
Definition fits_box {Shape : Type} (box : float)
           (overlay : Canvas float Shape) : Prop :=
  Forall (fun pl =>
            PrimFloat.leb (width (what pl)) box = true /\
            PrimFloat.leb (height (what pl)) box = true)
         (drawn overlay).

(** The table of the specification's scenario: header [Name,Code] and
    the rows [A,123], [B,] and [C,456]. *)
Definition scenario_table : string :=
  "Name,Code
A,123
B,
C,456
".

(** The scale the builder fits a drawing into a box of side [qr_size]
    with, and the drawing as it is handed to [renderPDF.draw]. *)
Definition fit_scale {num Shape : Type} {A : Arith num}
           (qr_size : num) (d : Drawing num Shape) : num :=
  py_min (qr_size / width d)%num (qr_size / height d)%num.

Definition fitted {num Shape : Type} {A : Arith num}
           (qr_size : num) (d : Drawing num Shape) : Drawing num Shape :=
  {| width := (width d * fit_scale qr_size d)%num;
     height := (height d * fit_scale qr_size d)%num;
     transform := transform d
                  ++ [(fit_scale qr_size d, fit_scale qr_size d)];
     contents := contents d |}.

(** A drawing placed in the middle of the square box of side [qr_size]
    whose lower-left corner is [(x_pos, y_pos)]. *)
Definition centred {num Shape : Type} {A : Arith num}
           (qr_size x_pos y_pos : num) (d : Drawing num Shape)
  : Placed num Shape :=
  {| what := d;
     at_x := (x_pos + (qr_size - width d) / n_two)%num;
     at_y := (y_pos + (qr_size - height d) / n_two)%num |}.

(** ** Binary64 numbers as rationals *)

(** The mantissa of a normal number: 53 bits, the first of them set. *)
Definition normal (m : positive) : Prop := (2 ^ 52 <= Zpos m < 2 ^ 53)%Z.

(** The number [m * 2 ^ e]. *)
Definition finite_value (m : positive) (e : Z) : Q :=
  (inject_Z (Zpos m) * 2 ^ e)%Q.

(** [1 + 2 ^ -53]: rounding to nearest makes a positive normal number
    larger by this factor at most. *)
Definition rounding_factor : Q := (1 + (1 # 9007199254740992))%Q.

(** A float between [2 ^ -200] and [2 ^ 200]. *)
Definition in_range (x : float) : bool :=
  (0x1p-200 <=? x)%float && (x <=? 0x1p+200)%float.

(** The number a float stands for, when it is finite. *)
Definition float_value (x : float) : option Q :=
  match Prim2SF x with
  | S754_zero _ => Some 0%Q
  | S754_finite s m e =>
    Some (if s then - finite_value m e else finite_value m e)%Q
  | _ => None
  end.

(** Whether [renderPDF.draw] raises for a drawing and the position it
    is to be drawn at. *)
Definition placed_raises {num Shape : Type}
           (renderPDF_raises : Drawing num Shape -> num -> num -> option exn)
           (pl : Placed num Shape) : option exn :=
  renderPDF_raises (what pl) (at_x pl) (at_y pl).

(** What one round of the merger's loop makes of a row and its page. *)
Definition composite {num QRCode Shape Body : Type} {A : Arith num}
           (segno_make : str -> option QRCode)
           (svg2rlg : QRCode -> option (Drawing num Shape))
           (renderPDF_raises : Drawing num Shape -> num -> num -> option exn)
           (qr_size_pts x_pos y_pos : num)
           (rp : str * Page num Shape Body)
  : result (Page num Shape Body) :=
  let (row_data, p) := rp in
  if has_payload row_data then
    match build_overlay_vector segno_make svg2rlg renderPDF_raises
                               (fst (mediabox p)) (snd (mediabox p))
                               row_data qr_size_pts x_pos y_pos with
    | Ok (overlay_page :: _) => Ok (merge_page p overlay_page)
    | Ok [] => Raise IndexError
    | Raise e => Raise e
    end
  else Ok p.

(** The position of the first row whose round of the loop raises,
    counting from [i]. *)
Fixpoint first_failure {num QRCode Shape Body : Type} {A : Arith num}
         (segno_make : str -> option QRCode)
         (svg2rlg : QRCode -> option (Drawing num Shape))
         (renderPDF_raises : Drawing num Shape -> num -> num -> option exn)
         (qr_size_pts x_pos y_pos : num)
         (todo : list (str * Page num Shape Body)) (i : nat) : option nat :=
  match todo with
  | [] => None
  | rp :: rest =>
    match composite segno_make svg2rlg renderPDF_raises qr_size_pts x_pos y_pos
        rp with
    | Raise _ => Some i
    | Ok _ =>
      first_failure segno_make svg2rlg renderPDF_raises qr_size_pts x_pos y_pos
          rest (S i)
    end
  end.

(** A document of two letter pages. *)
Definition two_pages : list (Page float DemoPdf.Shape DemoPdf.Body) :=
  [DemoPdf.letter 0; DemoPdf.letter 1].

(** The failure policy as the specification words it, on [two_pages]:
    whenever some page's overlay fails to build, the merge fails with an
    error from which the index of the first such page can be read. *)
Definition failure_names_page (page_index : exn -> nat) : Prop :=
  forall (csv_rows : list str) (i : nat),
    length csv_rows = 2%nat ->
    first_failure DemoPdf.segno_make DemoPdf.svg2rlg DemoPdf.renderPDF_raises
                  80%float 36%float 36%float
                  (combine csv_rows two_pages) 0 = Some i ->
    exists e,
      snd (DemoPdf.merge two_pages csv_rows 80%float 36%float 36%float)
      = Raise e /\
      page_index e = i.

(** ** The HTTP endpoints *)

(** One part of [request.files]: its file name and its stream. *)
Record Upload : Type := { filename : str; stream : FileStorage }.

(** A request: its uploaded files and its form fields, by name. *)
Record Request : Type := {
  files : string -> option Upload;
  form : string -> option str
}.

(** [request.files.get(name)] where the code tests it: the part counts
    when it is there and, as werkzeug defines the truth value of a
    [FileStorage], its file name is not empty. *)
Definition get_file (request : Request) (name : string) : option Upload :=
  match files request name with
  | Some u => if truthy (filename u) then Some u else None
  | None => None
  end.

(** [request.form.get(name, "")] *)
Definition form_get (request : Request) (name : string) : str :=
  match form request name with
  | Some v => v
  | None => []
  end.

(** What an [except Exception as exc] clause catches: an exception of
    the core, or one raised by an imaging library. *)
Inductive caught : Type :=
| Raised (e : exn)
| ImageError.

(** The body of a response. [Str c] is [str(exc)] for the caught [c]. *)
Inductive Payload (Shape Body Image : Type) : Type :=
| Text (t : string)
| Str (c : caught)
| JsonPage (page_width page_height : float) (page_count : nat)
| JsonHeaders (headers : list str)
| PdfFile (pages : list (Page float Shape Body))
| PngFile (img : Image).

Arguments Text {Shape Body Image} t.
Arguments Str {Shape Body Image} c.
Arguments JsonPage {Shape Body Image} page_width page_height page_count.
Arguments JsonHeaders {Shape Body Image} headers.
Arguments PdfFile {Shape Body Image} pages.
Arguments PngFile {Shape Body Image} img.

Record Response (Shape Body Image : Type) : Type := {
  resp_payload : Payload Shape Body Image;
  resp_status : nat
}.

(** What a view function does with a request: it returns a response, or
    lets the [ValueError] of an [int(...)] on the given text escape. *)
Inductive Reply (Shape Body Image : Type) : Type :=
| Responds (r : Response Shape Body Image)
| Escapes (literal : str).

Arguments Responds {Shape Body Image} r.
Arguments Escapes {Shape Body Image} literal.

(** The outcome of [int(text)]. *)
Inductive parsed : Type :=
| Parsed (z : Z)
| Invalid (literal : str).

Section Endpoints.

Variables Shape Body Image QRCode : Type.

Variable sniff : str -> option N.
Variable csv_reader : str -> N -> option (list (list str)).

(** [next(csv.reader(io.StringIO(data), delimiter=d), None)]: [None]
    when reading the first record raises [csv.Error], [Some None] when
    there is no record. *)
Variable csv_first : str -> N -> option (option (list str)).

Variable segno_make : str -> option QRCode.
Variable svg2rlg : QRCode -> option (Drawing float Shape).
Variable renderPDF_raises : Drawing float Shape -> float -> float -> option exn.

(** [PyPDF2.PdfReader(pdf).pages] for an uploaded file. *)
Variable PdfReader : FileStorage -> option (list (Page float Shape Body)).

(** [float(text)] and [int(text)]; [None] is their [ValueError]. *)
Variable py_float : str -> option float.
Variable py_int : str -> option Z.

(** The [qrcode] calls of lines 68-76, up to the RGB image; [None] when
    one of them raises. *)
Variable qrcode_image : str -> option Image.

(** [img.resize((w, h), Image.Resampling.LANCZOS)]; [None] when it
    raises. *)
Variable resize : Image -> Z -> Z -> option Image.

(** [convert_from_bytes(pdf_bytes, first_page=n, last_page=n, dpi=150)];
    [None] when it raises. *)
Variable convert_from_bytes : bytes -> Z -> option (list Image).

Local Notation "'response'" := (Response Shape Body Image).

Definition respond (p : Payload Shape Body Image) (code : nat) : response :=
  {| resp_payload := p; resp_status := code |}.

(** [float(request.form.get(name, default))] *)
Definition float_field (request : Request) (name : string) (default : float)
  : option float :=
  match form request name with
  | Some v => py_float v
  | None => Some default
  end.

(** [int(request.form.get(name, default))] *)
Definition int_field (request : Request) (name : string) (default : Z)
  : parsed :=
  match form request name with
  | Some v => match py_int v with
              | Some z => Parsed z
              | None => Invalid v
              end
  | None => Parsed default
  end.

(** [make_qr(data, size_pts)] for an integer [size_pts], as its one
    caller passes. *)
Definition make_qr (data : str) (size_pts : Z) : option Image :=
  match qrcode_image data with
  | Some img => resize img size_pts size_pts
  | None => None
  end.

(** [POST /preview] *)
Definition preview_endpoint (request : Request) : response :=
  match get_file request "pdf" with
  | None => respond (Text "Missing PDF") 400
  | Some pdf =>
    match PdfReader (rewound (stream pdf)) with
    | None => respond (Str (Raised PdfReadError)) 400
    | Some pages =>
      let page_count := length pages in
      match nth_error pages 0 with
      | None => respond (Str (Raised IndexError)) 400
      | Some p =>
        respond (JsonPage (fst (mediabox p)) (snd (mediabox p)) page_count)
                200
      end
    end
  end.

(** [POST /preview_qr] *)
Definition preview_qr_endpoint (request : Request)
  : Reply Shape Body Image :=
  let csv_file := get_file request "csv" in
  let csv_column := strip (form_get request "csv_column") in
  match int_field request "page_num" 1 with
  | Invalid v => Escapes v
  | Parsed page_num =>
    match int_field request "qr_size" 80 with
    | Invalid v => Escapes v
    | Parsed qr_size =>
      match csv_file with
      | None => Responds (respond (Text "Missing CSV or column") 400)
      | Some csv_file =>
        if negb (truthy csv_column)
        then Responds (respond (Text "Missing CSV or column") 400)
        else
          match snd (read_csv_column_by_name sniff csv_reader csv_column
                                             (stream csv_file)) with
          | Raise e => Responds (respond (Str (Raised e)) 400)
          | Ok csv_rows =>
            if ((page_num <? 1) || (page_num >? Z.of_nat (length csv_rows)))%Z
            then Responds (respond (Text "Invalid page number") 400)
            else
              let qr_data := nth (Z.to_nat (page_num - 1)) csv_rows [] in
              if negb (truthy qr_data) || negb (truthy (strip qr_data))
              then Responds (respond (Text "") 204)
              else
                match make_qr qr_data (qr_size * 4) with
                | None => Responds (respond (Str ImageError) 400)
                | Some qr_img => Responds (respond (PngFile qr_img) 200)
                end
          end
      end
    end
  end.

(** [POST /pdf_page_image] *)
Definition pdf_page_image (request : Request) : Reply Shape Body Image :=
  let pdf := get_file request "pdf" in
  match int_field request "page_num" 1 with
  | Invalid v => Escapes v
  | Parsed page_num =>
    match pdf with
    | None => Responds (respond (Text "Missing PDF") 400)
    | Some pdf =>
      let pdf_bytes := content (stream pdf) in
      match convert_from_bytes pdf_bytes page_num with
      | None => Responds (respond (Str ImageError) 400)
      | Some [] => Responds (respond (Text "Failed to render page") 400)
      | Some (img :: _) => Responds (respond (PngFile img) 200)
      end
    end
  end.

(** [POST /generate] *)
Definition generate_endpoint (request : Request) : response :=
  match get_file request "pdf", get_file request "csv" with
  | Some pdf, Some csv_file =>
    let csv_column := strip (or_empty (form_get request "csv_column")) in
    if negb (truthy csv_column)
    then respond (Text "CSV column is required") 400
    else
      match float_field request "qr_size" 80%float,
            float_field request "x_pos" 36%float,
            float_field request "y_pos" 36%float with
      | Some qr_size, Some x_pos, Some y_pos =>
        match snd (read_csv_column_by_name sniff csv_reader csv_column
                                           (stream csv_file)) with
        | Raise e => respond (Str (Raised e)) 400
        | Ok csv_rows =>
          match snd (merge segno_make svg2rlg renderPDF_raises PdfReader
                           (rewound (stream pdf)) csv_rows
                           qr_size x_pos y_pos) with
          | Raise e => respond (Str (Raised e)) 400
          | Ok out_buf => respond (PdfFile out_buf) 200
          end
        end
      | _, _, _ => respond (Text "Invalid numeric inputs") 400
      end
  | _, _ => respond (Text "Missing files") 400
  end.

(** [POST /csv_headers] *)
Definition csv_headers (request : Request) : response :=
  match get_file request "csv" with
  | None => respond (Text "Missing CSV") 400
  | Some csv_file =>
    match Utf8.decode (unread (stream csv_file)) with
    | None => respond (Str (Raised UnicodeDecodeError)) 400
    | Some data =>
      let delimiter := detect_delimiter sniff data in
      match csv_first data delimiter with
      | None => respond (Str (Raised CsvError)) 400
      | Some header =>
        let headers :=
          match header with
          | Some (c :: cs) => map strip (c :: cs)
          | _ => []
          end in
        respond (JsonHeaders headers) 200
      end
    end
  end.

End Endpoints.

(** Stand-ins for the libraries of the endpoints, for the worked
    examples: a document format of one page per byte, a reader of
    decimal digits, an imaging library that knows images by their side
    in pixels. *)
Module DemoWeb.

Definition Image : Type := Z.

Definition PdfReader (fs : FileStorage)
  : option (list (Page float DemoPdf.Shape DemoPdf.Body)) :=
  match content fs with
  | [] => None
  | _ :: _ =>
    Some (map (fun b => DemoPdf.letter (N.to_nat (Byte.to_N b))) (content fs))
  end.

Definition csv_first (data : str) (d : N) : option (option (list str)) :=
  option_map (@hd_error (list str)) (Demo.csv_reader data d).

Fixpoint digits (s : str) (acc : Z) : option Z :=
  match s with
  | [] => Some acc
  | c :: r =>
    if ((48 <=? c) && (c <=? 57))%N
    then digits r (10 * acc + Z.of_N (c - 48))%Z
    else None
  end.

Definition py_int (s : str) : option Z :=
  match s with
  | [] => None
  | _ :: _ => digits s 0%Z
  end.

Definition py_float (_ : str) : option float := None.

Definition qrcode_image (data : str) : option Image :=
  if (length data <=? 2953)%nat then Some 21%Z else None.

Definition resize (_ : Image) (w h : Z) : option Image :=
  if ((0 <? w) && (0 <? h))%Z then Some w else None.

Definition convert_from_bytes (pdf_bytes : bytes) (n : Z)
  : option (list Image) :=
  if ((1 <=? n) && (n <=? Z.of_nat (length pdf_bytes)))%Z
  then Some [150%Z] else None.

Definition part (name text : string) : Upload :=
  {| filename := of_string name; stream := Demo.upload text |}.

Definition request (pdf csv : option Upload)
           (fields : list (string * str)) : Request :=
  {| files := fun name =>
                if String.eqb name "pdf" then pdf
                else if String.eqb name "csv" then csv
                     else None;
     form := fun name =>
               option_map snd
                          (find (fun kv => String.eqb (fst kv) name) fields)
  |}.

(** A request to generate: three pages and the scenario table. *)
Definition scenario_request : Request :=
  request (Some (part "doc.pdf" "abc"))
          (Some (part "codes.csv" scenario_table))
          [("csv_column"%string, of_string "Code")].

Definition generate : Request -> Response DemoPdf.Shape DemoPdf.Body Image :=
  generate_endpoint Image Demo.sniff Demo.csv_reader
                    DemoPdf.segno_make DemoPdf.svg2rlg DemoPdf.renderPDF_raises
                        PdfReader py_float.

Definition preview : Request -> Response DemoPdf.Shape DemoPdf.Body Image :=
  preview_endpoint Image PdfReader.

Definition preview_qr : Request -> Reply DemoPdf.Shape DemoPdf.Body Image :=
  preview_qr_endpoint DemoPdf.Shape DemoPdf.Body Demo.sniff Demo.csv_reader
                      py_int qrcode_image resize.

Definition page_image : Request -> Reply DemoPdf.Shape DemoPdf.Body Image :=
  pdf_page_image DemoPdf.Shape DemoPdf.Body py_int convert_from_bytes.

Definition headers : Request -> Response DemoPdf.Shape DemoPdf.Body Image :=
  csv_headers DemoPdf.Shape DemoPdf.Body Image Demo.sniff csv_first.

End DemoWeb.

(** ** Python strings: facts *)

Unset Implicit Arguments.

Lemma eqb_eq (a b : str) : PyStr.eqb a b = true <-> a = b.
Proof.
  revert b; induction a as [|x a IH]; intros [|y b]; simpl;
    try (split; [discriminate | congruence]); try tauto.
  rewrite andb_true_iff, N.eqb_eq, IH.
  split; [intros [-> ->]; reflexivity | intros E; inversion E; auto].
Qed.

Lemma contains_In (x : str) (l : list str) :
  contains x l = true <-> In x l.
Proof.
  unfold contains. rewrite existsb_exists. split.
  - intros (y & Hy & E). apply eqb_eq in E. subst; assumption.
  - intros H. exists x. split; [assumption | apply eqb_eq; reflexivity].
Qed.

Lemma contains_false (x : str) (l : list str) :
  contains x l = false <-> ~ In x l.
Proof.
  rewrite <- contains_In. destruct (contains x l); split; congruence.
Qed.

Lemma index_contains (x : str) (l : list str) :
  contains x l = true -> exists k, index x l = Some k.
Proof.
  induction l as [|y l IH]; simpl; [discriminate|].
  destruct (PyStr.eqb x y); simpl; intros H.
  - exists 0%nat; reflexivity.
  - destruct (IH H) as [k ->]. exists (S k); reflexivity.
Qed.

Lemma index_first (x : str) (l : list str) (k : nat) :
  index x l = Some k ->
  nth_error l k = Some x /\
  forall j, (j < k)%nat -> nth_error l j <> Some x.
Proof.
  revert k; induction l as [|y l IH]; simpl; intros k; [discriminate|].
  destruct (PyStr.eqb x y) eqn:E.
  - intros [= <-]. apply eqb_eq in E; subst. split; [reflexivity|].
    intros j Hj; lia.
  - destruct (index x l) as [k'|]; simpl; [|discriminate].
    intros [= <-]. destruct (IH k' eq_refl) as [Hk Hmin]. split; [assumption|].
    intros [|j] Hj; simpl.
    + intros [= ->]. assert (PyStr.eqb x x = true) by (apply eqb_eq; reflexivity).
      congruence.
    + apply Hmin; lia.
Qed.

Lemma or_empty_id (s : str) : or_empty s = s.
Proof. destruct s; reflexivity. Qed.

Lemma strip_nil : strip [] = [].
Proof. reflexivity. Qed.

(** ** Binary64: rounding to nearest, from the specification of the
    primitive floats *)

Module Binary64Facts.

Local Open Scope Z_scope.

Lemma digits2_bounds (p : positive) :
  2 ^ (Zpos (digits2_pos p) - 1) <= Zpos p < 2 ^ Zpos (digits2_pos p).
Proof.
  induction p as [p IH|p IH|]; cbn [digits2_pos].
  - rewrite Pos2Z.inj_succ.
    replace (Z.succ (Zpos (digits2_pos p)) - 1)
      with (Z.succ (Zpos (digits2_pos p) - 1)) by lia.
    rewrite !Z.pow_succ_r by lia. lia.
  - rewrite Pos2Z.inj_succ.
    replace (Z.succ (Zpos (digits2_pos p)) - 1)
      with (Z.succ (Zpos (digits2_pos p) - 1)) by lia.
    rewrite !Z.pow_succ_r by lia. lia.
  - cbn. lia.
Qed.

Lemma digits2_between (p : positive) (lo hi : Z) :
  0 <= lo -> 2 ^ lo <= Zpos p < 2 ^ hi ->
  lo < Zpos (digits2_pos p) <= hi.
Proof.
  intros Hlo [L H]. destruct (digits2_bounds p) as [L' H']. split.
  - apply (Z.pow_lt_mono_r_iff 2); lia.
  - assert (Zpos (digits2_pos p) - 1 < hi); [|lia].
    apply (Z.pow_lt_mono_r_iff 2); try lia.
    destruct (Z_lt_le_dec hi 0) as [N|N]; [|lia].
    rewrite (Z.pow_neg_r 2 hi) in H by lia. lia.
Qed.

Lemma iter_pos_nat {X : Type} (f : X -> X) (p : positive) (x : X) :
  iter_pos f p x = Nat.iter (Pos.to_nat p) f x.
Proof.
  revert x. induction p as [p IH|p IH|]; intros x; cbn [iter_pos].
  - rewrite !IH, Pos2Nat.inj_xI.
    replace (S (2 * Pos.to_nat p))
      with (Pos.to_nat p + S (Pos.to_nat p))%nat by lia.
    rewrite Nat.iter_add, <- Nat.iter_succ_r. reflexivity.
  - rewrite !IH, Pos2Nat.inj_xO.
    replace (2 * Pos.to_nat p)%nat
      with (Pos.to_nat p + Pos.to_nat p)%nat by lia.
    rewrite Nat.iter_add. reflexivity.
  - reflexivity.
Qed.

Lemma shr_1_spec (mrs : shr_record) :
  0 <= shr_m mrs ->
  shr_m (shr_1 mrs) = shr_m mrs / 2 /\
  shr_r (shr_1 mrs) = Z.odd (shr_m mrs).
Proof.
  destruct mrs as [m r s]. cbn [shr_m]. intros Hm.
  destruct m as [|[p|p|]|p]; cbn [shr_1 shr_m shr_r]; try lia.
  - split; reflexivity.
  - split; [|reflexivity]. rewrite Pos2Z.inj_xI.
    apply (Z.div_unique _ 2 _ 1); lia.
  - split; [|reflexivity]. rewrite Pos2Z.inj_xO.
    apply (Z.div_unique _ 2 _ 0); lia.
  - split; reflexivity.
Qed.

Lemma shr_iter (n : nat) (mrs : shr_record) :
  0 <= shr_m mrs ->
  shr_m (Nat.iter n shr_1 mrs) = shr_m mrs / 2 ^ Z.of_nat n /\
  shr_r (Nat.iter (S n) shr_1 mrs) = Z.odd (shr_m mrs / 2 ^ Z.of_nat n).
Proof.
  intros Hm.
  assert (shr_m (Nat.iter n shr_1 mrs) = shr_m mrs / 2 ^ Z.of_nat n) as E.
  { induction n as [|n IH].
    - change (Nat.iter 0 shr_1 mrs) with mrs.
      rewrite Z.pow_0_r, Z.div_1_r. reflexivity.
    - rewrite Nat.iter_succ.
      assert (0 <= shr_m (Nat.iter n shr_1 mrs)) as P
          by (rewrite IH; apply Z.div_pos; lia).
      destruct (shr_1_spec _ P) as [-> _]. rewrite IH.
      rewrite Nat2Z.inj_succ, Z.pow_succ_r by lia.
      rewrite Z.div_div by lia. f_equal. lia. }
  split; [exact E|]. rewrite Nat.iter_succ.
  assert (0 <= shr_m (Nat.iter n shr_1 mrs)) as P
      by (rewrite E; apply Z.div_pos; lia).
  destruct (shr_1_spec _ P) as [_ ->]. rewrite E. reflexivity.
Qed.


Lemma rne_cases (mrs : shr_record) :
  round_nearest_even (shr_m mrs) (loc_of_shr_record mrs) = shr_m mrs \/
  (round_nearest_even (shr_m mrs) (loc_of_shr_record mrs) = shr_m mrs + 1 /\
   shr_r mrs = true).
Proof.
  destruct mrs as [m [|] [|]]; cbn; try destruct (Z.even m); auto.
Qed.

Lemma record_of_loc (m : Z) (l : location) :
  shr_m (shr_record_of_loc m l) = m /\
  (shr_r (shr_record_of_loc m l) = true ->
   l = loc_Inexact Eq \/ l = loc_Inexact Gt).
Proof. destruct l as [|[| |]]; cbn; split; auto; discriminate. Qed.

Lemma odd_half (mx n : Z) :
  0 <= mx -> 1 <= n -> Z.odd (mx / 2 ^ (n - 1)) = true ->
  (mx / 2 ^ n + 1) * 2 ^ n <= mx + 2 ^ (n - 1).
Proof.
  intros Hmx Hn Hodd.
  assert (0 < 2 ^ (n - 1)) as HP by (apply Z.pow_pos_nonneg; lia).
  replace n with (Z.succ (n - 1)) at 1 2 by lia.
  rewrite Z.pow_succ_r by lia.
  set (P := 2 ^ (n - 1)) in *.
  apply Z.odd_spec in Hodd. destruct Hodd as [c Hc].
  pose proof (Z.div_mod mx P ltac:(lia)) as E.
  pose proof (Z.mod_pos_bound mx P HP) as B.
  rewrite Hc in E.
  assert (mx / (2 * P) = c) as ->.
  { symmetry. apply (Z.div_unique _ (2 * P) _ (P + mx mod P)); [lia|nia]. }
  nia.
Qed.

Lemma step1 (mx : positive) (ex : Z) (lx : location) (D R : Z)
      (mrs' : shr_record) (e' : Z) :
  53 <= Zpos (digits2_pos mx) ->
  -1021 <= Zpos (digits2_pos mx) + ex ->
  0 < D -> 0 <= R ->
  (lx = loc_Inexact Eq \/ lx = loc_Inexact Gt -> D <= 2 * R) ->
  shr_fexp prec emax (Zpos mx) ex lx = (mrs', e') ->
  e' = Zpos (digits2_pos mx) + ex - 53 /\
  2 ^ 52 <= round_nearest_even (shr_m mrs') (loc_of_shr_record mrs')
         <= 2 ^ 53 /\
  round_nearest_even (shr_m mrs') (loc_of_shr_record mrs')
  * 2 ^ (Zpos (digits2_pos mx) - 53) * 2 ^ 53 * D
  <= (Zpos mx * D + R) * (2 ^ 53 + 1).
Proof.
  intros Hd Hlow HD HR Hloc.
  destruct (digits2_bounds mx) as [Blo Bhi].
  set (d := Zpos (digits2_pos mx)) in *.
  unfold shr_fexp, fexp, emin, prec, emax. cbn [Zdigits2]. fold d.
  rewrite Z.max_l by lia.
  replace (d + ex - 53 - ex) with (d - 53) by lia.
  assert (2 ^ (d - 1) = 2 ^ 52 * 2 ^ (d - 53)) as E1
      by (rewrite <- Z.pow_add_r by lia; f_equal; lia).
  assert (2 ^ d = 2 ^ 53 * 2 ^ (d - 53)) as E2
      by (rewrite <- Z.pow_add_r by lia; f_equal; lia).
  assert (0 < 2 ^ (d - 53)) as HS by (apply Z.pow_pos_nonneg; lia).
  destruct (record_of_loc (Zpos mx) lx) as [Rm Rr].
  destruct (d - 53) as [|p|p] eqn:N; [| |lia].
  - (* no shift *)
    cbn [shr]. intros [= <- <-]. split; [lia|].
    rewrite Z.pow_0_r in *.
    destruct (rne_cases (shr_record_of_loc (Zpos mx) lx)) as [->|[-> Up]];
      rewrite Rm.
    + split; [lia|]. nia.
    + specialize (Hloc (Rr Up)). split; [lia|]. nia.
  - (* a shift by [p] bits *)
    cbn [shr]. intros [= <- <-]. split; [lia|].
    rewrite iter_pos_nat.
    assert (0 <= shr_m (shr_record_of_loc (Zpos mx) lx)) as P0
        by (rewrite Rm; lia).
    destruct (shr_iter (Pos.to_nat p) _ P0) as [Sm _].
    rewrite Rm, positive_nat_Z in Sm.
    assert (2 ^ 52 <= Zpos mx / 2 ^ Zpos p) as Qlo
        by (apply Z.div_le_lower_bound; lia).
    assert (Zpos mx / 2 ^ Zpos p < 2 ^ 53) as Qhi
        by (apply Z.div_lt_upper_bound; lia).
    destruct (rne_cases (Nat.iter (Pos.to_nat p) shr_1
                                  (shr_record_of_loc (Zpos mx) lx)))
      as [->|[-> Up]]; rewrite Sm.
    + split; [lia|].
      pose proof (Z.mul_div_le (Zpos mx) (2 ^ Zpos p) ltac:(lia)) as M.
      nia.
    + split; [lia|].
      destruct (Pos.to_nat p) as [|k] eqn:K; [lia|].
      destruct (shr_iter k _ P0) as [_ Sr]. rewrite Up, Rm in Sr.
      assert (Z.of_nat k = Zpos p - 1) as Kz by lia. rewrite Kz in Sr.
      pose proof (odd_half (Zpos mx) (Zpos p) ltac:(lia) ltac:(lia)
                           (eq_sym Sr)) as O.
      assert (2 ^ (Zpos p - 1) * 2 ^ 53 <= Zpos mx) as T.
      { rewrite <- Z.pow_add_r by lia.
        replace (Zpos p - 1 + 53) with (d - 1) by lia. exact Blo. }
      nia.
Qed.


(** Rounding a positive number to nearest in the normal range: the
    result is a normal number, at most half a unit in the last place
    above the number rounded. The number is [(mx + R / D) * 2 ^ ex]. *)
Lemma binary_round_aux_normal (mx : positive) (ex : Z) (lx : location)
      (D R : Z) :
  53 <= Zpos (digits2_pos mx) ->
  -1021 <= Zpos (digits2_pos mx) + ex <= 1023 ->
  0 < D -> 0 <= R ->
  (lx = loc_Inexact Eq \/ lx = loc_Inexact Gt -> D <= 2 * R) ->
  exists (m : positive) (e : Z),
    binary_round_aux prec emax false (Zpos mx) ex lx = S754_finite false m e /\
    2 ^ 52 <= Zpos m < 2 ^ 53 /\
    Zpos (digits2_pos mx) + ex - 53 <= e <= Zpos (digits2_pos mx) + ex - 52 /\
    Zpos m * 2 ^ (e - ex) * 2 ^ 53 * D <= (Zpos mx * D + R) * (2 ^ 53 + 1).
Proof.
  intros Hd [Hlow Hhigh] HD HR Hloc. unfold binary_round_aux.
  destruct (shr_fexp prec emax (Zpos mx) ex lx) as [mrs' e'] eqn:S1.
  destruct (step1 mx ex lx D R mrs' e' Hd Hlow HD HR Hloc S1)
    as (-> & [Blo Bhi] & V).
  set (d := Zpos (digits2_pos mx)) in *.
  destruct (round_nearest_even (shr_m mrs') (loc_of_shr_record mrs'))
    as [|pm|pm]; [lia| |lia].
  unfold shr_fexp, fexp, emin, prec, emax. cbn [Zdigits2].
  destruct (Z_lt_le_dec (Zpos pm) (2 ^ 53)) as [Lt|Ge].
  - assert (Zpos (digits2_pos pm) = 53) as ->
        by (pose proof (digits2_between pm 52 53 ltac:(lia) ltac:(lia)); lia).
    replace (Z.max (53 + (d + ex - 53) - 53) (3 - 1024 - 53) - (d + ex - 53))
      with 0 by lia.
    cbn [shr shr_record_of_loc shr_m].
    replace (d + ex - 53 <=? 1024 - 53) with true
      by (symmetry; apply Z.leb_le; lia).
    exists pm, (d + ex - 53). split; [reflexivity|].
    split; [lia|]. split; [lia|].
    replace (d + ex - 53 - ex) with (d - 53) by lia. exact V.
  - assert (pm = 9007199254740992%positive) as -> by lia.
    change (Zpos (digits2_pos 9007199254740992)) with 54.
    replace (Z.max (54 + (d + ex - 53) - 53) (3 - 1024 - 53) - (d + ex - 53))
      with 1 by lia.
    cbn [shr iter_pos shr_record_of_loc shr_1 shr_m].
    replace (d + ex - 53 + 1 <=? 1024 - 53) with true
      by (symmetry; apply Z.leb_le; lia).
    exists 4503599627370496%positive, (d + ex - 53 + 1).
    split; [reflexivity|]. split; [lia|]. split; [lia|].
    replace (d + ex - 53 + 1 - ex) with (Z.succ (d - 53)) by lia.
    rewrite Z.pow_succ_r by lia.
    replace (Zpos 4503599627370496 * (2 * 2 ^ (d - 53)))
      with (Zpos 9007199254740992 * 2 ^ (d - 53)) by lia.
    exact V.
Qed.


Lemma normal_digits (m : positive) : normal m -> Zpos (digits2_pos m) = 53.
Proof.
  intros H.
  pose proof (digits2_between m 52 53 ltac:(lia) H). lia.
Qed.

Lemma SFmul_normal (mx my : positive) (ex ey : Z) :
  normal mx -> normal my -> -1126 <= ex + ey <= 917 ->
  exists (m : positive) (e : Z),
    SFmul prec emax (S754_finite false mx ex) (S754_finite false my ey)
    = S754_finite false m e /\
    normal m /\
    ex + ey + 52 <= e <= ex + ey + 54 /\
    Zpos m * 2 ^ (e - (ex + ey)) * 2 ^ 53
    <= Zpos mx * Zpos my * (2 ^ 53 + 1).
Proof.
  intros Hx Hy He. cbn [SFmul xorb]. unfold normal in Hx, Hy.
  assert (2 ^ 104 <= Zpos (mx * my) < 2 ^ 106) as B.
  { rewrite Pos2Z.inj_mul.
    change (2 ^ 104) with (2 ^ 52 * 2 ^ 52).
    change (2 ^ 106) with (2 ^ 53 * 2 ^ 53). split.
    - apply Z.mul_le_mono_nonneg; lia.
    - apply Z.mul_lt_mono_nonneg; lia. }
  pose proof (digits2_between (mx * my) 104 106 ltac:(lia) B) as Dg.
  destruct (binary_round_aux_normal (mx * my) (ex + ey) loc_Exact 1 0)
    as (m & e & E & N & R & V); try lia.
  { intros [H|H]; discriminate H. }
  exists m, e. split; [exact E|]. split; [exact N|]. split; [lia|].
  rewrite Pos2Z.inj_mul in V. lia.
Qed.

Lemma new_location_up (n k : Z) :
  0 < n -> 0 <= k ->
  new_location n k = loc_Inexact Eq \/ new_location n k = loc_Inexact Gt ->
  n <= 2 * k.
Proof.
  intros Hn Hk. unfold new_location, new_location_even, new_location_odd.
  destruct (Z.even n); destruct (k =? 0).
  - intros [H|H]; discriminate H.
  - destruct (Z.compare_spec (2 * k) n) as [C|C|C]; intros [H|H];
      try discriminate H; lia.
  - intros [H|H]; discriminate H.
  - destruct (Z.compare_spec (2 * k + 1) n) as [C|C|C]; intros [H|H];
      try discriminate H; lia.
Qed.

Lemma SFdiv_normal (mx my : positive) (ex ey : Z) :
  normal mx -> normal my -> -1021 <= ex - ey <= 1021 ->
  exists (m : positive) (e : Z),
    SFdiv prec emax (S754_finite false mx ex) (S754_finite false my ey)
    = S754_finite false m e /\
    normal m /\
    ex - ey - 53 <= e <= ex - ey - 51 /\
    Zpos m * 2 ^ (e - (ex - ey - 53)) * Zpos my
    <= Zpos mx * (2 ^ 53 + 1).
Proof.
  intros Hx Hy He. cbn [SFdiv xorb]. unfold SFdiv_core_binary.
  cbn [Zdigits2]. rewrite (normal_digits mx Hx), (normal_digits my Hy).
  unfold fexp, emin, prec, emax.
  replace (Z.min (Z.max (53 + ex - (53 + ey) - 53) (3 - 1024 - 53)) (ex - ey))
    with (ex - ey - 53) by lia.
  replace (ex - ey - (ex - ey - 53)) with 53 by lia.
  rewrite Z.shiftl_mul_pow2 by lia.
  pose proof (Z_div_mod (Zpos mx * 2 ^ 53) (Zpos my) ltac:(lia)) as DM.
  destruct (Z.div_eucl (Zpos mx * 2 ^ 53) (Zpos my)) as [q r].
  destruct DM as [DM Rb]. unfold normal in Hx, Hy.
  assert (2 ^ 52 <= q < 2 ^ 54) as Qb by nia.
  destruct q as [|pq|pq]; [lia| |lia].
  pose proof (digits2_between pq 52 54 ltac:(lia) Qb) as Dg.
  destruct (binary_round_aux_normal pq (ex - ey - 53)
                                    (new_location (Zpos my) r) (Zpos my) r)
    as (m & e & E & N & R & V); try lia.
  { apply new_location_up; lia. }
  exists m, e. split; [exact E|]. split; [exact N|]. split; [lia|].
  replace (Zpos pq * Zpos my + r) with (Zpos mx * 2 ^ 53) in V by lia.
  assert (0 <= Zpos m * 2 ^ (e - (ex - ey - 53)))
    by (apply Z.mul_nonneg_nonneg; [lia | apply Z.pow_nonneg; lia]).
  nia.
Qed.


Lemma pow2_pos (e : Z) : (0 < 2 ^ e)%Q.
Proof. apply Qpower_0_lt. reflexivity. Qed.

Lemma pow2_add (a b : Z) : (2 ^ (a + b) == 2 ^ a * 2 ^ b)%Q.
Proof. apply Qpower_plus. discriminate. Qed.

Lemma pow2_Z (k : Z) : 0 <= k -> (inject_Z (2 ^ k) == 2 ^ k)%Q.
Proof. intros H. apply (Zpower_Qpower 2 k H). Qed.

Lemma value_pos (m : positive) (e : Z) : (0 < finite_value m e)%Q.
Proof.
  unfold finite_value. apply Qmult_lt_0_compat; [|apply pow2_pos].
  change 0%Q with (inject_Z 0). rewrite <- Zlt_Qlt. reflexivity.
Qed.

(** An inequality of integers, scaled by a power of two. *)
Lemma scaled_le (A B k b : Z) :
  0 <= k -> A * 2 ^ k <= B ->
  (inject_Z A * 2 ^ (k + b) <= inject_Z B * 2 ^ b)%Q.
Proof.
  intros Hk H. rewrite pow2_add, <- (pow2_Z k Hk).
  rewrite Qmult_assoc, <- inject_Z_mult.
  apply Qmult_le_compat_r; [|apply Qlt_le_weak, pow2_pos].
  rewrite <- Zle_Qle. exact H.
Qed.

Lemma scaled_ge (A B k b : Z) :
  0 <= k -> B <= A * 2 ^ k ->
  (inject_Z B * 2 ^ b <= inject_Z A * 2 ^ (k + b))%Q.
Proof.
  intros Hk H. rewrite pow2_add, <- (pow2_Z k Hk).
  rewrite Qmult_assoc, <- inject_Z_mult.
  apply Qmult_le_compat_r; [|apply Qlt_le_weak, pow2_pos].
  rewrite <- Zle_Qle. exact H.
Qed.

Lemma value_mul (mx my m : positive) (ex ey e : Z) :
  ex + ey <= e ->
  Zpos m * 2 ^ (e - (ex + ey)) * 2 ^ 53
  <= Zpos mx * Zpos my * (2 ^ 53 + 1) ->
  (finite_value m e <= finite_value mx ex * finite_value my ey *
      rounding_factor)%Q.
Proof.
  intros He H.
  assert (Zpos m * 2 ^ 53 * 2 ^ (e - (ex + ey))
          <= Zpos mx * Zpos my * (2 ^ 53 + 1)) as H' by lia.
  apply (scaled_le _ _ _ (ex + ey)) in H'; [|lia].
  replace (e - (ex + ey) + (ex + ey)) with e in H' by lia.
  rewrite !inject_Z_mult in H'. rewrite (pow2_add ex ey) in H'.
  unfold finite_value, rounding_factor.
  change (inject_Z (2 ^ 53)) with (9007199254740992 # 1)%Q in H'.
  change (inject_Z (2 ^ 53 + 1)) with (9007199254740993 # 1)%Q in H'.
  set (vm := (inject_Z (Z.pos m) * 2 ^ e)%Q).
  set (px := inject_Z (Zpos mx)) in *. set (py := inject_Z (Zpos my)) in *.
  set (qx := (2 ^ ex)%Q) in *. set (qy := (2 ^ ey)%Q) in *.
  assert (vm * (9007199254740992 # 1)
          <= px * qx * (py * qy) * (9007199254740993 # 1))%Q as K.
  { unfold vm. set (qe := (2 ^ e)%Q) in *.
    setoid_replace (inject_Z (Z.pos m) * qe * (9007199254740992 # 1))%Q
      with (inject_Z (Z.pos m) * (9007199254740992 # 1) * qe)%Q by ring.
    setoid_replace (px * qx * (py * qy) * (9007199254740993 # 1))%Q
      with (px * py * (9007199254740993 # 1) * (qx * qy))%Q by ring.
    exact H'. }
  clearbody vm.
  set (P := (px * qx * (py * qy))%Q) in *. clearbody P.
  lra.
Qed.


Lemma value_div (mx my m : positive) (ex ey e : Z) :
  ex - ey - 53 <= e ->
  Zpos m * 2 ^ (e - (ex - ey - 53)) * Zpos my <= Zpos mx * (2 ^ 53 + 1) ->
  (finite_value m e * finite_value my ey <= finite_value mx ex *
      rounding_factor)%Q.
Proof.
  intros He H.
  assert (Zpos m * Zpos my * 2 ^ (e - (ex - ey - 53))
          <= Zpos mx * (2 ^ 53 + 1)) as H' by lia.
  apply (scaled_le _ _ _ (ex + -53)) in H'; [|lia].
  replace (e - (ex - ey - 53) + (ex + -53)) with (e + ey) in H' by lia.
  rewrite !inject_Z_mult, !pow2_add in H'.
  unfold finite_value, rounding_factor.
  change (inject_Z (2 ^ 53 + 1)) with (9007199254740993 # 1)%Q in H'.
  change (2 ^ (-53))%Q with (1 # 9007199254740992)%Q in H'.
  set (pm := inject_Z (Zpos m)) in *. set (px := inject_Z (Zpos mx)) in *.
  set (py := inject_Z (Zpos my)) in *.
  set (qe := (2 ^ e)%Q) in *. set (qx := (2 ^ ex)%Q) in *.
  set (qy := (2 ^ ey)%Q) in *.
  setoid_replace (pm * qe * (py * qy))%Q with (pm * py * (qe * qy))%Q by ring.
  set (L := (pm * py * (qe * qy))%Q) in *. clearbody L.
  set (P := (px * qx)%Q).
  setoid_replace (px * (9007199254740993 # 1)
                  * (qx * (1 # 9007199254740992)))%Q
    with (P * (9007199254740993 # 9007199254740992))%Q in H'
    by (unfold P; ring).
  clearbody P. lra.
Qed.

(** Normal numbers are ordered by exponent first. *)
Lemma value_lt_exp (ma mb : positive) (ea eb : Z) :
  normal ma -> normal mb -> ea < eb -> (finite_value ma ea < finite_value mb
      eb)%Q.
Proof.
  intros Ha Hb He. unfold normal in Ha, Hb.
  assert (Zpos ma + 1 <= Zpos mb * 2 ^ (eb - ea)) as H.
  { assert (2 <= 2 ^ (eb - ea)).
    { change 2 with (2 ^ 1) at 1. apply Z.pow_le_mono_r; lia. }
    nia. }
  apply (scaled_ge _ _ _ ea) in H; [|lia].
  replace (eb - ea + ea) with eb in H by lia.
  apply Qlt_le_trans with (inject_Z (Zpos ma + 1) * 2 ^ ea)%Q; [|exact H].
  unfold finite_value. apply Qmult_lt_compat_r; [apply pow2_pos|].
  rewrite <- Zlt_Qlt. lia.
Qed.

Lemma value_le_mantissa (ma mb : positive) (e : Z) :
  (Zpos ma <= Zpos mb)%Z -> (finite_value ma e <= finite_value mb e)%Q.
Proof.
  intros H. unfold finite_value.
  apply Qmult_le_compat_r; [|apply Qlt_le_weak, pow2_pos].
  rewrite <- Zle_Qle. exact H.
Qed.

(** [min] on normal numbers: the finite_value is below both. *)
Lemma SFltb_min (ma mb : positive) (ea eb : Z) :
  normal ma -> normal mb ->
  if SFltb (S754_finite false mb eb) (S754_finite false ma ea)
  then (finite_value mb eb <= finite_value ma ea)%Q
  else (finite_value ma ea <= finite_value mb eb)%Q.
Proof.
  intros Ha Hb. unfold SFltb, SFcompare.
  destruct (Z.compare_spec eb ea) as [E|E|E].
  - subst eb. change (Pos.compare_cont Eq mb ma) with (Pos.compare mb ma).
    destruct (Pos.compare_spec mb ma) as [C|C|C];
      apply value_le_mantissa; lia.
  - apply Qlt_le_weak, value_lt_exp; assumption.
  - apply Qlt_le_weak, value_lt_exp; assumption.
Qed.


Lemma in_range_normal (x : float) :
  in_range x = true ->
  exists (m : positive) (e : Z),
    Prim2SF x = S754_finite false m e /\ normal m /\ -252 <= e <= 148.
Proof.
  unfold in_range. rewrite andb_true_iff, !leb_spec.
  change (Prim2SF 0x1p-200) with (S754_finite false 4503599627370496 (-252)).
  change (Prim2SF 0x1p+200) with (S754_finite false 4503599627370496 148).
  pose proof (Prim2SF_valid x) as V.
  destruct (Prim2SF x) as [s|s| |s m e];
    cbv beta iota delta [SFleb SFcompare];
    intros [L H]; try discriminate L; try discriminate H.
  - destruct s; [discriminate L | discriminate H].
  - destruct s; [discriminate L|].
    assert (-252 <= e <= 148) as He.
    { destruct (Z.compare_spec (-252) e); destruct (Z.compare_spec e 148);
        try discriminate L; try discriminate H; lia. }
    exists m, e. split; [reflexivity|]. split; [|exact He].
    cbn [valid_binary] in V. unfold bounded, canonical_mantissa in V.
    apply andb_true_iff in V. destruct V as [V _].
    apply Z.eqb_eq in V. unfold fexp, emin, prec, emax in V.
    pose proof (digits2_bounds m) as B. unfold normal.
    replace (Zpos (digits2_pos m)) with 53 in B by lia. exact B.
Qed.


Lemma div_in_range (q w : float) (mq mw : positive) (eq ew : Z) :
  Prim2SF q = S754_finite false mq eq -> normal mq -> -252 <= eq <= 148 ->
  Prim2SF w = S754_finite false mw ew -> normal mw -> -252 <= ew <= 148 ->
  exists (m : positive) (e : Z),
    Prim2SF (q / w) = S754_finite false m e /\ normal m /\
    eq - ew - 53 <= e <= eq - ew - 51 /\
    (finite_value m e * finite_value mw ew <= finite_value mq eq *
        rounding_factor)%Q.
Proof.
  intros Eq Nq Rq Ew Nw Rw. rewrite div_spec, Eq, Ew. unfold SF64div.
  destruct (SFdiv_normal mq mw eq ew Nq Nw ltac:(lia))
    as (m & e & E & N & R & V).
  exists m, e. split; [exact E|]. split; [exact N|]. split; [exact R|].
  apply value_div; [lia | exact V].
Qed.

(** One side of the fitted drawing: the side [a] times the smaller of
    the two quotients stays below the box, up to two roundings. *)
Lemma fit_side_bound (q w h : float) :
  in_range q = true -> in_range w = true -> in_range h = true ->
  exists b : Q,
    float_value q = Some b /\
    (exists r : Q,
        float_value (w * (if (q / h <? q / w) then q / h else q / w))%float
        = Some r /\ (0 < r <= b * rounding_factor * rounding_factor)%Q) /\
    (exists r : Q,
        float_value (h * (if (q / h <? q / w) then q / h else q / w))%float
        = Some r /\ (0 < r <= b * rounding_factor * rounding_factor)%Q).
Proof.
  intros Hq Hw Hh.
  destruct (in_range_normal q Hq) as (mq & eq & Eq & Nq & Rq).
  destruct (in_range_normal w Hw) as (mw & ew & Ew & Nw & Rw).
  destruct (in_range_normal h Hh) as (mh & eh & Eh & Nh & Rh).
  destruct (div_in_range q w mq mw eq ew Eq Nq Rq Ew Nw Rw)
    as (m1 & e1 & E1 & N1 & R1 & V1).
  destruct (div_in_range q h mq mh eq eh Eq Nq Rq Eh Nh Rh)
    as (m2 & e2 & E2 & N2 & R2 & V2).
  exists (finite_value mq eq). split; [unfold float_value; rewrite Eq;
      reflexivity|].
  pose proof (SFltb_min m1 m2 e1 e2 N1 N2) as M.
  rewrite ltb_spec, E1, E2.
  pose proof (value_pos mq eq) as Pq. pose proof (value_pos mw ew) as Pw.
  pose proof (value_pos mh eh) as Ph.
  pose proof (value_pos m1 e1) as P1. pose proof (value_pos m2 e2) as P2.
  assert (1 <= rounding_factor)%Q as Hr by (unfold rounding_factor; lra).
  destruct (SFltb (S754_finite false m2 e2) (S754_finite false m1 e1)).
  - split.
    + destruct (SFmul_normal mw m2 ew e2 Nw N2 ltac:(lia))
        as (m & e & E & N & R & V).
      exists (finite_value m e). unfold float_value.
      rewrite mul_spec, Ew, E2. unfold SF64mul. rewrite E.
      split; [reflexivity|]. split; [apply value_pos|].
      apply value_mul in V; [|lia].
      set (vq := finite_value mq eq) in *. set (vw := finite_value mw ew) in *.
      set (v1 := finite_value m1 e1) in *. set (v2 := finite_value m2 e2) in *.
      set (v := finite_value m e) in *. clearbody vq vw v1 v2 v.
      apply Qle_trans with (vw * v2 * rounding_factor)%Q; [exact V|].
      apply Qmult_le_compat_r; [|lra].
      apply Qle_trans with (vw * v1)%Q; [|lra].
      apply Qmult_le_l; assumption.
    + destruct (SFmul_normal mh m2 eh e2 Nh N2 ltac:(lia))
        as (m & e & E & N & R & V).
      exists (finite_value m e). unfold float_value.
      rewrite mul_spec, Eh, E2. unfold SF64mul. rewrite E.
      split; [reflexivity|]. split; [apply value_pos|].
      apply value_mul in V; [|lia].
      set (vq := finite_value mq eq) in *. set (vh := finite_value mh eh) in *.
      set (v2 := finite_value m2 e2) in *.
      set (v := finite_value m e) in *. clearbody vq vh v2 v.
      apply Qle_trans with (vh * v2 * rounding_factor)%Q; [exact V|].
      apply Qmult_le_compat_r; [|lra]. lra.
  - split.
    + destruct (SFmul_normal mw m1 ew e1 Nw N1 ltac:(lia))
        as (m & e & E & N & R & V).
      exists (finite_value m e). unfold float_value.
      rewrite mul_spec, Ew, E1. unfold SF64mul. rewrite E.
      split; [reflexivity|]. split; [apply value_pos|].
      apply value_mul in V; [|lia].
      set (vq := finite_value mq eq) in *. set (vw := finite_value mw ew) in *.
      set (v1 := finite_value m1 e1) in *.
      set (v := finite_value m e) in *. clearbody vq vw v1 v.
      apply Qle_trans with (vw * v1 * rounding_factor)%Q; [exact V|].
      apply Qmult_le_compat_r; [|lra]. lra.
    + destruct (SFmul_normal mh m1 eh e1 Nh N1 ltac:(lia))
        as (m & e & E & N & R & V).
      exists (finite_value m e). unfold float_value.
      rewrite mul_spec, Eh, E1. unfold SF64mul. rewrite E.
      split; [reflexivity|]. split; [apply value_pos|].
      apply value_mul in V; [|lia].
      set (vq := finite_value mq eq) in *. set (vh := finite_value mh eh) in *.
      set (v1 := finite_value m1 e1) in *. set (v2 := finite_value m2 e2) in *.
      set (v := finite_value m e) in *. clearbody vq vh v1 v2 v.
      apply Qle_trans with (vh * v1 * rounding_factor)%Q; [exact V|].
      apply Qmult_le_compat_r; [|lra].
      apply Qle_trans with (vh * v2)%Q; [|lra].
      apply Qmult_le_l; assumption.
Qed.

End Binary64Facts.

(** ** UTF-8: the decoder against the encoding form *)

(** Quotients and remainders by constants are left to [lia]. *)
Ltac Zify.zify_post_hook ::= Z.to_euclidean_division_equations.

Module Utf8Facts.

Import Utf8.
Local Open Scope N_scope.

(** The bit operations of the two codecs, in arithmetic. *)
Lemma land_ones_mod (n k : N) : N.land n (N.ones k) = n mod 2 ^ k.
Proof. apply N.land_ones. Qed.

Lemma land_3F n : N.land n 0x3F = n mod 64.
Proof. exact (land_ones_mod n 6). Qed.
Lemma land_1F n : N.land n 0x1F = n mod 32.
Proof. exact (land_ones_mod n 5). Qed.
Lemma land_0F n : N.land n 0x0F = n mod 16.
Proof. exact (land_ones_mod n 4). Qed.
Lemma land_07 n : N.land n 0x07 = n mod 8.
Proof. exact (land_ones_mod n 3). Qed.
Lemma shiftl_6 n : N.shiftl n 6 = n * 64.
Proof. exact (N.shiftl_mul_pow2 n 6). Qed.
Lemma shiftl_12 n : N.shiftl n 12 = n * 4096.
Proof. exact (N.shiftl_mul_pow2 n 12). Qed.
Lemma shiftl_18 n : N.shiftl n 18 = n * 262144.
Proof. exact (N.shiftl_mul_pow2 n 18). Qed.
Lemma shiftr_6 n : N.shiftr n 6 = n / 64.
Proof. exact (N.shiftr_div_pow2 n 6). Qed.
Lemma shiftr_12 n : N.shiftr n 12 = n / 4096.
Proof. exact (N.shiftr_div_pow2 n 12). Qed.
Lemma shiftr_18 n : N.shiftr n 18 = n / 262144.
Proof. exact (N.shiftr_div_pow2 n 18). Qed.

Lemma to_N_byte_of (n : N) : n < 256 -> Byte.to_N (byte_of n) = n.
Proof.
  intros H. unfold byte_of. destruct (Byte.of_N n) as [b|] eqn:E.
  - exact (Byte.to_of_N n E).
  - apply Byte.of_N_None_iff in E. lia.
Qed.

Lemma byte_of_to_N (b : byte) : byte_of (Byte.to_N b) = b.
Proof. unfold byte_of. rewrite Byte.of_to_N. reflexivity. Qed.

Lemma to_N_lt (b : byte) : Byte.to_N b < 256.
Proof. pose proof (Byte.to_N_bounded b). lia. Qed.

Lemma decode_cons (b0 : byte) (r0 : bytes) :
  decode (b0 :: r0) =
      let n0 := Byte.to_N b0 in
      if n0 <? 0x80 then option_map (cons n0) (decode r0)
      else if within 0xC2 0xDF b0 then
        match r0 with
        | b1 :: r1 =>
          if cont b1
          then option_map
                 (cons (N.shiftl (N.land n0 0x1F) 6 + low6 b1))
                 (decode r1)
          else None
        | _ => None
        end
      else if within 0xE0 0xEF b0 then
        match r0 with
        | b1 :: b2 :: r2 =>
          let second_ok :=
            if n0 =? 0xE0 then within 0xA0 0xBF b1
            else if n0 =? 0xED then within 0x80 0x9F b1
            else cont b1 in
          if second_ok && cont b2
          then option_map
                 (cons (N.shiftl (N.land n0 0x0F) 12
                        + N.shiftl (low6 b1) 6 + low6 b2))
                 (decode r2)
          else None
        | _ => None
        end
      else if within 0xF0 0xF4 b0 then
        match r0 with
        | b1 :: b2 :: b3 :: r3 =>
          let second_ok :=
            if n0 =? 0xF0 then within 0x90 0xBF b1
            else if n0 =? 0xF4 then within 0x80 0x8F b1
            else cont b1 in
          if second_ok && cont b2 && cont b3
          then option_map
                 (cons (N.shiftl (N.land n0 0x07) 18
                        + N.shiftl (low6 b1) 12
                        + N.shiftl (low6 b2) 6 + low6 b3))
                 (decode r3)
          else None
        | _ => None
        end
      else None.
Proof. reflexivity. Qed.

(** Masks and shifts by constants as remainders, quotients and products. *)
Ltac bits_to_arith :=
  rewrite ?land_3F, ?land_1F, ?land_0F, ?land_07, ?shiftl_6, ?shiftl_12,
    ?shiftl_18, ?shiftr_6, ?shiftr_12, ?shiftr_18 in *.

(** Decides the comparisons of the goal from the hypotheses. *)
Ltac decide_tests :=
  repeat match goal with
         | |- context [?a <? ?b] =>
           first [ replace (a <? b) with true by (symmetry; apply N.ltb_lt; lia)
                 | replace (a <? b) with false by (symmetry; apply N.ltb_ge; lia) ]
         | |- context [?a <=? ?b] =>
           first [ replace (a <=? b) with true by (symmetry; apply N.leb_le; lia)
                 | replace (a <=? b) with false by (symmetry; apply N.leb_gt; lia) ]
         | |- context [?a =? ?b] =>
           first [ replace (a =? b) with true by (symmetry; apply N.eqb_eq; lia)
                 | replace (a =? b) with false by (symmetry; apply N.eqb_neq; lia) ]
         end; cbn [andb orb].

Lemma value_2 (n0 n1 : N) :
  0xC2 <= n0 <= 0xDF -> 0x80 <= n1 <= 0xBF ->
  N.shiftl (N.land n0 0x1F) 6 + N.land n1 0x3F
  = (n0 - 0xC0) * 64 + (n1 - 0x80).
Proof. intros. bits_to_arith. lia. Qed.

Lemma value_3 (n0 n1 n2 : N) :
  0xE0 <= n0 <= 0xEF -> 0x80 <= n1 <= 0xBF -> 0x80 <= n2 <= 0xBF ->
  N.shiftl (N.land n0 0x0F) 12 + N.shiftl (N.land n1 0x3F) 6 + N.land n2 0x3F
  = (n0 - 0xE0) * 4096 + (n1 - 0x80) * 64 + (n2 - 0x80).
Proof. intros. bits_to_arith. lia. Qed.

Lemma value_4 (n0 n1 n2 n3 : N) :
  0xF0 <= n0 <= 0xF4 -> 0x80 <= n1 <= 0xBF -> 0x80 <= n2 <= 0xBF ->
  0x80 <= n3 <= 0xBF ->
  N.shiftl (N.land n0 0x07) 18 + N.shiftl (N.land n1 0x3F) 12
  + N.shiftl (N.land n2 0x3F) 6 + N.land n3 0x3F
  = (n0 - 0xF0) * 262144 + (n1 - 0x80) * 4096 + (n2 - 0x80) * 64 + (n3 - 0x80).
Proof. intros. bits_to_arith. lia. Qed.

Lemma some_inj {X : Type} (x y : X) : Some x = Some y -> x = y.
Proof. congruence. Qed.

Lemma encode_point_1 (n : N) :
  n < 0x80 -> encode_point n = Some [byte_of n].
Proof. intros. unfold encode_point. decide_tests. reflexivity. Qed.

Lemma encode_point_2 (n0 n1 : N) :
  0xC2 <= n0 <= 0xDF -> 0x80 <= n1 <= 0xBF ->
  encode_point ((n0 - 0xC0) * 64 + (n1 - 0x80))
  = Some [byte_of n0; byte_of n1].
Proof.
  intros. unfold encode_point. decide_tests. bits_to_arith.
  repeat f_equal; lia.
Qed.

Lemma encode_point_3 (n0 n1 n2 : N) :
  0xE0 <= n0 <= 0xEF -> 0x80 <= n1 <= 0xBF -> 0x80 <= n2 <= 0xBF ->
  (n0 = 0xE0 -> 0xA0 <= n1) -> (n0 = 0xED -> n1 <= 0x9F) ->
  encode_point ((n0 - 0xE0) * 4096 + (n1 - 0x80) * 64 + (n2 - 0x80))
  = Some [byte_of n0; byte_of n1; byte_of n2].
Proof.
  intros. unfold encode_point. decide_tests.
  destruct (N.leb_spec 0xD800
              ((n0 - 0xE0) * 4096 + (n1 - 0x80) * 64 + (n2 - 0x80)));
    cbn [andb]; [decide_tests|]; bits_to_arith; repeat f_equal; lia.
Qed.

Lemma encode_point_4 (n0 n1 n2 n3 : N) :
  0xF0 <= n0 <= 0xF4 -> 0x80 <= n1 <= 0xBF -> 0x80 <= n2 <= 0xBF ->
  0x80 <= n3 <= 0xBF ->
  (n0 = 0xF0 -> 0x90 <= n1) -> (n0 = 0xF4 -> n1 <= 0x8F) ->
  encode_point ((n0 - 0xF0) * 262144 + (n1 - 0x80) * 4096
                + (n2 - 0x80) * 64 + (n3 - 0x80))
  = Some [byte_of n0; byte_of n1; byte_of n2; byte_of n3].
Proof.
  intros. unfold encode_point. decide_tests. bits_to_arith.
  repeat f_equal; lia.
Qed.

Ltac decode_head :=
  rewrite decode_cons; cbv zeta;
  unfold within, cont, low6;
  rewrite ?to_N_byte_of by lia.

Lemma decode_1 (n : N) (rest : bytes) :
  n < 0x80 ->
  decode (byte_of n :: rest) = option_map (cons n) (decode rest).
Proof. intros. decode_head. decide_tests. reflexivity. Qed.

Lemma decode_2 (n0 n1 : N) (rest : bytes) :
  0xC2 <= n0 <= 0xDF -> 0x80 <= n1 <= 0xBF ->
  decode (byte_of n0 :: byte_of n1 :: rest)
  = option_map (cons ((n0 - 0xC0) * 64 + (n1 - 0x80))) (decode rest).
Proof.
  intros. decode_head. decide_tests. rewrite value_2 by lia. reflexivity.
Qed.

Lemma decode_3 (n0 n1 n2 : N) (rest : bytes) :
  0xE0 <= n0 <= 0xEF -> 0x80 <= n1 <= 0xBF -> 0x80 <= n2 <= 0xBF ->
  (n0 = 0xE0 -> 0xA0 <= n1) -> (n0 = 0xED -> n1 <= 0x9F) ->
  decode (byte_of n0 :: byte_of n1 :: byte_of n2 :: rest)
  = option_map (cons ((n0 - 0xE0) * 4096 + (n1 - 0x80) * 64 + (n2 - 0x80)))
               (decode rest).
Proof.
  intros. decode_head.
  destruct (N.eqb_spec n0 0xE0); [|destruct (N.eqb_spec n0 0xED)];
    decide_tests; rewrite value_3 by lia; reflexivity.
Qed.

Lemma decode_4 (n0 n1 n2 n3 : N) (rest : bytes) :
  0xF0 <= n0 <= 0xF4 -> 0x80 <= n1 <= 0xBF -> 0x80 <= n2 <= 0xBF ->
  0x80 <= n3 <= 0xBF ->
  (n0 = 0xF0 -> 0x90 <= n1) -> (n0 = 0xF4 -> n1 <= 0x8F) ->
  decode (byte_of n0 :: byte_of n1 :: byte_of n2 :: byte_of n3 :: rest)
  = option_map (cons ((n0 - 0xF0) * 262144 + (n1 - 0x80) * 4096
                      + (n2 - 0x80) * 64 + (n3 - 0x80)))
               (decode rest).
Proof.
  intros. decode_head.
  destruct (N.eqb_spec n0 0xF0); [|destruct (N.eqb_spec n0 0xF4)];
    decide_tests; rewrite value_4 by lia; reflexivity.
Qed.

(** Decoding undoes encoding, one code point at a time. *)
Lemma decode_point (c : N) (a rest : bytes) :
  encode_point c = Some a ->
  decode (a ++ rest) = option_map (cons c) (decode rest).
Proof.
  unfold encode_point. bits_to_arith.
  destruct (N.ltb_spec c 0x80).
  { intros E; apply some_inj in E; subst a. cbn [app].
    apply decode_1; assumption. }
  destruct (N.ltb_spec c 0x800).
  { intros E; apply some_inj in E; subst a. cbn [app].
    rewrite decode_2 by lia. do 2 f_equal. lia. }
  destruct (N.ltb_spec c 0x10000).
  { destruct (N.leb_spec 0xD800 c); destruct (N.leb_spec c 0xDFFF);
      cbn [andb]; try discriminate;
      intros E; apply some_inj in E; subst a; cbn [app];
      rewrite decode_3 by lia; do 2 f_equal; lia. }
  destruct (N.leb_spec c 0x10FFFF); [|discriminate].
  intros E; apply some_inj in E; subst a. cbn [app].
  rewrite decode_4 by lia. do 2 f_equal. lia.
Qed.

Lemma decode_encode (s : str) (bs : bytes) :
  encode s = Some bs -> decode bs = Some s.
Proof.
  revert bs; induction s as [|c s IH]; intros bs; cbn [encode].
  - intros E; apply some_inj in E; subst bs. reflexivity.
  - destruct (encode_point c) as [a|] eqn:Ec; [|discriminate].
    destruct (encode s) as [b|]; [|discriminate].
    intros E; apply some_inj in E; subst bs.
    rewrite (decode_point c a b Ec), (IH b eq_refl). reflexivity.
Qed.

(** Splits on the comparisons of the goal, closing the branches in which
    the decoder has already given up. *)
Ltac split_tests :=
  repeat (match goal with
          | |- context [?a <? ?b] => destruct (N.ltb_spec a b)
          | |- context [?a <=? ?b] => destruct (N.leb_spec a b)
          | |- context [?a =? ?b] => destruct (N.eqb_spec a b)
          end; cbn [andb]; try (intro; discriminate)).

(** Replaces the byte [b] by [byte_of n] for its value [n]. *)
Ltac name_byte b n :=
  let E := fresh "E" in
  pose proof (to_N_lt b); pose proof (byte_of_to_N b) as E;
  set (n := Byte.to_N b) in *; clearbody n; subst b.

Ltac decoded_rest IH r :=
  let s' := fresh "s" in
  let D := fresh "D" in
  let H := fresh "H" in
  destruct (decode r) as [s'|] eqn:D; [|intro; discriminate];
  cbn [option_map]; intros H; apply some_inj in H; subst;
  cbn [encode]; rewrite (IH r) with (s := s') by (assumption || (cbn [length] in *; lia)).

Lemma lead_byte_class (v : N) :
  v < 0x80 \/ 0x80 <= v < 0xC2 \/ 0xC2 <= v <= 0xDF \/ 0xE0 <= v <= 0xEF
  \/ 0xF0 <= v <= 0xF4 \/ 0xF5 <= v.
Proof. lia. Qed.

Lemma encode_decode_fuel (n : nat) :
  forall (bs : bytes), (length bs <= n)%nat ->
  forall (s : str), decode bs = Some s -> encode s = Some bs.
Proof.
  induction n as [|n IH]; intros bs Hlen s.
  - destruct bs; [|cbn [length] in Hlen; lia].
    intros E; apply some_inj in E; subst s. reflexivity.
  - destruct bs as [|b0 r0].
    { intros E; apply some_inj in E; subst s. reflexivity. }
    rewrite decode_cons. cbv zeta. unfold within, cont, low6.
    name_byte b0 v0.
    destruct (lead_byte_class v0) as [C|[C|[C|[C|[C|C]]]]]; decide_tests;
      try (intro; discriminate).
    + decoded_rest IH r0. rewrite encode_point_1 by lia. reflexivity.
    + destruct r0 as [|b1 r1]; [intro; discriminate|].
      name_byte b1 v1. split_tests.
      decoded_rest IH r1.
      rewrite value_2, encode_point_2 by lia. reflexivity.
    + destruct r0 as [|b1 [|b2 r2]]; try (intro; discriminate).
      name_byte b1 v1. name_byte b2 v2. split_tests;
      decoded_rest IH r2;
      rewrite value_3, encode_point_3 by lia; reflexivity.
    + destruct r0 as [|b1 [|b2 [|b3 r3]]]; try (intro; discriminate).
      name_byte b1 v1. name_byte b2 v2. name_byte b3 v3. split_tests;
      decoded_rest IH r3;
      rewrite value_4, encode_point_4 by lia; reflexivity.
Qed.

(** The decoder accepts exactly the well-formed byte strings, and gives
    the string they encode. *)
Lemma decode_iff_encode (bs : bytes) (s : str) :
  decode bs = Some s <-> encode s = Some bs.
Proof.
  split; [apply (encode_decode_fuel (length bs)); lia | apply decode_encode].
Qed.

Lemma decode_None_iff (bs : bytes) : decode bs = None <-> ~ well_formed bs.
Proof.
  unfold well_formed. split.
  - intros H [s E]. apply decode_iff_encode in E. congruence.
  - intros H. destruct (decode bs) as [s|] eqn:D; [|reflexivity].
    exfalso. apply H. exists s. apply decode_iff_encode. exact D.
Qed.

End Utf8Facts.

(** ** Tabular extractor: facts *)

Section ExtractorFacts.

Variable sniff : str -> option N.
Variable csv_reader : str -> N -> option (list (list str)).

Lemma column_loop_app (k : nat) (rows : list (list str)) (out : list str) :
  column_loop k rows out = out ++ map (aligned_value k) rows.
Proof.
  revert out; induction rows as [|row rows IH]; intros out; simpl.
  - symmetry; apply app_nil_r.
  - rewrite IH.
    replace (out ++ aligned_value k row :: map (aligned_value k) rows)
      with ((out ++ [aligned_value k row]) ++ map (aligned_value k) rows)
      by (rewrite <- app_assoc; reflexivity).
    f_equal. unfold aligned_value. destruct row as [|c row]; [reflexivity|].
    cbn [length Nat.eqb orb].
    destruct (S (length row) <=? k)%nat; [reflexivity|].
    rewrite or_empty_id; reflexivity.
Qed.

(** The outcome of a call, by what decoding, reading and header lookup
    give. *)
Lemma read_csv_outcome (column_name : str) (fs : FileStorage) :
  read_csv_column_by_name sniff csv_reader column_name fs =
  match Utf8.decode (unread fs) with
  | None => (at_end fs, Raise UnicodeDecodeError)
  | Some data =>
    (rewound fs,
     match csv_reader data (detect_delimiter sniff data) with
     | None => Raise CsvError
     | Some [] => Raise csv_is_empty
     | Some (header :: data_rows) =>
       match index (strip column_name) (map strip header) with
       | Some k => Ok (map (aligned_value k) data_rows)
       | None =>
         Raise (ValueError (ColumnNotFoundMsg column_name (map strip header)))
       end
     end)
  end.
Proof.
  unfold read_csv_column_by_name, bind, fs_read, fs_seek, or_raise, ret,
    raise, unread, at_end, rewound. cbn [content pos].
  destruct (Utf8.decode _) as [data|]; [|reflexivity].
  destruct (csv_reader data _) as [[|header rows]|]; try reflexivity.
  destruct (contains _ _) eqn:C; cbn [negb].
  - destruct (index_contains _ _ C) as [k ->].
    rewrite column_loop_app. reflexivity.
  - destruct (index _ _) as [k|] eqn:I; [|reflexivity].
    apply index_first in I. destruct I as [I _].
    apply nth_error_In in I. apply contains_In in I. congruence.
Qed.

End ExtractorFacts.

(** ** Tabular extractor: the specified properties *)

(** C3. For a table that decodes, parses into a header and N data rows
    and has the requested column, the extractor returns exactly N
    strings in row order: row [i] gives the empty string when it has no
    cells or no cell at the column's index, and its cell at that index,
    trimmed, otherwise. *)
Theorem extract_one_value_per_row
        (sniff : str -> option N)
        (csv_reader : str -> N -> option (list (list str)))
        (fs : FileStorage) (column_name data : str)
        (header : list str) (data_rows : list (list str)) :
  Utf8.decode (unread fs) = Some data ->
  csv_reader data (detect_delimiter sniff data) = Some (header :: data_rows) ->
  In (strip column_name) (map strip header) ->
  exists (k : nat) (out : list str),
    index (strip column_name) (map strip header) = Some k /\
    snd (read_csv_column_by_name sniff csv_reader column_name fs) = Ok out /\
    length out = length data_rows /\
    forall (i : nat) (row : list str),
      nth_error data_rows i = Some row ->
      (row = [] -> nth_error out i = Some []) /\
      ((length row <= k)%nat -> nth_error out i = Some []) /\
      (forall cell, nth_error row k = Some cell ->
                    nth_error out i = Some (strip cell)).
Proof.
  intros Hdec Hrows Hin.
  apply contains_In in Hin. destruct (index_contains _ _ Hin) as [k Hk].
  exists k, (map (aligned_value k) data_rows).
  rewrite read_csv_outcome, Hdec, Hrows, Hk. cbn [snd].
  repeat split; auto using length_map.
  - intros ->. erewrite map_nth_error by eassumption. reflexivity.
  - intros Hlen. erewrite map_nth_error by eassumption.
    unfold aligned_value. apply Nat.leb_le in Hlen. rewrite Hlen, orb_true_r.
    reflexivity.
  - intros cell Hcell. erewrite map_nth_error by eassumption.
    unfold aligned_value.
    assert (k < length row)%nat as Hlt
        by (apply nth_error_Some; congruence).
    destruct (length row =? 0)%nat eqn:E0; [apply Nat.eqb_eq in E0; lia|].
    destruct (length row <=? k)%nat eqn:E1; [apply Nat.leb_le in E1; lia|].
    cbn [orb]. erewrite nth_error_nth by eassumption. reflexivity.
Qed.

(** The scenario of the specification: column [Code] of the scenario
    table is [123], the empty string, [456]. *)
Lemma extract_one_value_per_row_witness :
  exists (k : nat) (out : list str),
    index (strip (of_string "Code"))
          (map strip [of_string "Name"; of_string "Code"]) = Some k /\
    Demo.extract scenario_table "Code" = Ok out /\
    length out = 3%nat /\
    forall (i : nat) (row : list str),
      nth_error [[of_string "A"; of_string "123"];
                 [of_string "B"; []];
                 [of_string "C"; of_string "456"]] i = Some row ->
      (row = [] -> nth_error out i = Some []) /\
      ((length row <= k)%nat -> nth_error out i = Some []) /\
      (forall cell, nth_error row k = Some cell ->
                    nth_error out i = Some (strip cell)).
Proof.
  exact (@extract_one_value_per_row
           Demo.sniff Demo.csv_reader
           (Demo.upload scenario_table) (of_string "Code")
           (of_string scenario_table)
           [of_string "Name"; of_string "Code"]
           [[of_string "A"; of_string "123"];
            [of_string "B"; []];
            [of_string "C"; of_string "456"]]
           eq_refl eq_refl (or_intror (or_introl eq_refl))).
Defined.

(** C7. The extractor fails with the column-not-found error exactly when
    the file decodes and parses to at least a header row and the
    requested name, trimmed, is not one of the trimmed header cells. So
    ["Code "] resolves against a header cell [Code], and ["code"] does
    not: cells are compared code point by code point. *)
Theorem column_not_found_iff_absent
        (sniff : str -> option N)
        (csv_reader : str -> N -> option (list (list str)))
        (fs : FileStorage) (column_name : str) :
  ((exists shown available,
       snd (read_csv_column_by_name sniff csv_reader column_name fs)
       = Raise (ValueError (ColumnNotFoundMsg shown available)))
   <->
   (exists data header data_rows,
       Utf8.decode (unread fs) = Some data /\
       csv_reader data (detect_delimiter sniff data)
       = Some (header :: data_rows) /\
       ~ In (strip column_name) (map strip header)))
  /\
  (forall data header data_rows,
      Utf8.decode (unread fs) = Some data ->
      csv_reader data (detect_delimiter sniff data)
      = Some (header :: data_rows) ->
      In (of_string "Code") (map strip header) ->
      (exists out,
          snd (read_csv_column_by_name sniff csv_reader
                                       (of_string "Code ") fs) = Ok out) /\
      (~ In (of_string "code") (map strip header) ->
       snd (read_csv_column_by_name sniff csv_reader (of_string "code") fs)
       = Raise (ValueError (ColumnNotFoundMsg (of_string "code")
                                              (map strip header))))).
Proof.
  split; [split|].
  - intros (shown & available & H). rewrite read_csv_outcome in H.
    destruct (Utf8.decode (unread fs)) as [data|]; [|discriminate].
    cbn [snd] in H.
    destruct (csv_reader data _) as [[|header rows]|] eqn:R;
      try discriminate.
    exists data, header, rows. repeat split; trivial.
    intros Hin. apply contains_In in Hin.
    destruct (index_contains _ _ Hin) as [k Hk]. rewrite Hk in H.
    discriminate.
  - intros (data & header & rows & Hdec & Hrows & Hnot).
    exists column_name, (map strip header).
    rewrite read_csv_outcome, Hdec, Hrows. cbn [snd].
    destruct (index _ _) as [k|] eqn:I; [|reflexivity].
    apply index_first in I. destruct I as [I _]. apply nth_error_In in I.
    contradiction.
  - intros data header rows Hdec Hrows Hin. split.
    + rewrite read_csv_outcome, Hdec, Hrows. cbn [snd].
      change (strip (of_string "Code ")) with (of_string "Code").
      apply contains_In in Hin. destruct (index_contains _ _ Hin) as [k ->].
      eexists; reflexivity.
    + intros Hnot. rewrite read_csv_outcome, Hdec, Hrows. cbn [snd].
      change (strip (of_string "code")) with (of_string "code").
      destruct (index _ _) as [k|] eqn:I; [|reflexivity].
      apply index_first in I. destruct I as [I _]. apply nth_error_In in I.
      contradiction.
Qed.

(** On the scenario table, ["Code "] resolves and ["code"] does not. *)
Lemma column_not_found_iff_absent_witness :
  (exists out, Demo.extract scenario_table "Code " = Ok out) /\
  Demo.extract scenario_table "code"
  = Raise (ValueError (ColumnNotFoundMsg
                         (of_string "code")
                         [of_string "Name"; of_string "Code"])).
Proof.
  destruct (column_not_found_iff_absent
              Demo.sniff Demo.csv_reader
              (Demo.upload scenario_table) (of_string "Code")) as [_ H].
  specialize (H (of_string scenario_table)
                [of_string "Name"; of_string "Code"]
                [[of_string "A"; of_string "123"];
                 [of_string "B"; []];
                 [of_string "C"; of_string "456"]]
                eq_refl eq_refl (or_intror (or_introl eq_refl))).
  destruct H as [Hok Hnot]. split; [exact Hok|].
  apply Hnot. simpl. intros [H|[H|[]]]; discriminate H.
Defined.

Example scenario_extract :
  Demo.extract scenario_table "Code" = Ok [of_string "123"; []; of_string "456"].
Proof. reflexivity. Qed.

(** C8. The extractor fails with the empty-table error exactly when the
    file decodes and the reader yields no row at all; with at least one
    row, the first row is taken as the header and the call ends in what
    the header lookup gives: the column's values, or the
    column-not-found error. *)
Theorem empty_table_iff_no_rows
        (sniff : str -> option N)
        (csv_reader : str -> N -> option (list (list str)))
        (fs : FileStorage) (column_name : str) :
  (snd (read_csv_column_by_name sniff csv_reader column_name fs)
   = Raise csv_is_empty
   <->
   exists data,
     Utf8.decode (unread fs) = Some data /\
     csv_reader data (detect_delimiter sniff data) = Some [])
  /\
  (forall data header data_rows,
      Utf8.decode (unread fs) = Some data ->
      csv_reader data (detect_delimiter sniff data)
      = Some (header :: data_rows) ->
      snd (read_csv_column_by_name sniff csv_reader column_name fs)
      = match index (strip column_name) (map strip header) with
        | Some k => Ok (map (aligned_value k) data_rows)
        | None => Raise (ValueError (ColumnNotFoundMsg column_name
                                                        (map strip header)))
        end).
Proof.
  split; [split|].
  - rewrite read_csv_outcome.
    destruct (Utf8.decode (unread fs)) as [data|]; [|discriminate].
    cbn [snd].
    destruct (csv_reader data _) as [[|header rows]|] eqn:R;
      try discriminate.
    + intros _. exists data; split; trivial.
    + destruct (index _ _); discriminate.
  - intros (data & Hdec & Hrows).
    rewrite read_csv_outcome, Hdec, Hrows. reflexivity.
  - intros data header rows Hdec Hrows.
    rewrite read_csv_outcome, Hdec, Hrows. reflexivity.
Qed.

(** An upload of no bytes is an empty table; an upload of one line feed
    is a table whose header has no cells, so the lookup fails instead. *)
Lemma empty_table_iff_no_rows_witness :
  Demo.extract "" "Code" = Raise csv_is_empty /\
  Demo.extract "
" "Code" = Raise (ValueError (ColumnNotFoundMsg (of_string "Code") [])).
Proof.
  split.
  - apply (proj1 (empty_table_iff_no_rows
                    Demo.sniff Demo.csv_reader (Demo.upload "")
                    (of_string "Code"))).
    exists []. split; reflexivity.
  - exact (proj2 (empty_table_iff_no_rows
                    Demo.sniff Demo.csv_reader
                    (Demo.upload (String (ascii_of_nat 10) EmptyString))
                    (of_string "Code"))
                 [10%N] [] [] eq_refl eq_refl).
Defined.

(** C10. An upload whose unread bytes are not well-formed UTF-8 makes
    the extractor raise the decoding error at once: whatever the sniffer
    and the reader would do, the call ends with the file read to its end
    and never rewound, and returns no value. *)
Theorem undecodable_upload_fails_first
        (sniff : str -> option N)
        (csv_reader : str -> N -> option (list (list str)))
        (fs : FileStorage) (column_name : str) :
  ~ Utf8.well_formed (unread fs) ->
  read_csv_column_by_name sniff csv_reader column_name fs
  = (at_end fs, Raise UnicodeDecodeError)
  /\
  forall sniff' csv_reader',
    read_csv_column_by_name sniff' csv_reader' column_name fs
    = read_csv_column_by_name sniff csv_reader column_name fs.
Proof.
  intros Hbad. apply Utf8Facts.decode_None_iff in Hbad.
  split; [|intros sniff' csv_reader'];
    rewrite !read_csv_outcome, Hbad; reflexivity.
Qed.

(** The scenario table with a byte [0xFF] in front is rejected. *)
Lemma undecodable_upload_fails_first_witness :
  read_csv_column_by_name
    Demo.sniff Demo.csv_reader (of_string "Code")
    {| content := xff :: bytes_of_string scenario_table; pos := 0 |}
  = ({| content := xff :: bytes_of_string scenario_table; pos := 26 |},
     Raise UnicodeDecodeError).
Proof.
  refine (proj1 (@undecodable_upload_fails_first
                   Demo.sniff Demo.csv_reader
                   {| content := xff :: bytes_of_string scenario_table;
                      pos := 0 |}
                   (of_string "Code") _)).
  apply Utf8Facts.decode_None_iff. vm_compute. reflexivity.
Defined.

(** Ill-formed inputs the strict decoder turns down: a stray [0xFF], the
    overlong [C0 80], the surrogate [ED A0 80], a value above U+10FFFF,
    and a sequence cut short. *)
Example decode_rejects :
  map Utf8.decode
      [[xff]; [xc0; x80]; [xed; xa0; x80]; [xf4; x90; x80; x80]; [xe2; x82]]
  = [None; None; None; None; None].
Proof. reflexivity. Qed.

Example decode_accepts :
  Utf8.decode [x41; xc3; xa9; xe2; x82; xac; xf0; x9f; x98; x80]
  = Some [0x41; 0xE9; 0x20AC; 0x1F600]%N.
Proof. reflexivity. Qed.

(** ** Overlay compositor: facts *)

Section CompositorFacts.

Context {num : Type} {A : Arith num}.
Variables QRCode Shape : Type.
Variable segno_make : str -> option QRCode.
Variable svg2rlg : QRCode -> option (Drawing num Shape).
Variable renderPDF_raises : Drawing num Shape -> num -> num -> option exn.

(** The outcome of a call, by what the two libraries give. *)
Lemma build_overlay_outcome (page_width page_height : num) (qr_data : str)
      (qr_size x_pos y_pos : num) :
  build_overlay_vector segno_make svg2rlg renderPDF_raises page_width
      page_height
                       qr_data qr_size x_pos y_pos =
  match segno_make qr_data with
  | None => Raise SegnoError
  | Some qr =>
    match svg2rlg qr with
    | None => Ok []
    | Some d =>
      if n_is_zero (width d) || n_is_zero (height d)
      then Raise ZeroDivisionError
      else
        match placed_raises renderPDF_raises
                            (centred qr_size x_pos y_pos (fitted qr_size d))
        with
        | Some e => Raise e
        | None =>
          Ok [{| pagesize := (page_width, page_height);
                 drawn := [centred qr_size x_pos y_pos
                                   (fitted qr_size d)] |}]
        end
    end
  end.
Proof.
  unfold build_overlay_vector, draw_symbol, bind, or_raise, of_result,
    py_div, ret, raise, renderPDF_draw, save, placed_raises.
  destruct (segno_make qr_data) as [qr|]; [|reflexivity].
  destruct (svg2rlg qr) as [d|]; [|reflexivity].
  destruct (n_is_zero (width d)); [reflexivity|].
  destruct (n_is_zero (height d)); [reflexivity|].
  cbn [orb centred fitted what at_x at_y].
  destruct (renderPDF_raises _ _ _); reflexivity.
Qed.

(** The buffer returned holds one page at most. *)
Lemma build_overlay_pages (page_width page_height : num) (qr_data : str)
      (qr_size x_pos y_pos : num) (pages : list (Canvas num Shape)) :
  build_overlay_vector segno_make svg2rlg renderPDF_raises page_width
      page_height
                       qr_data qr_size x_pos y_pos = Ok pages ->
  pages = [] \/ exists ov, pages = [ov].
Proof.
  rewrite build_overlay_outcome.
  destruct (segno_make qr_data) as [qr|]; [|discriminate].
  destruct (svg2rlg qr) as [d|].
  - destruct (n_is_zero (width d) || n_is_zero (height d)); [discriminate|].
    destruct (placed_raises _ _); [discriminate|].
    intros [= <-]. right. eexists; reflexivity.
  - intros [= <-]. left; reflexivity.
Qed.

End CompositorFacts.

(** Exact arithmetic: the smaller of two quotients, times the divisor of
    either, stays below the dividend. *)
Lemma exact_min_le (a b : Q) :
  (py_min a b <= a)%Q /\ (py_min a b <= b)%Q.
Proof.
  unfold py_min. cbn [n_lt exact].
  destruct (Qle_bool a b) eqn:E; cbn [negb].
  - apply Qle_bool_iff in E. split; [apply Qle_refl | assumption].
  - assert (~ (a <= b)%Q) as N
        by (intros H; apply Qle_bool_iff in H; congruence).
    apply Qnot_le_lt in N. split; [apply Qlt_le_weak; assumption | apply Qle_refl].
Qed.

Lemma exact_fit_le (q w h : Q) :
  (0 < w)%Q -> (0 < h)%Q ->
  (w * py_min (q / w) (q / h) <= q)%Q /\ (h * py_min (q / w) (q / h) <= q)%Q.
Proof.
  intros Hw Hh. destruct (exact_min_le (q / w) (q / h)) as [Lw Lh]. split.
  - apply Qle_trans with (w * (q / w))%Q.
    + rewrite !(Qmult_comm w). apply Qmult_le_compat_r;
        [assumption | apply Qlt_le_weak; assumption].
    + rewrite Qmult_div_r; [apply Qle_refl|].
      intros E. rewrite E in Hw. apply (Qlt_irrefl _ Hw).
  - apply Qle_trans with (h * (q / h))%Q.
    + rewrite !(Qmult_comm h). apply Qmult_le_compat_r;
        [assumption | apply Qlt_le_weak; assumption].
    + rewrite Qmult_div_r; [apply Qle_refl|].
      intros E. rewrite E in Hh. apply (Qlt_irrefl _ Hh).
Qed.

Lemma exact_nonzero (w : Q) : (0 < w)%Q -> Qeq_bool w 0 = false.
Proof.
  intros Hw. destruct (Qeq_bool w 0) eqn:E; [|reflexivity].
  apply Qeq_bool_iff in E. rewrite E in Hw. destruct (Qlt_irrefl _ Hw).
Qed.

(** ** Overlay compositor: the specified properties *)

(** C5. When the symbol is made and converted, its natural sides are
    not zero and [renderPDF.draw] returns, the builder returns an overlay
    page of the given width and height with exactly one drawing on it,
    the fitted one, whose origin is
    [(x + (boxSize - w) / 2, y + (boxSize - h) / 2)] for the rendered
    size [(w, h)] of that drawing. *)
Theorem symbol_centred_in_box
        {num : Type} {A : Arith num} (QRCode Shape : Type)
        (segno_make : str -> option QRCode)
        (svg2rlg : QRCode -> option (Drawing num Shape))
        (renderPDF_raises : Drawing num Shape -> num -> num -> option exn)
        (page_width page_height : num) (qr_data : str)
        (qr_size x_pos y_pos : num) (qr : QRCode) (d : Drawing num Shape) :
  segno_make qr_data = Some qr ->
  svg2rlg qr = Some d ->
  n_is_zero (width d) = false ->
  n_is_zero (height d) = false ->
  placed_raises renderPDF_raises
                (centred qr_size x_pos y_pos (fitted qr_size d)) = None ->
  exists rendered : Drawing num Shape,
    build_overlay_vector segno_make svg2rlg renderPDF_raises
                         page_width page_height
                         qr_data qr_size x_pos y_pos
    = Ok [{| pagesize := (page_width, page_height);
             drawn :=
               [{| what := rendered;
                   at_x := (x_pos + (qr_size - width rendered) / n_two)%num;
                   at_y := (y_pos + (qr_size - height rendered) / n_two)%num
                |}] |}]
    /\ contents rendered = contents d
    /\ rendered = fitted qr_size d.
Proof.
  intros Hqr Hd Hw Hh Hdraw. exists (fitted qr_size d).
  rewrite build_overlay_outcome, Hqr, Hd, Hw, Hh. cbn [orb].
  rewrite Hdraw. repeat split; reflexivity.
Qed.

(** A drawing 20 points wide and 10 high in a box of 30 points at
    (36, 36) of a letter page: it is rendered 30 by 15, so it is drawn
    at (36 + 0, 36 + 7.5). *)
Lemma symbol_centred_in_box_witness :
  exists rendered : Drawing float DemoPdf.Shape,
    build_overlay_vector
      DemoPdf.segno_make
      (fun qr : DemoPdf.QRCode =>
         Some {| width := 20%float; height := 10%float;
                 transform := []; contents := qr |})
      DemoPdf.renderPDF_raises
      612%float 792%float (of_string "123") 30%float 36%float 36%float
    = Ok [{| pagesize := (612%float, 792%float);
             drawn :=
               [{| what := rendered;
                   at_x := (36 + (30 - width rendered) / 2)%float;
                   at_y := (36 + (30 - height rendered) / 2)%float |}] |}]
    /\ contents rendered = 13%float
    /\ rendered = fitted 30%float
                         {| width := 20%float; height := 10%float;
                            transform := []; contents := 13%float |}.
Proof.
  exact (@symbol_centred_in_box
           float float64 DemoPdf.QRCode DemoPdf.Shape
           DemoPdf.segno_make
           (fun qr : DemoPdf.QRCode =>
              Some {| width := 20%float; height := 10%float;
                      transform := []; contents := qr |})
           DemoPdf.renderPDF_raises
           612%float 792%float (of_string "123") 30%float 36%float 36%float
           13%float
           {| width := 20%float; height := 10%float;
              transform := []; contents := 13%float |}
           eq_refl eq_refl eq_refl eq_refl eq_refl).
Defined.

(** The figures of that drawing: rendered 30 by 15 and drawn at
    (36, 43.5). *)
Example off_centre_drawing_is_moved :
  build_overlay_vector
    DemoPdf.segno_make
    (fun qr : DemoPdf.QRCode =>
       Some {| width := 20%float; height := 10%float;
               transform := []; contents := qr |})
    DemoPdf.renderPDF_raises
    612%float 792%float (of_string "123") 30%float 36%float 36%float
  = Ok [{| pagesize := (612%float, 792%float);
           drawn :=
             [{| what := {| width := 30%float; height := 15%float;
                            transform := [(1.5%float, 1.5%float)];
                            contents := 13%float |};
                 at_x := 36%float;
                 at_y := 43.5%float |}] |}].
Proof. vm_compute. reflexivity. Qed.

(** C4 as stated does not hold on binary64 floats: a symbol of 29
    modules a side (forty lower-case letters), 21.75 points wide and
    high, fitted into a box of 30 points is scaled by
    [30 / 21.75 = 1.3793103448275863] and comes out
    [21.75 * 1.3793103448275863 = 30.000000000000004] points wide and
    high, more than the box. *)
Lemma fit_exceeds_box_by_rounding :
  exists overlay : Canvas float DemoPdf.Shape,
    build_overlay_vector DemoPdf.segno_make DemoPdf.svg2rlg
                         DemoPdf.renderPDF_raises
                         612%float 792%float DemoPdf.forty
                         30%float 36%float 36%float = Ok [overlay] /\
    ~ fits_box 30%float overlay.
Proof.
  eexists. split.
  - vm_compute. reflexivity.
  - unfold fits_box. cbn [drawn]. intros H.
    apply Forall_inv in H. destruct H as [H _].
    vm_compute in H. discriminate H.
Qed.

Lemma in_range_nonzero (x : float) :
  in_range x = true -> PrimFloat.eqb x 0%float = false.
Proof.
  intros H.
  destruct (Binary64Facts.in_range_normal x H) as (m & e & E & _).
  rewrite eqb_spec, E. reflexivity.
Qed.

(** The sides of a drawing fitted on floats, as numbers. *)
Lemma fitted_sides_bound (Shape : Type) (q : float)
      (d : Drawing float Shape) :
  in_range q = true ->
  in_range (width d) = true ->
  in_range (height d) = true ->
  exists box w h : Q,
    float_value q = Some box /\
    float_value (width (fitted q d)) = Some w /\
    float_value (height (fitted q d)) = Some h /\
    (0 < w <= box * rounding_factor * rounding_factor)%Q /\
    (0 < h <= box * rounding_factor * rounding_factor)%Q.
Proof.
  intros Hq Hw Hh.
  destruct (Binary64Facts.fit_side_bound q (width d) (height d) Hq Hw Hh)
    as (box & Eb & (w & Ew & Bw) & (h & Eh & Bh)).
  exists box, w, h.
  split; [exact Eb|]. split; [exact Ew|]. split; [exact Eh|].
  split; assumption.
Qed.

(** C4, amended. When the symbol is made and converted, its natural
    sides are not zero and [renderPDF.draw] returns, the builder scales
    by the single factor
    [min(boxSize / naturalWidth, boxSize / naturalHeight)] on both axes:
    the rendered width and height are the natural ones times that
    factor, and the scaling recorded on the drawing has the factor
    twice. On binary64 floats, with the box and the natural sides
    between [2 ^ -200] and [2 ^ 200], the rendered width and height are
    positive numbers and at most [boxSize * (1 + 2 ^ -53) ^ 2]: they
    exceed the box by two roundings at most. With positive natural sides
    and an arithmetic that does not round, they are at most
    [boxSize]. *)
Theorem fit_is_uniform_and_bounded_up_to_rounding :
  (forall (num : Type) (A : Arith num) (QRCode Shape : Type)
          (segno_make : str -> option QRCode)
          (svg2rlg : QRCode -> option (Drawing num Shape))
          (renderPDF_raises : Drawing num Shape -> num -> num -> option exn)
          (page_width page_height : num) (qr_data : str)
          (qr_size x_pos y_pos : num) (qr : QRCode) (d : Drawing num Shape),
      segno_make qr_data = Some qr ->
      svg2rlg qr = Some d ->
      n_is_zero (width d) = false ->
      n_is_zero (height d) = false ->
      placed_raises renderPDF_raises
                    (centred qr_size x_pos y_pos (fitted qr_size d)) = None ->
      exists (rendered : Drawing num Shape) (scale_factor : num),
        build_overlay_vector segno_make svg2rlg renderPDF_raises
                             page_width page_height
                             qr_data qr_size x_pos y_pos
        = Ok [{| pagesize := (page_width, page_height);
                 drawn := [centred qr_size x_pos y_pos rendered] |}] /\
        scale_factor
        = py_min (qr_size / width d)%num (qr_size / height d)%num /\
        width rendered = (width d * scale_factor)%num /\
        height rendered = (height d * scale_factor)%num /\
        transform rendered = transform d ++ [(scale_factor, scale_factor)])
  /\
  (forall (QRCode Shape : Type)
          (segno_make : str -> option QRCode)
          (svg2rlg : QRCode -> option (Drawing float Shape))
          (renderPDF_raises : Drawing float Shape -> float -> float
                              -> option exn)
          (page_width page_height : float) (qr_data : str)
          (qr_size x_pos y_pos : float) (qr : QRCode)
          (d : Drawing float Shape),
      segno_make qr_data = Some qr ->
      svg2rlg qr = Some d ->
      in_range qr_size = true ->
      in_range (width d) = true ->
      in_range (height d) = true ->
      placed_raises renderPDF_raises
                    (centred qr_size x_pos y_pos (fitted qr_size d)) = None ->
      exists (rendered : Drawing float Shape) (box w h : Q),
        build_overlay_vector segno_make svg2rlg renderPDF_raises
                             page_width page_height
                             qr_data qr_size x_pos y_pos
        = Ok [{| pagesize := (page_width, page_height);
                 drawn := [centred qr_size x_pos y_pos rendered] |}] /\
        float_value qr_size = Some box /\
        float_value (width rendered) = Some w /\
        float_value (height rendered) = Some h /\
        (0 < w <= box * rounding_factor * rounding_factor)%Q /\
        (0 < h <= box * rounding_factor * rounding_factor)%Q)
  /\
  (forall (QRCode Shape : Type)
          (segno_make : str -> option QRCode)
          (svg2rlg : QRCode -> option (Drawing Q Shape))
          (renderPDF_raises : Drawing Q Shape -> Q -> Q -> option exn)
          (page_width page_height : Q) (qr_data : str)
          (qr_size x_pos y_pos : Q) (qr : QRCode) (d : Drawing Q Shape),
      segno_make qr_data = Some qr ->
      svg2rlg qr = Some d ->
      (0 < width d)%Q ->
      (0 < height d)%Q ->
      placed_raises renderPDF_raises
                    (centred qr_size x_pos y_pos (fitted qr_size d)) = None ->
      exists rendered : Drawing Q Shape,
        build_overlay_vector segno_make svg2rlg renderPDF_raises
                             page_width page_height
                             qr_data qr_size x_pos y_pos
        = Ok [{| pagesize := (page_width, page_height);
                 drawn := [centred qr_size x_pos y_pos rendered] |}] /\
        (width rendered <= qr_size)%Q /\
        (height rendered <= qr_size)%Q).
Proof.
  split; [|split].
  - intros num A QRCode Shape segno_make svg2rlg renderPDF_raises
           pw ph data q x y qr d Hqr Hd Hw Hh Hdraw.
    exists (fitted q d), (fit_scale q d).
    rewrite build_overlay_outcome, Hqr, Hd, Hw, Hh. cbn [orb].
    rewrite Hdraw. repeat split; reflexivity.
  - intros QRCode Shape segno_make svg2rlg renderPDF_raises
           pw ph data q x y qr d Hqr Hd Rq Rw Rh Hdraw.
    destruct (fitted_sides_bound Shape q d Rq Rw Rh)
      as (box & w & h & Eb & Ew & Eh & Bw & Bh).
    exists (fitted q d), box, w, h.
    rewrite build_overlay_outcome, Hqr, Hd. cbn [n_is_zero float64].
    rewrite (in_range_nonzero _ Rw), (in_range_nonzero _ Rh). cbn [orb].
    rewrite Hdraw.
    split; [reflexivity|]. split; [exact Eb|]. split; [exact Ew|].
    split; [exact Eh|]. split; assumption.
  - intros QRCode Shape segno_make svg2rlg renderPDF_raises
           pw ph data q x y qr d Hqr Hd Hw Hh Hdraw.
    exists (fitted q d).
    rewrite build_overlay_outcome, Hqr, Hd. cbn [n_is_zero exact].
    rewrite (exact_nonzero _ Hw), (exact_nonzero _ Hh). cbn [orb].
    rewrite Hdraw.
    split; [reflexivity|]. apply exact_fit_le; assumption.
Qed.

(** The 29-module symbol and the 30 point box again: on floats the
    factor is the same on both axes and the rendered side is at most
    [30 * (1 + 2 ^ -53) ^ 2]; on the rationals it is at most 30. *)
Lemma fit_is_uniform_and_bounded_up_to_rounding_witness :
  (exists (rendered : Drawing float DemoPdf.Shape) (scale_factor : float),
      build_overlay_vector DemoPdf.segno_make DemoPdf.svg2rlg
                           DemoPdf.renderPDF_raises
                           612%float 792%float DemoPdf.forty
                           30%float 36%float 36%float
      = Ok [{| pagesize := (612%float, 792%float);
               drawn := [centred 30%float 36%float 36%float rendered] |}] /\
      scale_factor = py_min (30 / 21.75)%float (30 / 21.75)%float /\
      width rendered = (21.75 * scale_factor)%float /\
      height rendered = (21.75 * scale_factor)%float /\
      transform rendered = [] ++ [(scale_factor, scale_factor)])
  /\
  (exists (rendered : Drawing float DemoPdf.Shape) (box w h : Q),
      build_overlay_vector DemoPdf.segno_make DemoPdf.svg2rlg
                           DemoPdf.renderPDF_raises
                           612%float 792%float DemoPdf.forty
                           30%float 36%float 36%float
      = Ok [{| pagesize := (612%float, 792%float);
               drawn := [centred 30%float 36%float 36%float rendered] |}] /\
      float_value 30%float = Some box /\
      float_value (width rendered) = Some w /\
      float_value (height rendered) = Some h /\
      (0 < w <= box * rounding_factor * rounding_factor)%Q /\
      (0 < h <= box * rounding_factor * rounding_factor)%Q)
  /\
  (exists rendered : Drawing Q unit,
      build_overlay_vector
        (fun _ : str => Some tt)
        (fun _ : unit => Some {| width := 29%Q; height := 29%Q;
                                 transform := []; contents := tt |})
        (fun _ _ _ => None)
        612%Q 792%Q DemoPdf.forty 30%Q 36%Q 36%Q
      = Ok [{| pagesize := (612%Q, 792%Q);
               drawn := [centred 30%Q 36%Q 36%Q rendered] |}] /\
      (width rendered <= 30)%Q /\
      (height rendered <= 30)%Q).
Proof.
  split; [|split].
  - exact (proj1 fit_is_uniform_and_bounded_up_to_rounding
                 float float64 DemoPdf.QRCode DemoPdf.Shape
                 DemoPdf.segno_make DemoPdf.svg2rlg DemoPdf.renderPDF_raises
                 612%float 792%float DemoPdf.forty
                 30%float 36%float 36%float 29%float
                 {| width := 21.75%float; height := 21.75%float;
                    transform := []; contents := 29%float |}
                 eq_refl eq_refl eq_refl eq_refl eq_refl).
  - exact (proj1 (proj2 fit_is_uniform_and_bounded_up_to_rounding)
                 DemoPdf.QRCode DemoPdf.Shape
                 DemoPdf.segno_make DemoPdf.svg2rlg DemoPdf.renderPDF_raises
                 612%float 792%float DemoPdf.forty
                 30%float 36%float 36%float 29%float
                 {| width := 21.75%float; height := 21.75%float;
                    transform := []; contents := 29%float |}
                 eq_refl eq_refl eq_refl eq_refl eq_refl eq_refl).
  - exact (proj2 (proj2 fit_is_uniform_and_bounded_up_to_rounding)
                 unit unit
                 (fun _ : str => Some tt)
                 (fun _ : unit => Some {| width := 29%Q; height := 29%Q;
                                          transform := []; contents := tt |})
                 (fun _ _ _ => None)
                 612%Q 792%Q DemoPdf.forty 30%Q 36%Q 36%Q tt
                 {| width := 29%Q; height := 29%Q;
                    transform := []; contents := tt |}
                 eq_refl eq_refl eq_refl eq_refl eq_refl).
Defined.

(** The figures of the rendered side of that symbol: it is the float
    next above 30, [30 + 2 ^ -48]. *)
Example rendered_side_is_one_step_above_box :
  float_value (21.75 * py_min (30 / 21.75) (30 / 21.75))%float
  = Some (finite_value 8444249301319681 (-48)) /\
  float_value 30%float = Some (finite_value 8444249301319680 (-48)).
Proof. split; vm_compute; reflexivity. Qed.

(** ** Document merger: facts *)

Lemma truthy_nonempty (s : str) : truthy s = true <-> s <> [].
Proof. destruct s; simpl; split; congruence. Qed.

Lemma has_payload_strip (r : str) : has_payload r = truthy (strip r).
Proof. destruct r; reflexivity. Qed.

Lemma has_payload_iff (r : str) : has_payload r = true <-> strip r <> [].
Proof. rewrite has_payload_strip. apply truthy_nonempty. Qed.

Lemma has_payload_false (r : str) : has_payload r = false <-> strip r = [].
Proof.
  rewrite has_payload_strip. destruct (strip r); simpl; split; congruence.
Qed.

Lemma set_nth_app {X : Type} (done rest : list X) (x y : X) :
  set_nth (length done) x (done ++ y :: rest) = done ++ x :: rest.
Proof. induction done as [|z done IH]; simpl; [|rewrite IH]; reflexivity. Qed.

Lemma map_snd_combine {X Y : Type} (l1 : list X) (l2 : list Y) :
  length l1 = length l2 -> map snd (combine l1 l2) = l2.
Proof.
  revert l2; induction l1 as [|a l1 IH]; intros [|b l2]; simpl;
    try discriminate; [reflexivity|].
  intros [= H]. rewrite IH by assumption. reflexivity.
Qed.

Lemma nth_error_combine {X Y : Type} (l1 : list X) (l2 : list Y)
      (i : nat) (a : X) (b : Y) :
  nth_error l1 i = Some a -> nth_error l2 i = Some b ->
  nth_error (combine l1 l2) i = Some (a, b).
Proof.
  revert l2 i; induction l1 as [|a' l1 IH]; intros [|b' l2] [|i]; simpl;
    try discriminate.
  - intros [= ->] [= ->]. reflexivity.
  - apply IH.
Qed.

Lemma Forall2_nth_error {X Y : Type} (R : X -> Y -> Prop)
      (l1 : list X) (l2 : list Y) (i : nat) (a : X) :
  Forall2 R l1 l2 -> nth_error l1 i = Some a ->
  exists b, nth_error l2 i = Some b /\ R a b.
Proof.
  intros H; revert i; induction H as [|x y l1 l2 Hxy _ IH]; intros [|i];
    simpl; try discriminate.
  - intros [= ->]. exists y. split; [reflexivity | assumption].
  - apply IH.
Qed.

Section MergerFacts.

Context {num : Type} {A : Arith num}.
Variables QRCode Shape Body Stream : Type.
Variable segno_make : str -> option QRCode.
Variable svg2rlg : QRCode -> option (Drawing num Shape).
Variable renderPDF_raises : Drawing num Shape -> num -> num -> option exn.
Variable PdfReader : Stream -> option (list (Page num Shape Body)).
Variables qr_size_pts x_pos y_pos : num.

Local Notation "'page'" := (Page num Shape Body).
Local Notation "'round'" :=
  (composite (Body := Body) segno_make svg2rlg renderPDF_raises qr_size_pts
      x_pos y_pos).
Local Notation "'loop'" :=
  (merge_loop (Body := Body) segno_make svg2rlg renderPDF_raises qr_size_pts
      x_pos y_pos).

(** Rounds that all succeed give one page each. *)
Lemma rounds_all_succeed (todo : list (str * page)) :
  (forall rp, In rp todo -> exists p', round rp = Ok p') ->
  exists outs, Forall2 (fun rp p' => round rp = Ok p') todo outs.
Proof.
  induction todo as [|rp todo IH]; intros H.
  - exists []. constructor.
  - destruct (H rp (or_introl eq_refl)) as [p' Hp'].
    destruct IH as [outs Houts]; [intros rp' Hin; apply H; right; exact Hin|].
    exists (p' :: outs). constructor; assumption.
Qed.

(** One round of the loop, on the page that follows [done]. *)
Lemma merge_loop_round (r : str) (p p' : page) (rest : list (str * page))
      (done : list page) (others wr : list page) :
  round (r, p) = Ok p' ->
  loop ((r, p) :: rest) (length done)
       {| reader_pages := done ++ p :: others; writer_pages := wr |}
  = loop rest (S (length done))
         {| reader_pages := done ++ p' :: others; writer_pages := wr ++ [p'] |}.
Proof.
  unfold composite. cbn [merge_loop]. unfold bind at 1 2.
  destruct (has_payload r).
  - destruct (build_overlay_vector _ _ _ _ _ _ _ _ _) as [[|ov more]|e] eqn:B;
      try discriminate.
    intros [= <-].
    unfold bind, of_result, or_raise, store_page, add_page, ret.
    cbn [nth_error reader_pages writer_pages]. rewrite set_nth_app.
    reflexivity.
  - intros [= <-]. unfold ret, add_page. reflexivity.
Qed.

Lemma merge_loop_ok (todo : list (str * page)) (outs : list page) :
  Forall2 (fun rp p' => round rp = Ok p') todo outs ->
  forall done wr,
    loop todo (length done)
         {| reader_pages := done ++ map snd todo; writer_pages := wr |}
    = ({| reader_pages := done ++ outs; writer_pages := wr ++ outs |}, Ok tt).
Proof.
  induction 1 as [|[r p] p' todo outs Hp _ IH]; intros done wr.
  - cbn [map merge_loop]. unfold ret. rewrite !app_nil_r. reflexivity.
  - cbn [map snd]. rewrite (merge_loop_round r p p' _ _ _ _ Hp).
    replace (S (length done)) with (length (done ++ [p']))
      by (rewrite length_app; simpl; lia).
    replace (done ++ p' :: map snd todo) with ((done ++ [p']) ++ map snd todo)
      by (rewrite <- app_assoc; reflexivity).
    rewrite IH, <- !app_assoc. reflexivity.
Qed.

Lemma merge_loop_fail (pre post : list (str * page)) (rp : str * page)
      (outs : list page) (e : exn) :
  Forall2 (fun rp p' => round rp = Ok p') pre outs ->
  round rp = Raise e ->
  forall done wr,
    loop (pre ++ rp :: post) (length done)
         {| reader_pages := done ++ map snd (pre ++ rp :: post);
            writer_pages := wr |}
    = ({| reader_pages := done ++ outs ++ map snd (rp :: post);
          writer_pages := wr ++ outs |}, Raise e).
Proof.
  intros Hpre Hrp.
  induction Hpre as [|[r p] p' pre outs Hp _ IH]; intros done wr.
  - destruct rp as [r p]. cbn [app map snd merge_loop].
    unfold composite in Hrp. unfold bind at 1 2.
    destruct (has_payload r); [|discriminate].
    destruct (build_overlay_vector _ _ _ _ _ _ _ _ _) as [[|ov more]|e'] eqn:B;
      try discriminate;
      injection Hrp as <-; unfold bind, of_result, or_raise, raise;
      cbn [nth_error]; rewrite app_nil_r; reflexivity.
  - cbn [app map snd]. rewrite (merge_loop_round r p p' _ _ _ _ Hp).
    replace (S (length done)) with (length (done ++ [p']))
      by (rewrite length_app; simpl; lia).
    replace (done ++ p' :: map snd (pre ++ rp :: post))
      with ((done ++ [p']) ++ map snd (pre ++ rp :: post))
      by (rewrite <- app_assoc; reflexivity).
    rewrite IH, <- !app_assoc. reflexivity.
Qed.

(** The start of a call on a readable document. *)
Lemma merge_start (pdf_stream : Stream) (csv_rows : list str)
      (pages : list page) :
  PdfReader pdf_stream = Some pages ->
  merge segno_make svg2rlg renderPDF_raises PdfReader pdf_stream csv_rows
        qr_size_pts x_pos y_pos
  = if (length csv_rows =? length pages)%nat
    then match loop (combine csv_rows pages) 0
                    {| reader_pages := pages; writer_pages := [] |} with
         | (st, Ok _) => (st, Ok (writer_pages st))
         | (st, Raise e) => (st, Raise e)
         end
    else ({| reader_pages := pages; writer_pages := [] |},
          Raise rows_pages_mismatch).
Proof.
  intros Hread. unfold merge, place_qrs_on_pdf_stream, bind at 1 2.
  rewrite Hread. unfold or_raise, ret, put.
  destruct (length csv_rows =? length pages)%nat; cbn [negb];
    [|reflexivity].
  unfold bind. destruct (merge_loop _ _ _ _ _ _ _ _ _) as [st [[]|e]];
    reflexivity.
Qed.

Lemma merge_ok (pdf_stream : Stream) (csv_rows : list str)
      (pages outs : list page) :
  PdfReader pdf_stream = Some pages ->
  length csv_rows = length pages ->
  Forall2 (fun rp p' => round rp = Ok p') (combine csv_rows pages) outs ->
  merge segno_make svg2rlg renderPDF_raises PdfReader pdf_stream csv_rows
        qr_size_pts x_pos y_pos
  = ({| reader_pages := outs; writer_pages := outs |}, Ok outs).
Proof.
  intros Hread Hlen Houts. rewrite (merge_start _ _ _ Hread), Hlen, Nat.eqb_refl.
  pose proof (merge_loop_ok _ outs Houts [] []) as L.
  rewrite map_snd_combine in L by assumption. cbn [app length] in L.
  rewrite L. reflexivity.
Qed.

Lemma merge_fail (pdf_stream : Stream) (csv_rows : list str)
      (pages outs : list page) (pre post : list (str * page))
      (rp : str * page) (e : exn) :
  PdfReader pdf_stream = Some pages ->
  length csv_rows = length pages ->
  combine csv_rows pages = pre ++ rp :: post ->
  Forall2 (fun rp p' => round rp = Ok p') pre outs ->
  round rp = Raise e ->
  merge segno_make svg2rlg renderPDF_raises PdfReader pdf_stream csv_rows
        qr_size_pts x_pos y_pos
  = ({| reader_pages := outs ++ map snd (rp :: post); writer_pages := outs |},
     Raise e).
Proof.
  intros Hread Hlen Hsplit Hpre Hrp.
  rewrite (merge_start _ _ _ Hread), Hlen, Nat.eqb_refl.
  pose proof (merge_loop_fail pre post rp outs e Hpre Hrp [] []) as L.
  rewrite <- Hsplit in L. rewrite map_snd_combine in L by assumption.
  cbn [app length] in L. rewrite L. reflexivity.
Qed.

End MergerFacts.

Lemma nth_error_combine_inv {X Y : Type} (l1 : list X) (l2 : list Y)
      (i : nat) (a : X) (b : Y) :
  nth_error (combine l1 l2) i = Some (a, b) ->
  nth_error l1 i = Some a /\ nth_error l2 i = Some b.
Proof.
  revert l2 i; induction l1 as [|a' l1 IH]; intros [|b' l2] [|i]; simpl;
    try discriminate.
  - intros [= -> ->]. split; reflexivity.
  - apply IH.
Qed.

Section RoundFacts.

Context {num : Type} {A : Arith num}.
Variables QRCode Shape Body : Type.
Variable segno_make : str -> option QRCode.
Variable svg2rlg : QRCode -> option (Drawing num Shape).
Variable renderPDF_raises : Drawing num Shape -> num -> num -> option exn.
Variables qr_size_pts x_pos y_pos : num.

Local Notation "'page'" := (Page num Shape Body).
Local Notation "'round'" :=
  (composite (Body := Body) segno_make svg2rlg renderPDF_raises qr_size_pts
      x_pos y_pos).
Local Notation "'overlay_of'" :=
  (fun (r : str) (p : page) =>
     build_overlay_vector segno_make svg2rlg renderPDF_raises
                          (fst (mediabox p)) (snd (mediabox p))
                          r qr_size_pts x_pos y_pos).

Lemma round_succeeds (r : str) (p : page) :
  (strip r <> [] -> exists ov, overlay_of r p = Ok [ov]) ->
  exists p', round (r, p) = Ok p'.
Proof.
  intros H. unfold composite. destruct (has_payload r) eqn:E.
  - apply has_payload_iff in E. destruct (H E) as [ov ->]. eexists; reflexivity.
  - eexists; reflexivity.
Qed.

Lemma round_fails (r : str) (p : page) (e : exn) :
  strip r <> [] -> overlay_of r p = Raise e -> round (r, p) = Raise e.
Proof.
  intros Hr Hb. unfold composite.
  apply has_payload_iff in Hr. rewrite Hr, Hb. reflexivity.
Qed.

(** What a successful round leaves of the page. *)
Lemma round_shape (r : str) (p p' : page) :
  round (r, p) = Ok p' ->
  mediabox p' = mediabox p /\
  body p' = body p /\
  (strip r = [] -> p' = p) /\
  (strip r <> [] ->
   exists ov, overlay_of r p = Ok [ov] /\ overlays p' = overlays p ++ [ov]) /\
  ((exists ov, overlays p' = overlays p ++ [ov]) <-> strip r <> []).
Proof.
  unfold composite. destruct (has_payload r) eqn:E.
  - apply has_payload_iff in E.
    destruct (build_overlay_vector _ _ _ _ _ _ _ _ _) as [[|ov more]|e] eqn:B;
      try discriminate.
    destruct (build_overlay_pages _ _ _ _ _ _ _ _ _ _ _ _ B) as [N|[ov' N]];
      [discriminate|]. injection N as <- ->.
    intros [= <-]. cbn [merge_page mediabox body overlays].
    repeat split; try reflexivity.
    + intros N; contradiction.
    + intros _. exists ov. split; reflexivity.
    + intros _; assumption.
    + intros _. exists ov. reflexivity.
  - apply has_payload_false in E. intros [= <-].
    repeat split; try reflexivity.
    + intros N; contradiction.
    + intros [ov H]. apply (f_equal (@length _)) in H.
      rewrite length_app in H. simpl in H. lia.
    + intros N; contradiction.
Qed.

End RoundFacts.

(** ** Document merger: the specified properties *)

(** C1. For a readable document of P pages and P column values whose
    non-blank values all have an overlay that builds, the merge returns
    P pages in source order: output page [i] has the media box and the
    content of source page [i]; it is source page [i] itself when value
    [i] is blank after trimming, and source page [i] with the overlay
    built from value [i] merged on top otherwise; so it carries a new
    overlay exactly when value [i] is not blank. *)
Theorem merge_keeps_every_page
        {num : Type} {A : Arith num} (QRCode Shape Body Stream : Type)
        (segno_make : str -> option QRCode)
        (svg2rlg : QRCode -> option (Drawing num Shape))
        (renderPDF_raises : Drawing num Shape -> num -> num -> option exn)
        (PdfReader : Stream -> option (list (Page num Shape Body)))
        (pdf_stream : Stream) (csv_rows : list str)
        (pages : list (Page num Shape Body))
        (qr_size_pts x_pos y_pos : num) :
  PdfReader pdf_stream = Some pages ->
  length csv_rows = length pages ->
  (forall i r p,
      nth_error csv_rows i = Some r -> nth_error pages i = Some p ->
      strip r <> [] ->
      exists ov,
        build_overlay_vector segno_make svg2rlg renderPDF_raises
                             (fst (mediabox p)) (snd (mediabox p))
                             r qr_size_pts x_pos y_pos = Ok [ov]) ->
  exists out,
    snd (merge segno_make svg2rlg renderPDF_raises PdfReader pdf_stream csv_rows
               qr_size_pts x_pos y_pos) = Ok out /\
    length out = length pages /\
    forall i r p,
      nth_error csv_rows i = Some r -> nth_error pages i = Some p ->
      exists p',
        nth_error out i = Some p' /\
        mediabox p' = mediabox p /\
        body p' = body p /\
        (strip r = [] -> p' = p) /\
        (strip r <> [] ->
         exists ov,
           build_overlay_vector segno_make svg2rlg renderPDF_raises
                                (fst (mediabox p)) (snd (mediabox p))
                                r qr_size_pts x_pos y_pos = Ok [ov] /\
           overlays p' = overlays p ++ [ov]) /\
        ((exists ov, overlays p' = overlays p ++ [ov]) <-> strip r <> []).
Proof.
  intros Hread Hlen Hbuild.
  destruct (rounds_all_succeed QRCode Shape Body segno_make svg2rlg
      renderPDF_raises
              qr_size_pts x_pos y_pos (combine csv_rows pages))
    as [outs Houts].
  { intros [r p] Hin. apply In_nth_error in Hin. destruct Hin as [i Hi].
    apply nth_error_combine_inv in Hi. destruct Hi as [Hr Hp].
    apply round_succeeds. intros Hne. exact (Hbuild i r p Hr Hp Hne). }
  exists outs.
  rewrite (merge_ok QRCode Shape Body Stream segno_make svg2rlg renderPDF_raises
             PdfReader qr_size_pts x_pos y_pos pdf_stream csv_rows pages outs
             Hread Hlen Houts).
  split; [reflexivity|]. split.
  - rewrite <- (Forall2_length Houts), length_combine, Hlen.
    apply Nat.min_id.
  - intros i r p Hr Hp.
    destruct (Forall2_nth_error _ _ _ i _ Houts
                                (nth_error_combine _ _ _ _ _ Hr Hp))
      as (p' & Hp' & Hround).
    exists p'. split; [exact Hp'|].
    exact (round_shape _ _ _ _ _ _ _ _ _ _ _ _ Hround).
Qed.

(** The scenario of the specification: three pages and the values
    [123], blank, [456]. *)
Lemma merge_keeps_every_page_witness :
  exists out,
    snd (DemoPdf.merge [DemoPdf.letter 0; DemoPdf.letter 1; DemoPdf.letter 2]
                       [of_string "123"; []; of_string "456"]
                       80%float 36%float 36%float) = Ok out /\
    length out = 3%nat /\
    forall i r p,
      nth_error [of_string "123"; []; of_string "456"] i = Some r ->
      nth_error [DemoPdf.letter 0; DemoPdf.letter 1; DemoPdf.letter 2] i
      = Some p ->
      exists p',
        nth_error out i = Some p' /\
        mediabox p' = mediabox p /\
        body p' = body p /\
        (strip r = [] -> p' = p) /\
        (strip r <> [] ->
         exists ov,
           build_overlay_vector DemoPdf.segno_make DemoPdf.svg2rlg
               DemoPdf.renderPDF_raises
                                (fst (mediabox p)) (snd (mediabox p))
                                r 80%float 36%float 36%float = Ok [ov] /\
           overlays p' = overlays p ++ [ov]) /\
        ((exists ov, overlays p' = overlays p ++ [ov]) <-> strip r <> []).
Proof.
  apply (@merge_keeps_every_page
           float float64 DemoPdf.QRCode DemoPdf.Shape DemoPdf.Body
           (list (Page float DemoPdf.Shape DemoPdf.Body))
           DemoPdf.segno_make DemoPdf.svg2rlg DemoPdf.renderPDF_raises
               DemoPdf.PdfReader
           [DemoPdf.letter 0; DemoPdf.letter 1; DemoPdf.letter 2]
           [of_string "123"; []; of_string "456"]
           [DemoPdf.letter 0; DemoPdf.letter 1; DemoPdf.letter 2]
           80%float 36%float 36%float).
  - reflexivity.
  - reflexivity.
  - intros [|[|[|[|i]]]] r p; simpl; intros Hr Hp _;
      try discriminate Hr;
      injection Hr as <-; injection Hp as <-;
      eexists; vm_compute; reflexivity.
Defined.

Example scenario_merge :
  option_map (map (fun p => length (overlays p)))
             (match snd (DemoPdf.merge
                           [DemoPdf.letter 0; DemoPdf.letter 1;
                            DemoPdf.letter 2]
                           [of_string "123"; []; of_string "456"]
                           80%float 36%float 36%float) with
              | Ok out => Some out
              | Raise _ => None
              end)
  = Some [1; 0; 1]%nat.
Proof. vm_compute. reflexivity. Qed.

(** C2. On a readable document, a number of column values other than
    the number of pages makes the merge raise the count-mismatch error
    with every page of the reader as it was read and nothing added to
    the writer: no page has been looked at, composited or written. *)
Theorem merge_rejects_count_mismatch
        {num : Type} {A : Arith num} (QRCode Shape Body Stream : Type)
        (segno_make : str -> option QRCode)
        (svg2rlg : QRCode -> option (Drawing num Shape))
        (renderPDF_raises : Drawing num Shape -> num -> num -> option exn)
        (PdfReader : Stream -> option (list (Page num Shape Body)))
        (pdf_stream : Stream) (csv_rows : list str)
        (pages : list (Page num Shape Body))
        (qr_size_pts x_pos y_pos : num) :
  PdfReader pdf_stream = Some pages ->
  length csv_rows <> length pages ->
  merge segno_make svg2rlg renderPDF_raises PdfReader pdf_stream csv_rows
        qr_size_pts x_pos y_pos
  = ({| reader_pages := pages; writer_pages := [] |},
     Raise rows_pages_mismatch).
Proof.
  intros Hread Hlen.
  rewrite (merge_start QRCode Shape Body Stream segno_make svg2rlg
      renderPDF_raises PdfReader
                       qr_size_pts x_pos y_pos _ _ _ Hread).
  apply Nat.eqb_neq in Hlen. rewrite Hlen. reflexivity.
Qed.

(** The scenario of the specification: two values for three pages. *)
Lemma merge_rejects_count_mismatch_witness :
  DemoPdf.merge [DemoPdf.letter 0; DemoPdf.letter 1; DemoPdf.letter 2]
                [of_string "123"; of_string "456"]
                80%float 36%float 36%float
  = ({| reader_pages :=
          [DemoPdf.letter 0; DemoPdf.letter 1; DemoPdf.letter 2];
        writer_pages := [] |},
     Raise rows_pages_mismatch).
Proof.
  apply (@merge_rejects_count_mismatch
           float float64 DemoPdf.QRCode DemoPdf.Shape DemoPdf.Body
           (list (Page float DemoPdf.Shape DemoPdf.Body))
           DemoPdf.segno_make DemoPdf.svg2rlg DemoPdf.renderPDF_raises
               DemoPdf.PdfReader).
  - reflexivity.
  - simpl. lia.
Defined.

Lemma skipn_length_app {X : Type} (l1 l2 : list X) :
  skipn (length l1) (l1 ++ l2) = l2.
Proof. induction l1 as [|a l1 IH]; simpl; [reflexivity | exact IH]. Qed.

(** C6 as stated does not hold: no function of the raised exception
    gives the index of the failing page. On a document of two pages the
    merge raises the same [SegnoError] whether the overlay that fails is
    that of page 0 or that of page 1. *)
Lemma failing_page_index_is_lost :
  ~ exists page_index : exn -> nat, failure_names_page page_index.
Proof.
  intros [page_index H].
  assert (first_failure DemoPdf.segno_make DemoPdf.svg2rlg
      DemoPdf.renderPDF_raises
                        80%float 36%float 36%float
                        (combine [DemoPdf.too_long; of_string "456"]
                                 two_pages) 0 = Some 0%nat) as F0
      by (vm_compute; reflexivity).
  assert (first_failure DemoPdf.segno_make DemoPdf.svg2rlg
      DemoPdf.renderPDF_raises
                        80%float 36%float 36%float
                        (combine [of_string "123"; DemoPdf.too_long]
                                 two_pages) 0 = Some 1%nat) as F1
      by (vm_compute; reflexivity).
  destruct (H [DemoPdf.too_long; of_string "456"] 0%nat eq_refl F0)
    as (e0 & R0 & I0).
  destruct (H [of_string "123"; DemoPdf.too_long] 1%nat eq_refl F1)
    as (e1 & R1 & I1).
  assert (snd (DemoPdf.merge two_pages [DemoPdf.too_long; of_string "456"]
                             80%float 36%float 36%float)
          = Raise SegnoError) as M0 by (vm_compute; reflexivity).
  assert (snd (DemoPdf.merge two_pages [of_string "123"; DemoPdf.too_long]
                             80%float 36%float 36%float)
          = Raise SegnoError) as M1 by (vm_compute; reflexivity).
  rewrite M0 in R0. rewrite M1 in R1.
  injection R0 as <-. injection R1 as <-. congruence.
Qed.

(** A round that raises at page [i], after rounds that succeed, ends
    the merge there with what it raised. *)
Lemma merge_aborts_at
      {num : Type} {A : Arith num} (QRCode Shape Body Stream : Type)
      (segno_make : str -> option QRCode)
      (svg2rlg : QRCode -> option (Drawing num Shape))
      (renderPDF_raises : Drawing num Shape -> num -> num -> option exn)
      (PdfReader : Stream -> option (list (Page num Shape Body)))
      (pdf_stream : Stream) (csv_rows : list str)
      (pages : list (Page num Shape Body))
      (qr_size_pts x_pos y_pos : num)
      (i : nat) (r : str) (p : Page num Shape Body) (e : exn) :
  PdfReader pdf_stream = Some pages ->
  length csv_rows = length pages ->
  nth_error csv_rows i = Some r ->
  nth_error pages i = Some p ->
  composite segno_make svg2rlg renderPDF_raises qr_size_pts x_pos y_pos (r, p)
      = Raise e ->
  (forall j r' p',
      (j < i)%nat ->
      nth_error csv_rows j = Some r' -> nth_error pages j = Some p' ->
      strip r' <> [] ->
      exists ov,
        build_overlay_vector segno_make svg2rlg renderPDF_raises
                             (fst (mediabox p')) (snd (mediabox p'))
                             r' qr_size_pts x_pos y_pos = Ok [ov]) ->
  exists st,
    merge segno_make svg2rlg renderPDF_raises PdfReader pdf_stream csv_rows
          qr_size_pts x_pos y_pos = (st, Raise e) /\
    length (writer_pages st) = i /\
    skipn i (reader_pages st) = skipn i pages.
Proof.
  intros Hread Hlen Hr Hp Hround Hbefore.
  pose proof (nth_error_combine _ _ _ _ _ Hr Hp) as Hc.
  destruct (nth_error_split _ _ Hc) as (pre & post & Hsplit & Hpre).
  destruct (rounds_all_succeed QRCode Shape Body segno_make svg2rlg
      renderPDF_raises
              qr_size_pts x_pos y_pos pre) as [outs Houts].
  { intros [r' p'] Hin. apply In_nth_error in Hin. destruct Hin as [j Hj].
    assert (j < i)%nat as Hlt
        by (rewrite <- Hpre; apply nth_error_Some; congruence).
    assert (nth_error (combine csv_rows pages) j = Some (r', p')) as Hj'
        by (rewrite Hsplit, nth_error_app1 by (rewrite Hpre; exact Hlt);
            exact Hj).
    apply nth_error_combine_inv in Hj'. destruct Hj' as [Hr' Hp'].
    apply round_succeeds. intros Hne'.
    exact (Hbefore j r' p' Hlt Hr' Hp' Hne'). }
  eexists. split.
  - exact (merge_fail QRCode Shape Body Stream segno_make svg2rlg
      renderPDF_raises PdfReader
                      qr_size_pts x_pos y_pos pdf_stream csv_rows pages outs
                      pre post (r, p) e Hread Hlen Hsplit Houts Hround).
  - cbn [writer_pages reader_pages].
    assert (length outs = i) as Houtlen
        by (rewrite <- (Forall2_length Houts); exact Hpre).
    split; [exact Houtlen|].
    rewrite <- Houtlen at 1. rewrite skipn_length_app.
    rewrite <- (map_snd_combine csv_rows pages Hlen), Hsplit, map_app.
    rewrite <- Hpre, <- (length_map snd pre), skipn_length_app.
    reflexivity.
Qed.

(** C6, amended. When the overlay of page [i] fails to build with an
    exception [e] and the overlays of the pages before it build, the
    merge raises that same [e], as the builder raised it, and returns no
    document; the loop stops at page [i]: the writer, which is dropped,
    holds the [i] pages before it, and the pages of the reader from [i]
    on are as they were read. *)
Theorem overlay_failure_aborts_merge
        {num : Type} {A : Arith num} (QRCode Shape Body Stream : Type)
        (segno_make : str -> option QRCode)
        (svg2rlg : QRCode -> option (Drawing num Shape))
        (renderPDF_raises : Drawing num Shape -> num -> num -> option exn)
        (PdfReader : Stream -> option (list (Page num Shape Body)))
        (pdf_stream : Stream) (csv_rows : list str)
        (pages : list (Page num Shape Body))
        (qr_size_pts x_pos y_pos : num)
        (i : nat) (r : str) (p : Page num Shape Body) (e : exn) :
  PdfReader pdf_stream = Some pages ->
  length csv_rows = length pages ->
  nth_error csv_rows i = Some r ->
  nth_error pages i = Some p ->
  strip r <> [] ->
  build_overlay_vector segno_make svg2rlg renderPDF_raises
                       (fst (mediabox p)) (snd (mediabox p))
                       r qr_size_pts x_pos y_pos = Raise e ->
  (forall j r' p',
      (j < i)%nat ->
      nth_error csv_rows j = Some r' -> nth_error pages j = Some p' ->
      strip r' <> [] ->
      exists ov,
        build_overlay_vector segno_make svg2rlg renderPDF_raises
                             (fst (mediabox p')) (snd (mediabox p'))
                             r' qr_size_pts x_pos y_pos = Ok [ov]) ->
  exists st,
    merge segno_make svg2rlg renderPDF_raises PdfReader pdf_stream csv_rows
          qr_size_pts x_pos y_pos = (st, Raise e) /\
    length (writer_pages st) = i /\
    skipn i (reader_pages st) = skipn i pages.
Proof.
  intros Hread Hlen Hr Hp Hne Hfail Hbefore.
  apply (merge_aborts_at QRCode Shape Body Stream segno_make svg2rlg
      renderPDF_raises
                         PdfReader pdf_stream csv_rows pages
                         qr_size_pts x_pos y_pos i r p e); trivial.
  apply round_fails; assumption.
Qed.

(** Two pages, the second value too long for any symbol: the merge
    raises the encoder's error after one page. *)
Lemma overlay_failure_aborts_merge_witness :
  exists st,
    DemoPdf.merge two_pages [of_string "123"; DemoPdf.too_long]
                  80%float 36%float 36%float = (st, Raise SegnoError) /\
    length (writer_pages st) = 1%nat /\
    skipn 1 (reader_pages st) = skipn 1 two_pages.
Proof.
  apply (@overlay_failure_aborts_merge
           float float64 DemoPdf.QRCode DemoPdf.Shape DemoPdf.Body
           (list (Page float DemoPdf.Shape DemoPdf.Body))
           DemoPdf.segno_make DemoPdf.svg2rlg DemoPdf.renderPDF_raises
               DemoPdf.PdfReader
           two_pages [of_string "123"; DemoPdf.too_long] two_pages
           80%float 36%float 36%float
           1%nat DemoPdf.too_long (DemoPdf.letter 1) SegnoError).
  - reflexivity.
  - reflexivity.
  - reflexivity.
  - reflexivity.
  - vm_compute. discriminate.
  - vm_compute. reflexivity.
  - intros [|j] r' p' Hlt; [|lia]. simpl. intros Hr Hp _.
    injection Hr as <-. injection Hp as <-.
    eexists. vm_compute. reflexivity.
Defined.

(** C9. The builder run on the value [123] with a converter that finds
    no drawing: it does not raise, but the buffer it returns holds no
    page at all, where the function is documented to create a
    single-page overlay; the canvas is saved without [showPage], and
    nothing was drawn on it. The merge of a one-page document with that
    value then raises [IndexError] at [overlay_pdf.pages[0]] and returns
    no document, instead of leaving the page without a code. *)
Theorem missing_drawing_gives_no_page :
  build_overlay_vector DemoPdf.segno_make DemoPdf.svg2rlg_none
                       DemoPdf.renderPDF_raises
                       612%float 792%float (of_string "123")
                       80%float 36%float 36%float = Ok []
  /\
  snd (merge DemoPdf.segno_make DemoPdf.svg2rlg_none
             DemoPdf.renderPDF_raises DemoPdf.PdfReader
             [DemoPdf.letter 0] [of_string "123"]
             80%float 36%float 36%float) = Raise IndexError.
Proof. split; vm_compute; reflexivity. Qed.

(** The same for any libraries: when the symbol is made but the
    converter returns no drawing, the builder saves the canvas with
    nothing drawn on it and returns the buffer, which then holds no
    page. In a merge, looking up the first page of that overlay for page
    [i] raises [IndexError], which ends the merge there when the
    overlays of the pages before it build. *)
Theorem missing_drawing_aborts_merge
        {num : Type} {A : Arith num} (QRCode Shape Body Stream : Type)
        (segno_make : str -> option QRCode)
        (svg2rlg : QRCode -> option (Drawing num Shape))
        (renderPDF_raises : Drawing num Shape -> num -> num -> option exn)
        (PdfReader : Stream -> option (list (Page num Shape Body)))
        (pdf_stream : Stream) (csv_rows : list str)
        (pages : list (Page num Shape Body))
        (qr_size_pts x_pos y_pos : num)
        (i : nat) (r : str) (p : Page num Shape Body) (qr : QRCode) :
  segno_make r = Some qr ->
  svg2rlg qr = None ->
  (forall page_width page_height qr_size x y,
      build_overlay_vector segno_make svg2rlg renderPDF_raises page_width
          page_height
                           r qr_size x y = Ok [])
  /\
  (PdfReader pdf_stream = Some pages ->
   length csv_rows = length pages ->
   nth_error csv_rows i = Some r ->
   nth_error pages i = Some p ->
   strip r <> [] ->
   (forall j r' p',
       (j < i)%nat ->
       nth_error csv_rows j = Some r' -> nth_error pages j = Some p' ->
       strip r' <> [] ->
       exists ov,
         build_overlay_vector segno_make svg2rlg renderPDF_raises
                              (fst (mediabox p')) (snd (mediabox p'))
                              r' qr_size_pts x_pos y_pos = Ok [ov]) ->
   exists st,
     merge segno_make svg2rlg renderPDF_raises PdfReader pdf_stream csv_rows
           qr_size_pts x_pos y_pos = (st, Raise IndexError) /\
     length (writer_pages st) = i /\
     skipn i (reader_pages st) = skipn i pages).
Proof.
  intros Hqr Hd.
  assert (forall page_width page_height qr_size x y,
             build_overlay_vector segno_make svg2rlg renderPDF_raises
                 page_width page_height
                                  r qr_size x y = Ok []) as Hbuild.
  { intros. rewrite build_overlay_outcome, Hqr, Hd. reflexivity. }
  split; [exact Hbuild|].
  intros Hread Hlen Hr Hp Hne Hbefore.
  apply (merge_aborts_at QRCode Shape Body Stream segno_make svg2rlg
      renderPDF_raises
                         PdfReader pdf_stream csv_rows pages
                         qr_size_pts x_pos y_pos i r p IndexError); trivial.
  unfold composite. apply has_payload_iff in Hne. rewrite Hne, Hbuild.
  reflexivity.
Qed.

(** A converter that finds no drawing: the buffer has no page and the
    merge of a one-page document raises [IndexError]. *)
Lemma missing_drawing_aborts_merge_witness :
  build_overlay_vector DemoPdf.segno_make DemoPdf.svg2rlg_none
      DemoPdf.renderPDF_raises
                       612%float 792%float (of_string "123")
                       80%float 36%float 36%float = Ok []
  /\
  exists st,
    merge DemoPdf.segno_make DemoPdf.svg2rlg_none DemoPdf.renderPDF_raises
        DemoPdf.PdfReader
          [DemoPdf.letter 0] [of_string "123"] 80%float 36%float 36%float
    = (st, Raise IndexError) /\
    length (writer_pages st) = 0%nat /\
    skipn 0 (reader_pages st) = skipn 0 [DemoPdf.letter 0].
Proof.
  destruct (@missing_drawing_aborts_merge
              float float64 DemoPdf.QRCode DemoPdf.Shape DemoPdf.Body
              (list (Page float DemoPdf.Shape DemoPdf.Body))
              DemoPdf.segno_make DemoPdf.svg2rlg_none DemoPdf.renderPDF_raises
                  DemoPdf.PdfReader
              [DemoPdf.letter 0] [of_string "123"] [DemoPdf.letter 0]
              80%float 36%float 36%float
              0%nat (of_string "123") (DemoPdf.letter 0) 13%float
              eq_refl eq_refl)
    as [Hb Hm].
  split; [apply Hb|].
  apply Hm; try reflexivity.
  - vm_compute. discriminate.
  - intros j r' p' Hlt. lia.
Defined.

(** * Further properties of the code *)

(** ** Trimming *)

Lemma forallb_rev {X : Type} (f : X -> bool) (l : list X) :
  forallb f (rev l) = forallb f l.
Proof.
  induction l as [|a l IH]; [reflexivity|].
  cbn [rev]. rewrite forallb_app, IH. cbn [forallb].
  rewrite andb_true_r. apply andb_comm.
Qed.

Lemma lstrip_nil_iff (s : str) :
  lstrip s = [] <-> forallb isspace s = true.
Proof.
  induction s as [|c s IH]; cbn [lstrip forallb]; [tauto|].
  destruct (isspace c); cbn [andb]; [exact IH|]. split; discriminate.
Qed.

Lemma lstrip_head (s : str) (c : N) (t : str) :
  lstrip s = c :: t -> isspace c = false.
Proof.
  induction s as [|a s IH]; cbn [lstrip]; [discriminate|].
  destruct (isspace a) eqn:E; [exact IH|]. intros [= <- _]. exact E.
Qed.

Lemma lstrip_fixed (s : str) :
  (forall c t, s = c :: t -> isspace c = false) -> lstrip s = s.
Proof.
  destruct s as [|c t]; [reflexivity|]. intros H. cbn [lstrip].
  rewrite (H c t eq_refl). reflexivity.
Qed.

Lemma lstrip_split (s : str) :
  exists pre, s = pre ++ lstrip s /\ forallb isspace pre = true.
Proof.
  induction s as [|c s (pre & E & H)]; [exists []; split; reflexivity|].
  cbn [lstrip]. destruct (isspace c) eqn:C.
  - exists (c :: pre). cbn [app forallb]. rewrite C, H, <- E.
    split; reflexivity.
  - exists []. split; reflexivity.
Qed.

(** A string is its trimmed form between two runs of white space. *)
Lemma strip_split (s : str) :
  exists pre suf,
    s = pre ++ strip s ++ suf /\
    forallb isspace pre = true /\ forallb isspace suf = true.
Proof.
  destruct (lstrip_split s) as (pre & Es & Hpre).
  destruct (lstrip_split (rev (lstrip s))) as (fus & Er & Hfus).
  exists pre, (rev fus). unfold strip, rstrip.
  rewrite forallb_rev. repeat split; trivial.
  rewrite <- rev_app_distr, <- Er, rev_involutive. exact Es.
Qed.

Lemma strip_head (s : str) (c : N) (t : str) :
  strip s = c :: t -> isspace c = false.
Proof.
  intros E. destruct (lstrip_split (rev (lstrip s))) as (fus & Er & _).
  apply (f_equal (@rev N)) in Er.
  rewrite rev_involutive, rev_app_distr in Er.
  change (rev (lstrip (rev (lstrip s)))) with (strip s) in Er.
  rewrite E in Er. cbn [app] in Er. exact (lstrip_head s c _ Er).
Qed.

Lemma strip_idempotent (s : str) : strip (strip s) = strip s.
Proof.
  assert (lstrip (strip s) = strip s) as L
      by (apply lstrip_fixed; intros c t E; exact (strip_head s c t E)).
  unfold strip at 1. rewrite L. unfold strip, rstrip.
  rewrite rev_involutive.
  rewrite (lstrip_fixed (lstrip (rev (lstrip s))));
    [reflexivity|].
  intros c t E. exact (lstrip_head _ c t E).
Qed.

Lemma strip_nil_iff (s : str) :
  strip s = [] <-> forallb isspace s = true.
Proof.
  split.
  - intros E. destruct (strip_split s) as (pre & suf & Es & Hpre & Hsuf).
    rewrite Es, E, !forallb_app, Hpre, Hsuf. reflexivity.
  - intros H. apply lstrip_nil_iff in H. unfold strip. rewrite H.
    reflexivity.
Qed.

(** X1. The test [row_data and row_data.strip()] of the merger, which
    the QR preview repeats, fails exactly on the values made of white
    space only, the empty value among them. *)
Theorem payload_test_fails_on_white_space_only (row_data : str) :
  has_payload row_data = false <->
  (forall c, In c row_data -> isspace c = true).
Proof.
  rewrite has_payload_false, strip_nil_iff. apply forallb_forall.
Qed.

(** ** Tabular extractor: further properties *)

Lemma aligned_value_trimmed (k : nat) (row : list str) :
  strip (aligned_value k row) = aligned_value k row.
Proof.
  unfold aligned_value.
  destruct ((length row =? 0) || (length row <=? k))%nat;
    [reflexivity | apply strip_idempotent].
Qed.

(** X2. Every value the extractor returns is already trimmed: trimming
    it again changes nothing, so the merger's test on it comes down to
    the value not being empty. *)
Theorem extracted_values_are_trimmed
        (sniff : str -> option N)
        (csv_reader : str -> N -> option (list (list str)))
        (fs : FileStorage) (column_name : str) (out : list str) :
  snd (read_csv_column_by_name sniff csv_reader column_name fs) = Ok out ->
  Forall (fun v => strip v = v /\ has_payload v = truthy v) out.
Proof.
  rewrite read_csv_outcome.
  destruct (Utf8.decode (unread fs)) as [data|]; [|discriminate].
  cbn [snd].
  destruct (csv_reader data _) as [[|header rows]|]; try discriminate.
  destruct (index _ _) as [k|]; [|discriminate].
  intros [= <-]. apply Forall_forall. intros v Hin.
  apply in_map_iff in Hin. destruct Hin as (row & <- & _).
  split; [apply aligned_value_trimmed|].
  rewrite has_payload_strip, aligned_value_trimmed. reflexivity.
Qed.

(** A table whose cells carry white space around them. *)
Lemma extracted_values_are_trimmed_witness :
  Forall (fun v => strip v = v /\ has_payload v = truthy v)
         [of_string "123"; []].
Proof.
  exact (extracted_values_are_trimmed
           Demo.sniff Demo.csv_reader
           (Demo.upload "Name, Code
A,  123 
B,   
")
           (of_string "Code") [of_string "123"; []] eq_refl).
Defined.

(** X3. When several header cells match the requested name, the values
    come from the leftmost of them: the column read is the first whose
    trimmed header equals the trimmed name. *)
Theorem leftmost_matching_column_is_read
        (sniff : str -> option N)
        (csv_reader : str -> N -> option (list (list str)))
        (fs : FileStorage) (column_name : str) (out : list str) :
  snd (read_csv_column_by_name sniff csv_reader column_name fs) = Ok out ->
  exists data header data_rows k,
    Utf8.decode (unread fs) = Some data /\
    csv_reader data (detect_delimiter sniff data)
    = Some (header :: data_rows) /\
    nth_error (map strip header) k = Some (strip column_name) /\
    (forall j, (j < k)%nat ->
               nth_error (map strip header) j <> Some (strip column_name)) /\
    out = map (aligned_value k) data_rows.
Proof.
  rewrite read_csv_outcome.
  destruct (Utf8.decode (unread fs)) as [data|]; [|discriminate].
  cbn [snd].
  destruct (csv_reader data _) as [[|header rows]|] eqn:R; try discriminate.
  destruct (index _ _) as [k|] eqn:I; [|discriminate].
  intros [= <-]. exists data, header, rows, k.
  destruct (index_first _ _ _ I) as [Hk Hmin]. repeat split; trivial.
Qed.

(** Two columns called [Code]: the first one is read. *)
Lemma leftmost_matching_column_is_read_witness :
  exists data header data_rows k,
    Utf8.decode (unread (Demo.upload "Code,Code
1,2
")) = Some data /\
    Demo.csv_reader data (detect_delimiter Demo.sniff data)
    = Some (header :: data_rows) /\
    nth_error (map strip header) k = Some (strip (of_string "Code")) /\
    (forall j, (j < k)%nat ->
               nth_error (map strip header) j
               <> Some (strip (of_string "Code"))) /\
    [of_string "1"] = map (aligned_value k) data_rows.
Proof.
  exact (leftmost_matching_column_is_read
           Demo.sniff Demo.csv_reader
           (Demo.upload "Code,Code
1,2
")
           (of_string "Code") [of_string "1"] eq_refl).
Defined.

Lemma rewound_at_start (fs : FileStorage) : pos fs = 0%nat -> rewound fs = fs.
Proof. destruct fs as [c p]. cbn [pos]. intros ->. reflexivity. Qed.

(** X4. A call on an upload whose unread bytes decode leaves the upload
    rewound to its start with its bytes as they were, whether the call
    returns or raises; on an upload that was at its start, a second call
    therefore gives what the first gave. *)
Theorem extract_rewinds_upload
        (sniff : str -> option N)
        (csv_reader : str -> N -> option (list (list str)))
        (fs : FileStorage) (column_name data : str) :
  Utf8.decode (unread fs) = Some data ->
  fst (read_csv_column_by_name sniff csv_reader column_name fs) = rewound fs
  /\
  (pos fs = 0%nat ->
   read_csv_column_by_name
     sniff csv_reader column_name
     (fst (read_csv_column_by_name sniff csv_reader column_name fs))
   = read_csv_column_by_name sniff csv_reader column_name fs).
Proof.
  intros Hdec.
  assert (fst (read_csv_column_by_name sniff csv_reader column_name fs)
          = rewound fs) as F
      by (rewrite read_csv_outcome, Hdec; reflexivity).
  split; [exact F|]. intros Hpos. rewrite F, (rewound_at_start fs Hpos).
  reflexivity.
Qed.

(** The scenario table, read twice. *)
Lemma extract_rewinds_upload_witness :
  fst (read_csv_column_by_name Demo.sniff Demo.csv_reader (of_string "Code")
                               (Demo.upload scenario_table))
  = rewound (Demo.upload scenario_table)
  /\
  (pos (Demo.upload scenario_table) = 0%nat ->
   read_csv_column_by_name
     Demo.sniff Demo.csv_reader (of_string "Code")
     (fst (read_csv_column_by_name Demo.sniff Demo.csv_reader
                                   (of_string "Code")
                                   (Demo.upload scenario_table)))
   = read_csv_column_by_name Demo.sniff Demo.csv_reader (of_string "Code")
                             (Demo.upload scenario_table)).
Proof.
  exact (extract_rewinds_upload
           Demo.sniff Demo.csv_reader (Demo.upload scenario_table)
           (of_string "Code") (of_string scenario_table) eq_refl).
Defined.

Lemma unread_at_end (fs : FileStorage) : unread (at_end fs) = [].
Proof.
  unfold unread, at_end. cbn [pos content]. apply skipn_all2.
  apply Nat.le_max_r.
Qed.

(** X5. A call that fails to decode leaves the upload at its end, not
    rewound. A second call on it then reads no bytes at all: with a
    reader that finds no row in an empty text, it reports an empty CSV
    instead of the decoding error, whatever the column asked for. *)
Theorem retry_after_decoding_error_sees_no_data
        (sniff : str -> option N)
        (csv_reader : str -> N -> option (list (list str)))
        (fs : FileStorage) (column_name again : str) :
  Utf8.decode (unread fs) = None ->
  csv_reader [] (detect_delimiter sniff []) = Some [] ->
  fst (read_csv_column_by_name sniff csv_reader column_name fs) = at_end fs
  /\
  read_csv_column_by_name
    sniff csv_reader again
    (fst (read_csv_column_by_name sniff csv_reader column_name fs))
  = (rewound fs, Raise csv_is_empty).
Proof.
  intros Hdec Hempty.
  assert (fst (read_csv_column_by_name sniff csv_reader column_name fs)
          = at_end fs) as F
      by (rewrite read_csv_outcome, Hdec; reflexivity).
  split; [exact F|]. rewrite F, read_csv_outcome, unread_at_end.
  cbn [Utf8.decode]. rewrite Hempty. reflexivity.
Qed.

(** The scenario table behind a byte [0xFF], read twice. *)
Lemma retry_after_decoding_error_sees_no_data_witness :
  fst (read_csv_column_by_name
         Demo.sniff Demo.csv_reader (of_string "Code")
         {| content := xff :: bytes_of_string scenario_table; pos := 0 |})
  = at_end {| content := xff :: bytes_of_string scenario_table; pos := 0 |}
  /\
  read_csv_column_by_name
    Demo.sniff Demo.csv_reader (of_string "Code")
    (fst (read_csv_column_by_name
            Demo.sniff Demo.csv_reader (of_string "Code")
            {| content := xff :: bytes_of_string scenario_table;
               pos := 0 |}))
  = (rewound {| content := xff :: bytes_of_string scenario_table; pos := 0 |},
     Raise csv_is_empty).
Proof.
  exact (retry_after_decoding_error_sees_no_data
           Demo.sniff Demo.csv_reader
           {| content := xff :: bytes_of_string scenario_table; pos := 0 |}
           (of_string "Code") (of_string "Code") eq_refl eq_refl).
Defined.

(** ** Overlay compositor: further properties *)


(** A box of side 0 around the symbol of [123]: the divisions pass, the
    scaling is by 0, and it is the renderer that raises. *)
Example empty_box_raises_in_the_renderer :
  build_overlay_vector DemoPdf.segno_make DemoPdf.svg2rlg
                       DemoPdf.renderPDF_raises
                       612%float 792%float (of_string "123")
                       0%float 36%float 36%float
  = Raise ZeroDivisionError.
Proof. vm_compute. reflexivity. Qed.

Lemma py_min_same {num : Type} {A : Arith num} (a : num) : py_min a a = a.
Proof. unfold py_min. destruct (n_lt a a); reflexivity. Qed.

(** X7. A drawing whose natural width and height are the same number,
    not zero, and which the renderer accepts, is scaled by
    [boxSize / side] and comes out with a rendered width equal to its
    rendered height, offset by the same amount on both axes; this holds
    on floats as it does in exact arithmetic. *)
Theorem square_symbol_stays_square
        {num : Type} {A : Arith num} (QRCode Shape : Type)
        (segno_make : str -> option QRCode)
        (svg2rlg : QRCode -> option (Drawing num Shape))
        (renderPDF_raises : Drawing num Shape -> num -> num -> option exn)
        (page_width page_height : num) (qr_data : str)
        (qr_size x_pos y_pos : num) (qr : QRCode) (d : Drawing num Shape) :
  segno_make qr_data = Some qr ->
  svg2rlg qr = Some d ->
  height d = width d ->
  n_is_zero (width d) = false ->
  placed_raises renderPDF_raises
                (centred qr_size x_pos y_pos (fitted qr_size d)) = None ->
  exists (rendered : Drawing num Shape) (offset : num),
    build_overlay_vector segno_make svg2rlg renderPDF_raises
                         page_width page_height
                         qr_data qr_size x_pos y_pos
    = Ok [{| pagesize := (page_width, page_height);
             drawn := [{| what := rendered;
                          at_x := (x_pos + offset)%num;
                          at_y := (y_pos + offset)%num |}] |}] /\
    width rendered = (width d * (qr_size / width d))%num /\
    height rendered = width rendered /\
    transform rendered
    = transform d ++ [((qr_size / width d)%num, (qr_size / width d)%num)].
Proof.
  intros Hqr Hd Hsq Hw Hdraw.
  exists (fitted qr_size d),
         ((qr_size - width d * (qr_size / width d)) / n_two)%num.
  rewrite build_overlay_outcome, Hqr, Hd, Hsq, Hw. cbn [orb].
  rewrite Hdraw.
  unfold centred, fitted, fit_scale. cbn [width height transform].
  rewrite Hsq, py_min_same. repeat split; reflexivity.
Qed.

(** The symbol of [123], 13 modules and 9.75 points a side, in an 80
    point box. *)
Lemma square_symbol_stays_square_witness :
  exists (rendered : Drawing float DemoPdf.Shape) (offset : float),
    build_overlay_vector DemoPdf.segno_make DemoPdf.svg2rlg
                         DemoPdf.renderPDF_raises
                         612%float 792%float (of_string "123")
                         80%float 36%float 36%float
    = Ok [{| pagesize := (612%float, 792%float);
             drawn := [{| what := rendered;
                          at_x := (36 + offset)%float;
                          at_y := (36 + offset)%float |}] |}] /\
    width rendered = (9.75 * (80 / 9.75))%float /\
    height rendered = width rendered /\
    transform rendered = [] ++ [((80 / 9.75)%float, (80 / 9.75)%float)].
Proof.
  exact (@square_symbol_stays_square
           float float64 DemoPdf.QRCode DemoPdf.Shape
           DemoPdf.segno_make DemoPdf.svg2rlg DemoPdf.renderPDF_raises
           612%float 792%float (of_string "123") 80%float 36%float 36%float
           13%float
           {| width := 9.75%float; height := 9.75%float;
              transform := []; contents := 13%float |}
           eq_refl eq_refl eq_refl eq_refl eq_refl).
Defined.

(** ** Document merger: further properties *)

Section MergeInversion.

Context {num : Type} {A : Arith num}.
Variables QRCode Shape Body Stream : Type.
Variable segno_make : str -> option QRCode.
Variable svg2rlg : QRCode -> option (Drawing num Shape).
Variable renderPDF_raises : Drawing num Shape -> num -> num -> option exn.
Variable PdfReader : Stream -> option (list (Page num Shape Body)).
Variables qr_size_pts x_pos y_pos : num.

Local Notation "'page'" := (Page num Shape Body).
Local Notation "'round'" :=
  (composite (Body := Body) segno_make svg2rlg renderPDF_raises qr_size_pts
      x_pos y_pos).

(** Either every round succeeds, or there is a first one that raises. *)
Lemma rounds_dichotomy (todo : list (str * page)) :
  (exists outs, Forall2 (fun rp p' => round rp = Ok p') todo outs) \/
  (exists pre rp post outs e,
      todo = pre ++ rp :: post /\
      Forall2 (fun rp p' => round rp = Ok p') pre outs /\
      round rp = Raise e).
Proof.
  induction todo as [|rp todo IH].
  - left. exists []. constructor.
  - destruct (round rp) as [p'|e] eqn:R.
    + destruct IH as [[outs H]|(pre & rp' & post & outs & e & E & H & F)].
      * left. exists (p' :: outs). constructor; assumption.
      * right. exists (rp :: pre), rp', post, (p' :: outs), e.
        rewrite E. split; [reflexivity|].
        split; [constructor; assumption | assumption].
    + right. exists [], rp, todo, [], e. split; [reflexivity|].
      split; [constructor | exact R].
Qed.

Lemma merge_unreadable (pdf_stream : Stream) (csv_rows : list str) :
  PdfReader pdf_stream = None ->
  merge segno_make svg2rlg renderPDF_raises PdfReader pdf_stream csv_rows
        qr_size_pts x_pos y_pos
  = (no_pdf Shape Body, Raise PdfReadError).
Proof.
  intros H. unfold merge, place_qrs_on_pdf_stream, bind at 1.
  rewrite H. reflexivity.
Qed.

(** What a merge that returns has gone through. *)
Lemma merge_returns_inv (pdf_stream : Stream) (csv_rows : list str)
      (out : list page) :
  snd (merge segno_make svg2rlg renderPDF_raises PdfReader pdf_stream csv_rows
             qr_size_pts x_pos y_pos) = Ok out ->
  exists pages,
    PdfReader pdf_stream = Some pages /\
    length csv_rows = length pages /\
    Forall2 (fun rp p' => round rp = Ok p') (combine csv_rows pages) out /\
    fst (merge segno_make svg2rlg renderPDF_raises PdfReader pdf_stream csv_rows
               qr_size_pts x_pos y_pos)
    = {| reader_pages := out; writer_pages := out |}.
Proof.
  destruct (PdfReader pdf_stream) as [pages|] eqn:Hread.
  - destruct (length csv_rows =? length pages)%nat eqn:L.
    + apply Nat.eqb_eq in L.
      destruct (rounds_dichotomy (combine csv_rows pages))
        as [[outs H]|(pre & rp & post & outs & e & E & H & F)].
      * rewrite (merge_ok QRCode Shape Body Stream segno_make svg2rlg
          renderPDF_raises
                          PdfReader qr_size_pts x_pos y_pos
                          pdf_stream csv_rows pages outs Hread L H).
        cbn [fst snd]. intros [= <-]. exists pages. auto.
      * rewrite (merge_fail QRCode Shape Body Stream segno_make svg2rlg
          renderPDF_raises
                            PdfReader qr_size_pts x_pos y_pos
                            pdf_stream csv_rows pages outs pre post rp e
                            Hread L E H F).
        discriminate.
    + rewrite (merge_start QRCode Shape Body Stream segno_make svg2rlg
        renderPDF_raises
                           PdfReader qr_size_pts x_pos y_pos
                           pdf_stream csv_rows pages Hread), L.
      discriminate.
  - rewrite (merge_unreadable pdf_stream csv_rows Hread). discriminate.
Qed.

End MergeInversion.

(** X8. A merge returns a document only for a readable source with as
    many pages as there are values, and the document has that many
    pages. Merging works on the pages of the reader themselves: after a
    merge that returns, the pages the reader holds are the returned
    pages, overlays included. *)
Theorem merge_changes_source_pages_in_place
        {num : Type} {A : Arith num} (QRCode Shape Body Stream : Type)
        (segno_make : str -> option QRCode)
        (svg2rlg : QRCode -> option (Drawing num Shape))
        (renderPDF_raises : Drawing num Shape -> num -> num -> option exn)
        (PdfReader : Stream -> option (list (Page num Shape Body)))
        (pdf_stream : Stream) (csv_rows : list str)
        (qr_size_pts x_pos y_pos : num)
        (out : list (Page num Shape Body)) :
  snd (merge segno_make svg2rlg renderPDF_raises PdfReader pdf_stream csv_rows
             qr_size_pts x_pos y_pos) = Ok out ->
  exists pages,
    PdfReader pdf_stream = Some pages /\
    length csv_rows = length pages /\
    length out = length pages /\
    reader_pages (fst (merge segno_make svg2rlg renderPDF_raises PdfReader
        pdf_stream
                             csv_rows qr_size_pts x_pos y_pos)) = out /\
    writer_pages (fst (merge segno_make svg2rlg renderPDF_raises PdfReader
        pdf_stream
                             csv_rows qr_size_pts x_pos y_pos)) = out.
Proof.
  intros H.
  destruct (merge_returns_inv QRCode Shape Body Stream segno_make svg2rlg
      renderPDF_raises
              PdfReader qr_size_pts x_pos y_pos pdf_stream csv_rows out H)
    as (pages & Hread & L & F & S).
  exists pages. rewrite S. cbn [reader_pages writer_pages].
  repeat split; trivial.
  rewrite <- (Forall2_length F), length_combine, L. apply Nat.min_id.
Qed.

(** Three pages and the values [123], blank, [456]. *)
Lemma merge_changes_source_pages_in_place_witness :
  exists pages,
    DemoPdf.PdfReader [DemoPdf.letter 0; DemoPdf.letter 1; DemoPdf.letter 2]
    = Some pages /\
    length [of_string "123"; []; of_string "456"] = length pages /\
    length (reader_pages
              (fst (DemoPdf.merge
                      [DemoPdf.letter 0; DemoPdf.letter 1; DemoPdf.letter 2]
                      [of_string "123"; []; of_string "456"]
                      80%float 36%float 36%float))) = length pages /\
    reader_pages
      (fst (DemoPdf.merge
              [DemoPdf.letter 0; DemoPdf.letter 1; DemoPdf.letter 2]
              [of_string "123"; []; of_string "456"]
              80%float 36%float 36%float))
    = reader_pages
        (fst (DemoPdf.merge
                [DemoPdf.letter 0; DemoPdf.letter 1; DemoPdf.letter 2]
                [of_string "123"; []; of_string "456"]
                80%float 36%float 36%float)) /\
    writer_pages
      (fst (DemoPdf.merge
              [DemoPdf.letter 0; DemoPdf.letter 1; DemoPdf.letter 2]
              [of_string "123"; []; of_string "456"]
              80%float 36%float 36%float))
    = reader_pages
        (fst (DemoPdf.merge
                [DemoPdf.letter 0; DemoPdf.letter 1; DemoPdf.letter 2]
                [of_string "123"; []; of_string "456"]
                80%float 36%float 36%float)).
Proof.
  exact (@merge_changes_source_pages_in_place
           float float64 DemoPdf.QRCode DemoPdf.Shape DemoPdf.Body
           (list (Page float DemoPdf.Shape DemoPdf.Body))
           DemoPdf.segno_make DemoPdf.svg2rlg DemoPdf.renderPDF_raises
               DemoPdf.PdfReader
           [DemoPdf.letter 0; DemoPdf.letter 1; DemoPdf.letter 2]
           [of_string "123"; []; of_string "456"]
           80%float 36%float 36%float
           (reader_pages
              (fst (DemoPdf.merge
                      [DemoPdf.letter 0; DemoPdf.letter 1; DemoPdf.letter 2]
                      [of_string "123"; []; of_string "456"]
                      80%float 36%float 36%float)))
           eq_refl).
Defined.

Lemma build_page_shape
      {num : Type} {A : Arith num} (QRCode Shape : Type)
      (segno_make : str -> option QRCode)
      (svg2rlg : QRCode -> option (Drawing num Shape))
      (renderPDF_raises : Drawing num Shape -> num -> num -> option exn)
      (page_width page_height : num) (qr_data : str)
      (qr_size x_pos y_pos : num) (ov : Canvas num Shape)
      (more : list (Canvas num Shape)) :
  build_overlay_vector segno_make svg2rlg renderPDF_raises page_width
      page_height
                       qr_data qr_size x_pos y_pos = Ok (ov :: more) ->
  more = [] /\ pagesize ov = (page_width, page_height) /\
  exists pl, drawn ov = [pl].
Proof.
  rewrite build_overlay_outcome.
  destruct (segno_make qr_data) as [qr|]; [|discriminate].
  destruct (svg2rlg qr) as [d|]; [|discriminate].
  destruct (n_is_zero (width d) || n_is_zero (height d)); [discriminate|].
  destruct (placed_raises _ _); [discriminate|].
  intros [= <- <-]. cbn [pagesize drawn]. repeat split.
  eexists; reflexivity.
Qed.

(** X9. Each overlay is built for the page it goes on: in a merge that
    returns, an output page is the source page itself or the source page
    with one overlay more, and that overlay has the size of the page's
    own media box and exactly one drawing on it. *)
Theorem overlay_has_the_size_of_its_page
        {num : Type} {A : Arith num} (QRCode Shape Body Stream : Type)
        (segno_make : str -> option QRCode)
        (svg2rlg : QRCode -> option (Drawing num Shape))
        (renderPDF_raises : Drawing num Shape -> num -> num -> option exn)
        (PdfReader : Stream -> option (list (Page num Shape Body)))
        (pdf_stream : Stream) (csv_rows : list str)
        (qr_size_pts x_pos y_pos : num)
        (out : list (Page num Shape Body)) :
  snd (merge segno_make svg2rlg renderPDF_raises PdfReader pdf_stream csv_rows
             qr_size_pts x_pos y_pos) = Ok out ->
  exists pages,
    PdfReader pdf_stream = Some pages /\
    forall i p p',
      nth_error pages i = Some p -> nth_error out i = Some p' ->
      p' = p \/
      exists ov pl,
        overlays p' = overlays p ++ [ov] /\
        mediabox p' = mediabox p /\ body p' = body p /\
        pagesize ov = mediabox p /\
        drawn ov = [pl].
Proof.
  intros H.
  destruct (merge_returns_inv QRCode Shape Body Stream segno_make svg2rlg
      renderPDF_raises
              PdfReader qr_size_pts x_pos y_pos pdf_stream csv_rows out H)
    as (pages & Hread & L & F & _).
  exists pages. split; [exact Hread|]. intros i p p' Hp Hp'.
  assert (i < length csv_rows)%nat as Hi
      by (rewrite L; apply nth_error_Some; congruence).
  destruct (nth_error csv_rows i) as [r|] eqn:Hr;
    [|apply nth_error_None in Hr; lia].
  destruct (Forall2_nth_error _ _ _ i _ F
              (nth_error_combine _ _ _ _ _ Hr Hp)) as (p'' & Hp'' & R).
  rewrite Hp' in Hp''. injection Hp'' as <-.
  unfold composite in R. destruct (has_payload r).
  - destruct (build_overlay_vector _ _ _ _ _ _ _ _ _) as [[|ov more]|e] eqn:B;
      try discriminate.
    injection R as <-.
    destruct (build_page_shape _ _ _ _ _ _ _ _ _ _ _ _ _ B)
      as (_ & S & pl & D).
    right. exists ov, pl. cbn [merge_page overlays mediabox body].
    repeat split; trivial. rewrite S. symmetry. apply surjective_pairing.
  - injection R as <-. left. reflexivity.
Qed.

(** Three letter pages and the values [123], blank, [456]. *)
Lemma overlay_has_the_size_of_its_page_witness :
  exists pages,
    DemoPdf.PdfReader [DemoPdf.letter 0; DemoPdf.letter 1; DemoPdf.letter 2]
    = Some pages /\
    forall i p p',
      nth_error pages i = Some p ->
      nth_error
        (reader_pages
           (fst (DemoPdf.merge
                   [DemoPdf.letter 0; DemoPdf.letter 1; DemoPdf.letter 2]
                   [of_string "123"; []; of_string "456"]
                   80%float 36%float 36%float))) i = Some p' ->
      p' = p \/
      exists ov pl,
        overlays p' = overlays p ++ [ov] /\
        mediabox p' = mediabox p /\ body p' = body p /\
        pagesize ov = mediabox p /\
        drawn ov = [pl].
Proof.
  exact (@overlay_has_the_size_of_its_page
           float float64 DemoPdf.QRCode DemoPdf.Shape DemoPdf.Body
           (list (Page float DemoPdf.Shape DemoPdf.Body))
           DemoPdf.segno_make DemoPdf.svg2rlg DemoPdf.renderPDF_raises
               DemoPdf.PdfReader
           [DemoPdf.letter 0; DemoPdf.letter 1; DemoPdf.letter 2]
           [of_string "123"; []; of_string "456"]
           80%float 36%float 36%float
           (reader_pages
              (fst (DemoPdf.merge
                      [DemoPdf.letter 0; DemoPdf.letter 1; DemoPdf.letter 2]
                      [of_string "123"; []; of_string "456"]
                      80%float 36%float 36%float)))
           eq_refl).
Defined.

(** ** HTTP endpoints *)

Section EndpointFacts.

Variables Shape Body Image QRCode : Type.
Variable sniff : str -> option N.
Variable csv_reader : str -> N -> option (list (list str)).
Variable segno_make : str -> option QRCode.
Variable svg2rlg : QRCode -> option (Drawing float Shape).
Variable renderPDF_raises : Drawing float Shape -> float -> float -> option exn.
Variable PdfReader : FileStorage -> option (list (Page float Shape Body)).
Variable py_float : str -> option float.

Local Notation "'generate'" :=
  (generate_endpoint Image sniff csv_reader segno_make svg2rlg renderPDF_raises
      PdfReader
                     py_float).

(** What a request to generate that is answered with a document has gone
    through. *)
Lemma generate_returns_inv (request : Request)
      (out : list (Page float Shape Body)) :
  resp_payload (generate request) = PdfFile out ->
  exists pdf csv_file csv_rows pages,
    generate request = respond (PdfFile out) 200 /\
    get_file request "pdf" = Some pdf /\
    get_file request "csv" = Some csv_file /\
    snd (read_csv_column_by_name
           sniff csv_reader (strip (form_get request "csv_column"))
           (stream csv_file)) = Ok csv_rows /\
    PdfReader (rewound (stream pdf)) = Some pages /\
    length csv_rows = length pages /\
    length out = length pages.
Proof.
  unfold generate_endpoint. rewrite or_empty_id.
  destruct (get_file request "pdf") as [pdf|]; [|discriminate].
  destruct (get_file request "csv") as [csv_file|]; [|discriminate].
  destruct (truthy (strip (form_get request "csv_column")));
    cbn [negb]; [|discriminate].
  destruct (float_field py_float request "qr_size" 80) as [qr_size|];
    [|discriminate].
  destruct (float_field py_float request "x_pos" 36) as [x_pos|];
    [|discriminate].
  destruct (float_field py_float request "y_pos" 36) as [y_pos|];
    [|discriminate].
  destruct (snd (read_csv_column_by_name _ _ _ _)) as [csv_rows|e] eqn:R;
    [|discriminate].
  destruct (snd (merge _ _ _ _ _ _ _ _ _)) as [out'|e] eqn:M; [|discriminate].
  cbn [respond resp_payload]. intros [= <-].
  destruct (merge_returns_inv _ _ _ _ _ _ _ _ _ _ _ _ _ _ M)
    as (pages & Hread & L & F & _).
  exists pdf, csv_file, csv_rows, pages. repeat split; trivial.
  rewrite <- (Forall2_length F), length_combine, L. apply Nat.min_id.
Qed.

Lemma generate_status (request : Request) :
  (resp_status (generate request) = 400%nat /\
   forall out, resp_payload (generate request) <> PdfFile out) \/
  (resp_status (generate request) = 200%nat /\
   exists out, resp_payload (generate request) = PdfFile out).
Proof.
  unfold generate_endpoint.
  destruct (get_file request "pdf") as [pdf|];
    [|left; split; [reflexivity | discriminate]].
  destruct (get_file request "csv") as [csv_file|];
    [|left; split; [reflexivity | discriminate]].
  destruct (negb _); [left; split; [reflexivity | discriminate]|].
  destruct (float_field py_float request "qr_size" 80) as [qr_size|];
    [|left; split; [reflexivity | discriminate]].
  destruct (float_field py_float request "x_pos" 36) as [x_pos|];
    [|left; split; [reflexivity | discriminate]].
  destruct (float_field py_float request "y_pos" 36) as [y_pos|];
    [|left; split; [reflexivity | discriminate]].
  destruct (snd (read_csv_column_by_name _ _ _ _)) as [csv_rows|e];
    [|left; split; [reflexivity | discriminate]].
  destruct (snd (merge _ _ _ _ _ _ _ _ _)) as [out|e];
    [|left; split; [reflexivity | discriminate]].
  right. split; [reflexivity|]. exists out. reflexivity.
Qed.

End EndpointFacts.

(** X10. The generate endpoint answers every request with status 400
    and no document, or with status 200 and a document; in the second
    case both files were uploaded, the column was found, the PDF was
    readable, the CSV has as many data rows as the PDF has pages, and
    the document returned has that many pages. *)
Theorem generate_answers_with_every_page_or_an_error
        (Shape Body Image QRCode : Type)
        (sniff : str -> option N)
        (csv_reader : str -> N -> option (list (list str)))
        (segno_make : str -> option QRCode)
        (svg2rlg : QRCode -> option (Drawing float Shape))
        (renderPDF_raises : Drawing float Shape -> float -> float -> option exn)
        (PdfReader : FileStorage -> option (list (Page float Shape Body)))
        (py_float : str -> option float) (request : Request) :
  (resp_status (generate_endpoint Image sniff csv_reader segno_make svg2rlg
      renderPDF_raises
                                  PdfReader py_float request) = 400%nat /\
   forall out,
     resp_payload (generate_endpoint Image sniff csv_reader segno_make
                                     svg2rlg renderPDF_raises PdfReader
                                         py_float request)
     <> PdfFile out)
  \/
  (exists pdf csv_file csv_rows pages out,
      generate_endpoint Image sniff csv_reader segno_make svg2rlg
          renderPDF_raises
                        PdfReader py_float request
      = respond (PdfFile out) 200 /\
      get_file request "pdf" = Some pdf /\
      get_file request "csv" = Some csv_file /\
      snd (read_csv_column_by_name
             sniff csv_reader (strip (form_get request "csv_column"))
             (stream csv_file)) = Ok csv_rows /\
      PdfReader (rewound (stream pdf)) = Some pages /\
      length csv_rows = length pages /\
      length out = length pages).
Proof.
  destruct (generate_status Shape Body Image QRCode sniff csv_reader
              segno_make svg2rlg renderPDF_raises PdfReader py_float request)
    as [H|[_ [out H]]]; [left; exact H | right].
  destruct (generate_returns_inv Shape Body Image QRCode sniff csv_reader
              segno_make svg2rlg renderPDF_raises PdfReader py_float request
                  out H)
    as (pdf & csv_file & csv_rows & pages & E).
  exists pdf, csv_file, csv_rows, pages, out. exact E.
Qed.

Example scenario_generate :
  resp_status (DemoWeb.generate DemoWeb.scenario_request) = 200%nat.
Proof. vm_compute. reflexivity. Qed.

(** X11. The page count the preview endpoint reports is the number of
    data rows a request to generate needs: when generate answers a
    request with a document that has a page, preview answers the same
    request with status 200 and a page count equal to the number of
    pages of that document. *)
Theorem preview_counts_the_pages_generate_returns
        (Shape Body Image QRCode : Type)
        (sniff : str -> option N)
        (csv_reader : str -> N -> option (list (list str)))
        (segno_make : str -> option QRCode)
        (svg2rlg : QRCode -> option (Drawing float Shape))
        (renderPDF_raises : Drawing float Shape -> float -> float -> option exn)
        (PdfReader : FileStorage -> option (list (Page float Shape Body)))
        (py_float : str -> option float) (request : Request)
        (out : list (Page float Shape Body)) :
  resp_payload (generate_endpoint Image sniff csv_reader segno_make svg2rlg
      renderPDF_raises
                                  PdfReader py_float request) = PdfFile out ->
  out <> [] ->
  exists page_width page_height,
    preview_endpoint Image PdfReader request
    = respond (JsonPage page_width page_height (length out)) 200.
Proof.
  intros H Hne.
  destruct (generate_returns_inv Shape Body Image QRCode sniff csv_reader
              segno_make svg2rlg renderPDF_raises PdfReader py_float request
                  out H)
    as (pdf & csv_file & csv_rows & pages & _ & Hpdf & _ & _ & Hread & _ & L).
  unfold preview_endpoint. rewrite Hpdf, Hread, L.
  destruct pages as [|p pages];
    [destruct out; [contradiction | discriminate L]|].
  cbn [nth_error]. eexists; eexists; reflexivity.
Qed.

(** The scenario request: three pages, three data rows. *)
Lemma preview_counts_the_pages_generate_returns_witness :
  exists page_width page_height,
    DemoWeb.preview DemoWeb.scenario_request
    = respond (JsonPage page_width page_height 3) 200.
Proof.
  destruct (resp_payload (DemoWeb.generate DemoWeb.scenario_request))
    as [| | | |out|] eqn:G; try (vm_compute in G; discriminate G).
  assert (length out = 3%nat) as L
      by (vm_compute in G; injection G as <-; reflexivity).
  assert (out <> []) as Hne by (intros ->; discriminate L).
  pose proof (preview_counts_the_pages_generate_returns
                DemoPdf.Shape DemoPdf.Body DemoWeb.Image DemoPdf.QRCode
                Demo.sniff Demo.csv_reader DemoPdf.segno_make DemoPdf.svg2rlg
                    DemoPdf.renderPDF_raises
                DemoWeb.PdfReader DemoWeb.py_float DemoWeb.scenario_request
                out G Hne) as P.
  rewrite L in P. exact P.
Defined.

(** X12. The column selector is filled from the headers endpoint, and
    what it offers can be asked for: with a csv reader whose first
    record is the first of the records it lists, extraction with any
    header the endpoint returns finds the column; it returns the
    column's values, unless the reader fails on a later record. *)
Theorem listed_headers_resolve
        (Shape Body Image : Type)
        (sniff : str -> option N)
        (csv_reader : str -> N -> option (list (list str)))
        (csv_first : str -> N -> option (option (list str)))
        (request : Request) (headers : list str) (h : str) :
  (forall data d rows,
      csv_reader data d = Some rows ->
      csv_first data d = Some (hd_error rows)) ->
  resp_payload (csv_headers Shape Body Image sniff csv_first request)
  = JsonHeaders headers ->
  In h headers ->
  exists csv_file,
    get_file request "csv" = Some csv_file /\
    ((exists out,
         snd (read_csv_column_by_name sniff csv_reader h (stream csv_file))
         = Ok out) \/
     snd (read_csv_column_by_name sniff csv_reader h (stream csv_file))
     = Raise CsvError).
Proof.
  intros Hcoh. unfold csv_headers.
  destruct (get_file request "csv") as [csv_file|]; [|discriminate].
  destruct (Utf8.decode (unread (stream csv_file))) as [data|] eqn:Hdec;
    [|discriminate].
  destruct (csv_first data (detect_delimiter sniff data)) as [header|] eqn:F;
    [|discriminate].
  cbn [respond resp_payload]. intros [= <-] Hin.
  exists csv_file. split; [reflexivity|].
  rewrite read_csv_outcome, Hdec. cbn [snd].
  destruct (csv_reader data (detect_delimiter sniff data)) as [rows|] eqn:R;
    [|right; reflexivity].
  left. rewrite (Hcoh _ _ _ R) in F. injection F as <-.
  destruct rows as [|[|c cs] rows];
    [destruct Hin | destruct Hin |].
  change (In h (map strip (c :: cs))) in Hin.
  assert (strip h = h) as Hh.
  { apply in_map_iff in Hin. destruct Hin as (x & <- & _).
    apply strip_idempotent. }
  rewrite Hh. apply contains_In in Hin.
  destruct (index_contains _ _ Hin) as [k ->]. eexists; reflexivity.
Qed.

(** The scenario table: [Code] is offered and resolves. *)
Lemma listed_headers_resolve_witness :
  exists csv_file,
    get_file DemoWeb.scenario_request "csv" = Some csv_file /\
    ((exists out,
         snd (read_csv_column_by_name Demo.sniff Demo.csv_reader
                                      (of_string "Code") (stream csv_file))
         = Ok out) \/
     snd (read_csv_column_by_name Demo.sniff Demo.csv_reader
                                  (of_string "Code") (stream csv_file))
     = Raise CsvError).
Proof.
  apply (listed_headers_resolve
           DemoPdf.Shape DemoPdf.Body DemoWeb.Image
           Demo.sniff Demo.csv_reader DemoWeb.csv_first
           DemoWeb.scenario_request
           [of_string "Name"; of_string "Code"] (of_string "Code")).
  - intros data d rows H. unfold DemoWeb.csv_first. rewrite H. reflexivity.
  - reflexivity.
  - simpl. right. left. reflexivity.
Defined.

Lemma preview_qr_responds_when_numbers_parse
      (Shape Body Image : Type)
      (sniff : str -> option N)
      (csv_reader : str -> N -> option (list (list str)))
      (py_int : str -> option Z)
      (qrcode_image : str -> option Image)
      (resize : Image -> Z -> Z -> option Image)
      (request : Request) (n size : Z) :
  int_field py_int request "page_num" 1 = Parsed n ->
  int_field py_int request "qr_size" 80 = Parsed size ->
  exists r,
    preview_qr_endpoint Shape Body sniff csv_reader py_int qrcode_image
                        resize request = Responds r.
Proof.
  intros Hpage Hsize. unfold preview_qr_endpoint. rewrite Hpage, Hsize.
  destruct (get_file request "csv") as [csv_file|];
    [|eexists; reflexivity].
  destruct (negb (truthy _)); [eexists; reflexivity|].
  destruct (snd (read_csv_column_by_name _ _ _ _)) as [csv_rows|e];
    [|eexists; reflexivity].
  destruct (_ || _)%bool; [eexists; reflexivity|].
  destruct (_ || _)%bool; [eexists; reflexivity|].
  destruct (make_qr _ _ _ _); eexists; reflexivity.
Qed.

Lemma int_field_invalid (py_int : str -> option Z) (request : Request)
      (name : string) (default : Z) (v : str) :
  int_field py_int request name default = Invalid v <->
  form request name = Some v /\ py_int v = None.
Proof.
  unfold int_field. destruct (form request name) as [u|].
  - destruct (py_int u) eqn:P.
    + split; [discriminate|]. intros [[= ->] N]. congruence.
    + split; [intros [= <-]; auto | intros [[= ->] _]; reflexivity].
  - split; [discriminate | intros [E _]; discriminate E].
Qed.

(** X13. The two image previews convert their numbers before they check
    anything and outside any [try], so the [ValueError] of [int] escapes
    the view, whether the files are there or not; nothing else escapes.
    The page image lets an error escape exactly when [page_num] is given
    and is not an integer literal; the QR preview exactly then, or when
    [page_num] converts and [qr_size] is given and is not one. *)
Theorem previews_escape_exactly_on_malformed_numbers
        (Shape Body Image : Type)
        (sniff : str -> option N)
        (csv_reader : str -> N -> option (list (list str)))
        (py_int : str -> option Z)
        (qrcode_image : str -> option Image)
        (resize : Image -> Z -> Z -> option Image)
        (convert_from_bytes : bytes -> Z -> option (list Image))
        (request : Request) (v : str) :
  (pdf_page_image Shape Body py_int convert_from_bytes request = Escapes v
   <->
   form request "page_num" = Some v /\ py_int v = None)
  /\
  (preview_qr_endpoint Shape Body sniff csv_reader py_int qrcode_image
                       resize request = Escapes v
   <->
   (form request "page_num" = Some v /\ py_int v = None) \/
   ((exists n, int_field py_int request "page_num" 1 = Parsed n) /\
    form request "qr_size" = Some v /\ py_int v = None)).
Proof.
  split.
  - rewrite <- (int_field_invalid py_int request "page_num" 1 v).
    unfold pdf_page_image.
    destruct (int_field py_int request "page_num" 1) as [n|u].
    + destruct (get_file request "pdf") as [pdf|];
        [|split; discriminate].
      destruct (convert_from_bytes _ n) as [[|img imgs]|];
        split; discriminate.
    + split; intros [= ->]; reflexivity.
  - rewrite <- (int_field_invalid py_int request "page_num" 1 v).
    rewrite <- (int_field_invalid py_int request "qr_size" 80 v).
    destruct (int_field py_int request "page_num" 1) as [n|u] eqn:Hpage.
    + destruct (int_field py_int request "qr_size" 80) as [size|w] eqn:Hsize.
      * destruct (preview_qr_responds_when_numbers_parse
                    Shape Body Image sniff csv_reader py_int qrcode_image
                    resize request n size Hpage Hsize) as [r ->].
        split; [discriminate|].
        intros [E|[_ E]]; discriminate E.
      * unfold preview_qr_endpoint. rewrite Hpage, Hsize. split.
        -- intros [= ->]. right. split; [exists n|]; reflexivity.
        -- intros [E|[_ [= ->]]]; [discriminate E | reflexivity].
    + unfold preview_qr_endpoint. rewrite Hpage. split.
      * intros [= ->]. left. reflexivity.
      * intros [[= ->]|[[n E] _]]; [reflexivity | discriminate E].
Qed.

(** A page number [x] and no file at all: both previews let it escape. *)
Example malformed_page_number_escapes :
  DemoWeb.preview_qr
    (DemoWeb.request None None [("page_num"%string, of_string "x")])
  = Escapes (of_string "x") /\
  DemoWeb.page_image
    (DemoWeb.request None None [("page_num"%string, of_string "x")])
  = Escapes (of_string "x") /\
  DemoWeb.preview_qr
    (DemoWeb.request None None [("qr_size"%string, of_string "80.5")])
  = Escapes (of_string "80.5").
Proof. repeat split. Qed.





